(** * BioAmplify-Analytics: the statistics engine

    A shallow embedding of [utils/statistics.py] (diagnostic statistics,
    Cohen's kappa, multiple-comparisons correction) and of the pairwise
    comparison loop of [routes.py] ([compare_techniques]).

    The Python code computes with IEEE-754 binary64 numbers.  The functions
    are written once, over an interface [FloatOps] of float operations, and
    the interface has two instances:

    - [binary64]: Rocq's primitive floats, the arithmetic the program runs
      on; every definition evaluates with [vm_compute];
    - [xreal]: real numbers extended with [+inf], [-inf] and [nan], that is
      the same operations without rounding and without overflow; statements
      quantified over all inputs are proved here.

    Python exceptions are values of [pyexn], raised through the error monad
    [pyresult]. *)

From Stdlib Require Import ZArith Reals Lra Lia List String Floats Bool Psatz Sorted.
From stdpp Require Import gmap strings pretty.
Import ListNotations.

Set Default Proof Using "Type".

(** ** Exceptions and the error monad *)

Inductive pyexn : Type :=
| ValueError (msg : string)
| ZeroDivisionError
| OverflowError (msg : string)
| UnboundLocalError (var : string).

Inductive pyresult (A : Type) : Type :=
| Ok (a : A)
| Raise (e : pyexn).
Arguments Ok {A} a.
Arguments Raise {A} e.

Definition bind {A B : Type} (m : pyresult A) (k : A -> pyresult B) : pyresult B :=
  match m with
  | Ok a => k a
  | Raise e => Raise e
  end.

Notation "x <- m ;; k" := (bind m (fun x => k))
  (at level 62, m at next level, right associativity).

Definition is_ok {A : Type} (m : pyresult A) : bool :=
  match m with Ok _ => true | Raise _ => false end.

(** ** The float interface

    [fint] is the conversion [float(i)] of an integer, [int_truediv a b] the
    true division [a / b] of two integers ([b] not zero), which Python rounds
    once.  [fadd], [fsub], [fmul], [fdiv] and [fsqrt] are the IEEE operations
    (total: [fdiv] by zero gives an infinity or nan, as numpy's division
    does); [flt] and [feq] are [<] and [==]; [ftrunc] is [int(x)]. *)

Class FloatOps (F : Type) : Type := {
  fint : Z -> F;
  int_truediv : Z -> Z -> F;
  fadd : F -> F -> F;
  fsub : F -> F -> F;
  fmul : F -> F -> F;
  fdiv : F -> F -> F;
  fsqrt : F -> F;
  flt : F -> F -> bool;
  feq : F -> F -> bool;
  finf : F;
  ftrunc : F -> pyresult Z
}.

Section Engine.

Context {F : Type} `{FloatOps F}.

(** [scipy.stats.norm.ppf], the inverse of the standard normal distribution
    function, is a library function: a parameter of the development. *)
Variable norm_ppf : F -> F.

(** A decimal literal [n/d] of the source, such as [0.20] or [0.95]. *)
Definition fdec (n d : Z) : F := int_truediv n d.

(** Python's [x / y] on floats raises on a zero divisor. *)
Definition py_div (x y : F) : pyresult F :=
  if feq y (fint 0) then Raise ZeroDivisionError else Ok (fdiv x y).

(** Python's [a / b] on integers. *)
Definition int_div (a b : Z) : pyresult F :=
  if (b =? 0)%Z then Raise ZeroDivisionError else Ok (int_truediv a b).

(** [math.sqrt]. *)
Definition math_sqrt (x : F) : pyresult F :=
  if flt x (fint 0) then Raise (ValueError "math domain error") else Ok (fsqrt x).

(** The builtins [max(a, b)] and [min(a, b)]: the first argument is kept
    unless the second is strictly larger (smaller). *)
Definition py_max (a b : F) : F := if flt a b then b else a.
Definition py_min (a b : F) : F := if flt b a then b else a.

(** [np.minimum], which propagates nan. *)
Definition np_minimum (a b : F) : F :=
  if negb (feq a a) then a
  else if negb (feq b b) then b
  else if flt b a then b else a.

(** [np.sum] of a one-dimensional array, added from left to right (numpy's
    order for arrays of fewer than eight elements). *)
Definition np_sum (l : list F) : F := fold_left fadd l (fint 0).

(** The Altman scale, [interpret_kappa] in [calculate_cohens_kappa] and the
    same chain of tests in [calculate_diagnostic_stats]. *)
Definition interpret_kappa (k : F) : string :=
  if flt k (fdec 20 100) then "Poor agreement"
  else if flt k (fdec 40 100) then "Fair agreement"
  else if flt k (fdec 60 100) then "Moderate agreement"
  else if flt k (fdec 80 100) then "Good agreement"
  else "Very good agreement".

(** ** [calculate_diagnostic_stats] *)

Record proportion : Type := {
  value : F;
  percentage : F;
  ci_lower : F;
  ci_upper : F
}.

Record kappa_proxy : Type := {
  kappa_value : F;
  kappa_ci_lower : F;
  kappa_ci_upper : F;
  kappa_interpretation : string
}.

Record diagnostic_stats : Type := {
  sensitivity : proportion;
  specificity : proportion;
  ppv : proportion;
  npv : proportion;
  accuracy : proportion;
  prevalence_value : F;
  prevalence_percentage : F;
  f1_score : F;
  mcc : F;
  lr_positive : F;
  lr_negative : F;
  diagnostic_odds_ratio : F;
  cohens_kappa : kappa_proxy;
  stats_sample_size : Z;
  stats_confidence_level : F
}.

(** The critical value [stats.norm.ppf((1 + confidence) / 2)]. *)
Definition z_critical (confidence : F) : F :=
  norm_ppf (fdiv (fadd (fint 1) confidence) (fint 2)).

(** The inner function [wilson_ci(x, n)].  [z] is a numpy scalar, so the
    divisions it takes part in are numpy's; [x / n] is Python's. *)
Definition wilson_ci (conf_level : F) (x n : Z) : pyresult (F * F) :=
  if (n =? 0)%Z then Ok (fint 0, fint 0)
  else
    let z := z_critical conf_level in
    p <- int_div x n ;;
    let center :=
      fdiv (fadd p (fdiv (fmul z z) (fint (2 * n))))
           (fadd (fint 1) (fdiv (fmul z z) (fint n))) in
    s <- math_sqrt
           (fdiv (fadd (fmul p (fsub (fint 1) p)) (fdiv (fmul z z) (fint (4 * n))))
                 (fint n)) ;;
    let margin := fdiv (fmul z s) (fadd (fint 1) (fdiv (fmul z z) (fint n))) in
    Ok (py_max (fint 0) (fsub center margin), py_min (fint 1) (fadd center margin)).

Definition mk_proportion (v : F) (ci : F * F) : proportion :=
  {| value := v; percentage := fmul v (fint 100);
     ci_lower := fst ci; ci_upper := snd ci |}.

Definition validation_message : string := "All confusion matrix values cannot be zero".

(** The kappa proxy of one confusion matrix (source lines 88 to 121).  The
    square [x**2] is the product [x * x]. *)
Definition kappa_self_consistency (tp fp tn fn : Z) (confidence : F)
  : pyresult kappa_proxy :=
  let total_samples := (tp + fp + tn + fn)%Z in
  let not_calculated :=
    {| kappa_value := fint 0; kappa_ci_lower := fint 0; kappa_ci_upper := fint 0;
       kappa_interpretation := "Not calculated" |} in
  if (0 <? total_samples)%Z then
    observed_agreement <- int_div (tp + tn) total_samples ;;
    expected_agreement <-
      int_div ((tp + fn) * (tp + fp) + (tn + fp) * (tn + fn))
              (total_samples * total_samples) ;;
    if flt expected_agreement (fint 1) then
      kappa_value <- py_div (fsub observed_agreement expected_agreement)
                            (fsub (fint 1) expected_agreement) ;;
      se_kappa <-
        (if flt expected_agreement (fint 1) then
           q <- py_div expected_agreement
                  (fmul (fint total_samples)
                        (fmul (fsub (fint 1) expected_agreement)
                              (fsub (fint 1) expected_agreement))) ;;
           math_sqrt q
         else Ok (fint 0)) ;;
      let z := z_critical confidence in
      Ok {| kappa_value := kappa_value;
            kappa_ci_lower := py_max (fint (-1)) (fsub kappa_value (fmul z se_kappa));
            kappa_ci_upper := py_min (fint 1) (fadd kappa_value (fmul z se_kappa));
            kappa_interpretation := interpret_kappa kappa_value |}
    else Ok not_calculated
  else Ok not_calculated.

Definition calculate_diagnostic_stats (tp fp tn fn : Z) (confidence : F)
  : pyresult diagnostic_stats :=
  if (tp + fp + tn + fn =? 0)%Z then Raise (ValueError validation_message)
  else
    let total := (tp + fp + tn + fn)%Z in
    sensitivity <- (if (0 <? tp + fn)%Z then int_div tp (tp + fn) else Ok (fint 0)) ;;
    specificity <- (if (0 <? tn + fp)%Z then int_div tn (tn + fp) else Ok (fint 0)) ;;
    ppv <- (if (0 <? tp + fp)%Z then int_div tp (tp + fp) else Ok (fint 0)) ;;
    npv <- (if (0 <? tn + fn)%Z then int_div tn (tn + fn) else Ok (fint 0)) ;;
    accuracy <- int_div (tp + tn) total ;;
    prevalence <- int_div (tp + fn) total ;;
    fpr <- (if (0 <? fp + tn)%Z then int_div fp (fp + tn) else Ok (fint 0)) ;;
    fnr <- (if (0 <? fn + tp)%Z then int_div fn (fn + tp) else Ok (fint 0)) ;;
    lr_positive <- (if flt (fint 0) fpr then py_div sensitivity fpr else Ok finf) ;;
    lr_negative <- (if flt (fint 0) specificity then py_div fnr specificity else Ok finf) ;;
    dor <- (if flt (fint 0) lr_negative then py_div lr_positive lr_negative else Ok finf) ;;
    f1_score <-
      (if flt (fint 0) (fadd ppv sensitivity)
       then py_div (fmul (fint 2) (fmul ppv sensitivity)) (fadd ppv sensitivity)
       else Ok (fint 0)) ;;
    let mcc_numerator := (tp * tn - fp * fn)%Z in
    mcc_denominator <- math_sqrt (fint ((tp + fp) * (tp + fn) * (tn + fp) * (tn + fn))) ;;
    mcc <- (if flt (fint 0) mcc_denominator
            then py_div (fint mcc_numerator) mcc_denominator else Ok (fint 0)) ;;
    sensitivity_ci <- wilson_ci confidence tp (tp + fn) ;;
    specificity_ci <- wilson_ci confidence tn (tn + fp) ;;
    ppv_ci <- wilson_ci confidence tp (tp + fp) ;;
    npv_ci <- wilson_ci confidence tn (tn + fn) ;;
    accuracy_ci <- wilson_ci confidence (tp + tn) total ;;
    kappa <- kappa_self_consistency tp fp tn fn confidence ;;
    Ok {| sensitivity := mk_proportion sensitivity sensitivity_ci;
          specificity := mk_proportion specificity specificity_ci;
          ppv := mk_proportion ppv ppv_ci;
          npv := mk_proportion npv npv_ci;
          accuracy := mk_proportion accuracy accuracy_ci;
          prevalence_value := prevalence;
          prevalence_percentage := fmul prevalence (fint 100);
          f1_score := f1_score;
          mcc := mcc;
          lr_positive := lr_positive;
          lr_negative := lr_negative;
          diagnostic_odds_ratio := dor;
          cohens_kappa := kappa;
          stats_sample_size := total;
          stats_confidence_level := confidence |}.

(** ** [calculate_cohens_kappa]

    Labels are integers.  [np.unique] sorts the labels of both sequences and
    removes duplicates. *)

Fixpoint insert_unique (x : Z) (l : list Z) : list Z :=
  match l with
  | [] => [x]
  | y :: l' =>
      if (x <? y)%Z then x :: l
      else if (x =? y)%Z then l
      else y :: insert_unique x l'
  end.

Definition np_unique (l : list Z) : list Z := fold_right insert_unique [] l.

(** One entry of the contingency matrix,
    [np.sum((rater1 == cat1) & (rater2 == cat2))].  numpy stores the counts
    as floats; they are integers, which binary64 adds without rounding, and
    are kept in [Z] until they are divided by [n]. *)
Fixpoint contingency (cat1 cat2 : Z) (rater1 rater2 : list Z) : Z :=
  match rater1, rater2 with
  | a :: r1, b :: r2 =>
      ((if (a =? cat1)%Z && (b =? cat2)%Z then 1 else 0)
       + contingency cat1 cat2 r1 r2)%Z
  | _, _ => 0%Z
  end.

Definition Zsum (l : list Z) : Z := fold_right Z.add 0%Z l.

(** [np.trace(contingency)], [np.sum(contingency, axis=1)] and
    [np.sum(contingency, axis=0)] over the categories. *)
Definition np_trace (categories rater1 rater2 : list Z) : Z :=
  Zsum (map (fun cat => contingency cat cat rater1 rater2) categories).

Definition sum_axis1 (categories rater1 rater2 : list Z) : list Z :=
  map (fun cat1 => Zsum (map (fun cat2 => contingency cat1 cat2 rater1 rater2) categories))
      categories.

Definition sum_axis0 (categories rater1 rater2 : list Z) : list Z :=
  map (fun cat2 => Zsum (map (fun cat1 => contingency cat1 cat2 rater1 rater2) categories))
      categories.

Definition p_observed (rater1 rater2 : list Z) : F :=
  let n := Z.of_nat (length rater1) in
  let categories := np_unique (rater1 ++ rater2) in
  fdiv (fint (np_trace categories rater1 rater2)) (fint n).

Definition p_expected (rater1 rater2 : list Z) : F :=
  let n := Z.of_nat (length rater1) in
  let categories := np_unique (rater1 ++ rater2) in
  let row_marginals :=
    map (fun s => fdiv (fint s) (fint n)) (sum_axis1 categories rater1 rater2) in
  let col_marginals :=
    map (fun s => fdiv (fint s) (fint n)) (sum_axis0 categories rater1 rater2) in
  np_sum (zip_with fmul row_marginals col_marginals).

(** Modelled from the spec: [sklearn.metrics.cohen_kappa_score] is a library
    function, not part of the repository; the specification gives it as the
    standard formula kappa = (p_obs - p_exp) / (1 - p_exp).  The division is
    numpy's: with a single category it is 0/0, that is nan. *)
Definition cohen_kappa_score (rater1 rater2 : list Z) : F :=
  fdiv (fsub (p_observed rater1 rater2) (p_expected rater1 rater2))
       (fsub (fint 1) (p_expected rater1 rater2)).

Record kappa_result : Type := {
  kappa : F;
  confidence_interval_lower : F;
  confidence_interval_upper : F;
  confidence_level : F;
  standard_error : F;
  interpretation : string;
  sample_size : Z;
  observed_agreement : F;
  expected_agreement : F
}.

Definition calculate_cohens_kappa (rater1 rater2 : list Z) (confidence : F)
  : pyresult kappa_result :=
  if negb (length rater1 =? length rater2)%nat
  then Raise (ValueError "Rater arrays must have the same length")
  else if (length rater1 =? 0)%nat
  then Raise (ValueError "Rater arrays cannot be empty")
  else
    let kappa := cohen_kappa_score rater1 rater2 in
    let n := Z.of_nat (length rater1) in
    let p_obs := p_observed rater1 rater2 in
    let p_exp := p_expected rater1 rater2 in
    se_kappa <-
      (if feq p_exp (fint 1) then Ok (fint 0)
       else math_sqrt
              (fdiv p_exp
                    (fmul (fint n)
                          (fmul (fsub (fint 1) p_exp) (fsub (fint 1) p_exp))))) ;;
    let z := z_critical confidence in
    let ci_lower := fsub kappa (fmul z se_kappa) in
    let ci_upper := fadd kappa (fmul z se_kappa) in
    let ci_upper := py_min (fint 1) ci_upper in
    Ok {| kappa := kappa;
          confidence_interval_lower := ci_lower;
          confidence_interval_upper := ci_upper;
          confidence_level := confidence;
          standard_error := se_kappa;
          interpretation := interpret_kappa kappa;
          sample_size := n;
          observed_agreement := p_obs;
          expected_agreement := p_exp |}.

(** ** [calculate_multiple_comparisons_correction] *)

Record correction_result : Type := {
  original_p_values : list F;
  corrected_p_values : list F;
  method : string;
  significant_at_05 : list bool;
  significant_at_01 : list bool
}.

(** [np.argsort]: the indices that sort the array (insertion sort, which is
    what numpy runs on short arrays; the corrected values below do not depend
    on the order of equal p-values). *)
Fixpoint insert_index (p_array : list F) (idx : nat) (sorted : list nat) : list nat :=
  match sorted with
  | [] => [idx]
  | j :: rest =>
      if flt (nth idx p_array (fint 0)) (nth j p_array (fint 0))
      then idx :: sorted
      else j :: insert_index p_array idx rest
  end.

Definition np_argsort (p_array : list F) : list nat :=
  fold_left (fun sorted idx => insert_index p_array idx sorted)
            (seq 0 (length p_array)) [].

(** [for i, idx in enumerate(sorted_indices): corrected[idx] = f i idx]. *)
Fixpoint assign_ranked (f : nat -> nat -> F) (i : nat) (sorted_indices : list nat)
    (corrected : list F) : list F :=
  match sorted_indices with
  | [] => corrected
  | idx :: rest => assign_ranked f (S i) rest (<[idx := f i idx]> corrected)
  end.

(** [corrected[sorted_indices]] and [corrected[sorted_indices] = values]. *)
Definition gather (corrected : list F) (sorted_indices : list nat) : list F :=
  map (fun idx => nth idx corrected (fint 0)) sorted_indices.

Fixpoint scatter (sorted_indices : list nat) (values : list F) (corrected : list F)
  : list F :=
  match sorted_indices, values with
  | idx :: rest, v :: values' => scatter rest values' (<[idx := v]> corrected)
  | _, _ => corrected
  end.

(** [for i in range(1, len(a)): a[i] = max(a[i], a[i-1])]. *)
Fixpoint forward_max (previous : F) (a : list F) : list F :=
  match a with
  | [] => []
  | x :: rest => let y := py_max x previous in y :: forward_max y rest
  end.

Definition monotone_increasing (a : list F) : list F :=
  match a with
  | [] => []
  | x :: rest => x :: forward_max x rest
  end.

(** [for i in range(len(a) - 2, -1, -1): a[i] = min(a[i], a[i + 1])]. *)
Fixpoint monotone_decreasing (a : list F) : list F :=
  match a with
  | [] => []
  | x :: rest =>
      match monotone_decreasing rest with
      | [] => [x]
      | y :: tail => py_min x y :: y :: tail
      end
  end.

Definition bonferroni (p_array : list F) : list F :=
  let n := Z.of_nat (length p_array) in
  let corrected := map (fun p => fmul p (fint n)) p_array in
  map (fun c => np_minimum c (fint 1)) corrected.

Definition holm (p_array : list F) : list F :=
  let n := Z.of_nat (length p_array) in
  let sorted_indices := np_argsort p_array in
  let corrected := repeat (fint 0) (length p_array) in
  let corrected :=
    assign_ranked
      (fun i idx => py_min (fint 1)
                      (fmul (nth idx p_array (fint 0)) (fint (n - Z.of_nat i))))
      0 sorted_indices corrected in
  let sorted_corrected := monotone_increasing (gather corrected sorted_indices) in
  scatter sorted_indices sorted_corrected corrected.

Definition fdr_bh (p_array : list F) : list F :=
  let n := Z.of_nat (length p_array) in
  let sorted_indices := np_argsort p_array in
  let corrected := repeat (fint 0) (length p_array) in
  let corrected :=
    assign_ranked
      (fun i idx => py_min (fint 1)
                      (fdiv (fmul (nth idx p_array (fint 0)) (fint n))
                            (fint (Z.of_nat i + 1))))
      0 sorted_indices corrected in
  let sorted_corrected := monotone_decreasing (gather corrected sorted_indices) in
  scatter sorted_indices sorted_corrected corrected.

(** The [if]/[elif] chain has no [else]: with any other method the local
    variable [corrected] is never bound, and building the result raises. *)
Definition calculate_multiple_comparisons_correction (p_values : list F)
    (method : string) : pyresult correction_result :=
  let p_array := p_values in
  let corrected : option (list F) :=
    if String.eqb method "bonferroni" then Some (bonferroni p_array)
    else if String.eqb method "holm" then Some (holm p_array)
    else if String.eqb method "fdr_bh" then Some (fdr_bh p_array)
    else None in
  match corrected with
  | None => Raise (UnboundLocalError "corrected")
  | Some corrected =>
      Ok {| original_p_values := p_values;
            corrected_p_values := corrected;
            method := method;
            significant_at_05 := map (fun c => flt c (fdec 5 100)) corrected;
            significant_at_01 := map (fun c => flt c (fdec 1 100)) corrected |}
  end.

(** ** [compare_techniques] (routes.py) *)

Record experiment : Type := {
  name : string;
  true_positive : Z;
  false_positive : Z;
  true_negative : Z;
  false_negative : Z
}.

(** One value of the dictionary [kappa_results]. *)
Record kappa_entry : Type := {
  entry_kappa : F;
  entry_ci_lower : F;
  entry_ci_upper : F;
  entry_confidence_level : F;
  entry_standard_error : F;
  entry_interpretation : string
}.

Definition experiment_total (e : experiment) : Z :=
  (true_positive e + false_positive e + true_negative e + false_negative e)%Z.

(** [range(int((count / total1) * min_total))]: the number of iterations of
    one of the four loops. *)
Definition stratum (count total1 min_total : Z) : pyresult nat :=
  share <- int_div count total1 ;;
  k <- ftrunc (fmul share (fint min_total)) ;;
  Ok (Z.to_nat k).

(** The two rater arrays built for the pair ([exp1], [exp2]). *)
Definition synthesize (exp1 exp2 : experiment) : pyresult (list Z * list Z) :=
  let total1 := experiment_total exp1 in
  let total2 := experiment_total exp2 in
  let min_total := Z.min total1 total2 in
  n11 <- stratum (true_positive exp1) total1 min_total ;;
  n10 <- stratum (false_positive exp1) total1 min_total ;;
  n01 <- stratum (false_negative exp1) total1 min_total ;;
  n00 <- stratum (true_negative exp1) total1 min_total ;;
  Ok (repeat 1%Z n11 ++ repeat 1%Z n10 ++ repeat 0%Z n01 ++ repeat 0%Z n00,
      repeat 1%Z n11 ++ repeat 0%Z n10 ++ repeat 1%Z n01 ++ repeat 0%Z n00).

Definition comparison_key (exp1 exp2 : experiment) : string :=
  (name exp1 ++ " vs " ++ name exp2)%string.

(** The body of the inner loop: one pair. *)
Definition compare_pair (exp1 exp2 : experiment)
    (kappa_results : gmap string kappa_entry) : pyresult (gmap string kappa_entry) :=
  raters <- synthesize exp1 exp2 ;;
  kappa_result <- calculate_cohens_kappa (fst raters) (snd raters) (fdec 95 100) ;;
  Ok (<[comparison_key exp1 exp2 :=
          {| entry_kappa := kappa kappa_result;
             entry_ci_lower := confidence_interval_lower kappa_result;
             entry_ci_upper := confidence_interval_upper kappa_result;
             entry_confidence_level := confidence_level kappa_result;
             entry_standard_error := standard_error kappa_result;
             entry_interpretation := interpretation kappa_result |}]> kappa_results).

(** [for j, exp2 in enumerate(experiments[i+1:], i+1)]. *)
Fixpoint compare_with_rest (exp1 : experiment) (rest : list experiment)
    (kappa_results : gmap string kappa_entry) : pyresult (gmap string kappa_entry) :=
  match rest with
  | [] => Ok kappa_results
  | exp2 :: rest' =>
      kappa_results' <- compare_pair exp1 exp2 kappa_results ;;
      compare_with_rest exp1 rest' kappa_results'
  end.

(** [for i, exp1 in enumerate(experiments)]. *)
Fixpoint compare_all (experiments : list experiment)
    (kappa_results : gmap string kappa_entry) : pyresult (gmap string kappa_entry) :=
  match experiments with
  | [] => Ok kappa_results
  | exp1 :: rest =>
      kappa_results' <- compare_with_rest exp1 rest kappa_results ;;
      compare_all rest kappa_results'
  end.

(** What the handler answers: the results page with the kappa table, or a
    redirection to the analysis page with a flashed message. *)
Inductive response : Type :=
| Rendered (kappa_results : gmap string kappa_entry)
| Redirected (flash : string).

(** The handler, from the submitted identifiers and the experiments the
    query returns for them.  Any exception is caught by the handler's
    [except Exception].  Storing the study and rendering the page are outside
    the model. *)
Definition compare_techniques (experiment_ids : list Z) (experiments : list experiment)
  : response :=
  if (length experiment_ids <? 2)%nat
  then Redirected "Please select at least 2 experiments to compare"
  else if (length experiments <? 2)%nat
  then Redirected "Selected experiments not found"
  else
    match compare_all experiments ∅ with
    | Ok kappa_results => Rendered kappa_results
    | Raise _ => Redirected "Error performing technique comparison"
    end.

End Engine.

Arguments Rendered {F} kappa_results.
Arguments Redirected {F} flash.

(** ** The binary64 instance: the arithmetic of the running program *)

Module Binary64.

Set Warnings "-inexact-float".

(** [float(i)]: the integer rounded to the nearest binary64 number.  An
    integer beyond the binary64 range gives an infinity here, where Python
    raises [OverflowError]; no statement below uses integers of that size. *)
Definition of_Z (i : Z) : float := SF2Prim (binary_normalize prec emax i 0 false).

(** [a / b] on integers: the exact quotient rounded once. *)
Definition exact_integer (i : Z) : spec_float :=
  match i with
  | Z0 => S754_zero false
  | Zpos p => S754_finite false p 0
  | Zneg p => S754_finite true p 0
  end.

Definition truediv (a b : Z) : float := SF2Prim (SFdiv prec emax (exact_integer a) (exact_integer b)).

(** [int(x)]: truncation towards zero. *)
Definition trunc (x : float) : pyresult Z :=
  match Prim2SF x with
  | S754_nan => Raise (ValueError "cannot convert float NaN to integer")
  | S754_infinity _ => Raise (OverflowError "cannot convert float infinity to integer")
  | S754_zero _ => Ok 0%Z
  | S754_finite s m e =>
      let a := if (0 <=? e)%Z then (Zpos m * 2 ^ e)%Z else (Zpos m / 2 ^ (- e))%Z in
      Ok (if s then (- a)%Z else a)
  end.

#[global] Instance binary64 : FloatOps float := {|
  fint := of_Z;
  int_truediv := truediv;
  fadd := PrimFloat.add;
  fsub := PrimFloat.sub;
  fmul := PrimFloat.mul;
  fdiv := PrimFloat.div;
  fsqrt := PrimFloat.sqrt;
  flt := PrimFloat.ltb;
  feq := PrimFloat.eqb;
  finf := infinity;
  ftrunc := trunc
|}.

(** The value scipy gives for [norm.ppf(0.975)], the critical value of the
    default confidence level 0.95.  Other arguments are not tabulated. *)
Definition norm_ppf (q : float) : float :=
  if PrimFloat.eqb q 0.975 then 1.959963984540054%float else nan.

End Binary64.

(** ** The exact instance: the same operations without rounding

    A value is a real number, an infinity or nan.  The special values follow
    the IEEE rules; the sign of zero is not modelled (a zero divisor counts
    as [+0]).  Integers convert without rounding and nothing overflows. *)

Module Exact.

Inductive xreal : Type :=
| Fin (r : R)
| Inf (negative : bool)
| NaN.

Definition Rneg (a : R) : bool := if Rlt_dec a 0 then true else false.
Definition Rzero (a : R) : bool := if Req_dec_T a 0 then true else false.

Definition xopp (x : xreal) : xreal :=
  match x with
  | Fin a => Fin (- a)
  | Inf s => Inf (negb s)
  | NaN => NaN
  end.

Definition xadd (x y : xreal) : xreal :=
  match x, y with
  | NaN, _ | _, NaN => NaN
  | Fin a, Fin b => Fin (a + b)
  | Inf s, Fin _ | Fin _, Inf s => Inf s
  | Inf s, Inf t => if Bool.eqb s t then Inf s else NaN
  end.

Definition xsub (x y : xreal) : xreal := xadd x (xopp y).

Definition xmul (x y : xreal) : xreal :=
  match x, y with
  | NaN, _ | _, NaN => NaN
  | Fin a, Fin b => Fin (a * b)
  | Inf s, Fin a | Fin a, Inf s => if Rzero a then NaN else Inf (xorb s (Rneg a))
  | Inf s, Inf t => Inf (xorb s t)
  end.

Definition xdiv (x y : xreal) : xreal :=
  match x, y with
  | NaN, _ | _, NaN => NaN
  | Fin a, Fin b =>
      if Rzero b then (if Rzero a then NaN else Inf (Rneg a)) else Fin (a / b)
  | Fin _, Inf _ => Fin 0
  | Inf s, Fin b => Inf (xorb s (Rneg b))
  | Inf _, Inf _ => NaN
  end.

Definition xsqrt (x : xreal) : xreal :=
  match x with
  | Fin a => if Rneg a then NaN else Fin (R_sqrt.sqrt a)
  | Inf false => Inf false
  | Inf true => NaN
  | NaN => NaN
  end.

Definition xlt (x y : xreal) : bool :=
  match x, y with
  | NaN, _ | _, NaN => false
  | Fin a, Fin b => if Rlt_dec a b then true else false
  | Fin _, Inf t => negb t
  | Inf s, Fin _ => s
  | Inf s, Inf t => s && negb t
  end.

Definition xeq (x y : xreal) : bool :=
  match x, y with
  | Fin a, Fin b => if Req_dec_T a b then true else false
  | Inf s, Inf t => Bool.eqb s t
  | _, _ => false
  end.

Definition xtrunc (x : xreal) : pyresult Z :=
  match x with
  | Fin a => Ok (if Rneg a then Zceil a else Zfloor a)
  | Inf _ => Raise (OverflowError "cannot convert float infinity to integer")
  | NaN => Raise (ValueError "cannot convert float NaN to integer")
  end.

#[global] Instance exact : FloatOps xreal := {|
  fint := fun i => Fin (IZR i);
  int_truediv := fun a b => Fin (IZR a / IZR b);
  fadd := xadd;
  fsub := xsub;
  fmul := xmul;
  fdiv := xdiv;
  fsqrt := xsqrt;
  flt := xlt;
  feq := xeq;
  finf := Inf false;
  ftrunc := xtrunc
|}.

(** A stand-in for [norm.ppf] in examples: whatever the level, the critical
    value of the 95 % level, 1.959963984540054. *)
Definition critical_95 (q : xreal) : xreal :=
  Fin (1959963984540054 / 1000000000000000).

(** [x] is a real number between [lo] and [hi]. *)
Definition between (lo hi : R) (x : xreal) : Prop :=
  exists r : R, x = Fin r /\ (lo <= r <= hi)%R.

(** Order on finite values; false as soon as one side is not a number. *)
Definition xle (x y : xreal) : Prop :=
  match x, y with
  | Fin a, Fin b => (a <= b)%R
  | _, _ => False
  end.

End Exact.

(** * Definitions used in the statements *)

(** The exceptions a computation can raise all satisfy [P]. *)
Definition raises_only {A : Type} (P : pyexn -> Prop) (m : pyresult A) : Prop :=
  match m with
  | Ok _ => True
  | Raise e => P e
  end.

(** The errors of the arithmetic: a zero divisor, or [math.sqrt] of a negative
    number. *)
Definition arithmetic_error (e : pyexn) : Prop :=
  e = ZeroDivisionError \/ e = ValueError "math domain error".

(** The centre and the margin of the Wilson interval, over the reals. *)
Definition wilson_center (z : R) (x n : Z) : R :=
  (IZR x / IZR n + z * z / IZR (2 * n)) / (1 + z * z / IZR n).

Definition wilson_margin (z : R) (x n : Z) : R :=
  z * R_sqrt.sqrt ((IZR x / IZR n * (1 - IZR x / IZR n) + z * z / IZR (4 * n)) / IZR n)
  / (1 + z * z / IZR n).

(** A sufficient condition on the counts for the arrays built for the pair
    ([exp1], [exp2]) to be non-empty: one of the four counts of [exp1],
    scaled to the smaller total, reaches one observation. *)
Definition synthesis_nonempty (exp1 exp2 : experiment) : bool :=
  let total1 := experiment_total exp1 in
  let min_total := Z.min total1 (experiment_total exp2) in
  existsb (fun count => (total1 <=? count * min_total)%Z)
          [true_positive exp1; false_positive exp1;
           false_negative exp1; true_negative exp1].

(** Experiments for the examples. *)
Definition make_experiment (name : string) (tp fp tn fn : Z) : experiment :=
  {| name := name; true_positive := tp; false_positive := fp;
     true_negative := tn; false_negative := fn |}.


(** * The cost model ([utils/cost_analysis.py]) *)

(** The builtin [round(x, 2)] on a float: the value is rounded to a multiple
    of 0.01, ties to the even multiple, and the decimal result is converted
    back to the nearest float.  Infinities and nan are returned as they
    are. *)
Class RoundOps (F : Type) : Type := {
  fround2 : F -> F
}.

(** The quotient [num / den] rounded to the nearest integer, ties to even
    ([den] positive). *)
Definition round_half_even (num den : Z) : Z :=
  let q := (num / den)%Z in
  match (2 * (num mod den) ?= den)%Z with
  | Lt => q
  | Gt => (q + 1)%Z
  | Eq => if Z.even q then q else (q + 1)%Z
  end.

Definition binary64_round2 (x : float) : float :=
  match Prim2SF x with
  | S754_finite s m e =>
      let hundredths :=
        if (0 <=? e)%Z then (100 * Zpos m * 2 ^ e)%Z
        else round_half_even (100 * Zpos m) (2 ^ (- e)) in
      if (hundredths =? 0)%Z then (if s then (-0)%float else 0%float)
      else Binary64.truediv (if s then (- hundredths)%Z else hundredths) 100
  | _ => x
  end.

#[global] Instance binary64_round : RoundOps float := {| fround2 := binary64_round2 |}.

(** The same rounding of a real number. *)
Definition Rround_half_even (y : R) : Z :=
  let f := Zfloor y in
  let d := (y - IZR f)%R in
  if Rlt_dec d (1 / 2) then f
  else if Rlt_dec (1 / 2) d then (f + 1)%Z
  else if Z.even f then f else (f + 1)%Z.

Definition exact_round2 (x : Exact.xreal) : Exact.xreal :=
  match x with
  | Exact.Fin a => Exact.Fin (IZR (Rround_half_even (100 * a)) / 100)
  | _ => x
  end.

#[global] Instance exact_round : RoundOps Exact.xreal := {| fround2 := exact_round2 |}.

Section CostAnalysis.

Context {F : Type} `{FloatOps F} `{RoundOps F}.

(** One value of [TECHNIQUE_COSTS].  The two cost ranges and the temperature
    requirement, which no function below reads, are left out. *)
Record technique_costs : Type := {
  equipment_cost : Z;
  reagent_cost_per_test : F;
  maintenance_cost_annual : Z;
  power_consumption_watts : Z;
  throughput_samples_per_hour : Z;
  operator_skill_required : string;
  time_per_test_minutes : Z;
  multiplexing_capability : string;
  field_suitability : string
}.

Definition TECHNIQUE_COSTS : list (string * technique_costs) :=
  [ ("PCR",
     {| equipment_cost := 525000; reagent_cost_per_test := fdec 875 10;
        maintenance_cost_annual := 52500; power_consumption_watts := 800;
        throughput_samples_per_hour := 48; operator_skill_required := "Medium";
        time_per_test_minutes := 150; multiplexing_capability := "Good";
        field_suitability := "Poor" |});
    ("qPCR",
     {| equipment_cost := 1225000; reagent_cost_per_test := fdec 1925 10;
        maintenance_cost_annual := 122500; power_consumption_watts := 1500;
        throughput_samples_per_hour := 96; operator_skill_required := "High";
        time_per_test_minutes := 120; multiplexing_capability := "Excellent";
        field_suitability := "Poor" |});
    ("LAMP",
     {| equipment_cost := 87500; reagent_cost_per_test := fdec 1050 10;
        maintenance_cost_annual := 8750; power_consumption_watts := 50;
        throughput_samples_per_hour := 24; operator_skill_required := "Medium";
        time_per_test_minutes := 45; multiplexing_capability := "Limited";
        field_suitability := "Good" |});
    ("RPA",
     {| equipment_cost := 35000; reagent_cost_per_test := fdec 4025 10;
        maintenance_cost_annual := 3500; power_consumption_watts := 20;
        throughput_samples_per_hour := 12; operator_skill_required := "Low";
        time_per_test_minutes := 15; multiplexing_capability := "Good";
        field_suitability := "Excellent" |});
    ("NASBA",
     {| equipment_cost := 52500; reagent_cost_per_test := fdec 2975 10;
        maintenance_cost_annual := 10500; power_consumption_watts := 100;
        throughput_samples_per_hour := 16; operator_skill_required := "Medium";
        time_per_test_minutes := 90; multiplexing_capability := "Moderate";
        field_suitability := "Moderate" |});
    ("TMA",
     {| equipment_cost := 280000; reagent_cost_per_test := fdec 2450 10;
        maintenance_cost_annual := 14000; power_consumption_watts := 200;
        throughput_samples_per_hour := 20; operator_skill_required := "Medium";
        time_per_test_minutes := 60; multiplexing_capability := "Limited";
        field_suitability := "Good" |});
    ("HDA",
     {| equipment_cost := 3000; reagent_cost_per_test := fdec 45 10;
        maintenance_cost_annual := 200; power_consumption_watts := 80;
        throughput_samples_per_hour := 18; operator_skill_required := "Low";
        time_per_test_minutes := 75; multiplexing_capability := "Moderate";
        field_suitability := "Good" |});
    ("SDA",
     {| equipment_cost := 4000; reagent_cost_per_test := fdec 60 10;
        maintenance_cost_annual := 300; power_consumption_watts := 120;
        throughput_samples_per_hour := 15; operator_skill_required := "Medium";
        time_per_test_minutes := 120; multiplexing_capability := "Limited";
        field_suitability := "Moderate" |});
    ("NEAR",
     {| equipment_cost := 2500; reagent_cost_per_test := fdec 55 10;
        maintenance_cost_annual := 150; power_consumption_watts := 60;
        throughput_samples_per_hour := 12; operator_skill_required := "Low";
        time_per_test_minutes := 90; multiplexing_capability := "Limited";
        field_suitability := "Excellent" |}) ].

(** [d[key]] and [key in d] on a dictionary written as the list of its
    items. *)
Fixpoint dict_get {V : Type} (key : string) (d : list (string * V)) : option V :=
  match d with
  | [] => None
  | (k, v) :: rest => if String.eqb key k then Some v else dict_get key rest
  end.

Definition get_technique_costs (technique : string) : pyresult technique_costs :=
  match dict_get technique TECHNIQUE_COSTS with
  | None => Raise (ValueError ("Unknown technique: " ++ technique))
  | Some cost_data => Ok cost_data
  end.

(** The four parts of the cost of a study, as both [calculate_total_cost] and
    [compare_technique_costs] compute them. *)
Record cost_breakdown : Type := {
  equipment : F;
  reagents : F;
  maintenance : F;
  power : F
}.

Definition cost_parts (cost_data : technique_costs) (sample_count : Z)
    (study_duration_years : F) : cost_breakdown :=
  let equipment_annual_cost := int_truediv (equipment_cost cost_data) 5 in
  let equipment_cost_study := fmul equipment_annual_cost study_duration_years in
  let reagent_cost_total :=
    fmul (reagent_cost_per_test cost_data) (fint sample_count) in
  let maintenance_cost_study :=
    fmul (fint (maintenance_cost_annual cost_data)) study_duration_years in
  let power_cost_per_kwh := fdec 42 10 in
  let time_per_test_hours := int_truediv (time_per_test_minutes cost_data) 60 in
  let power_cost_total :=
    fmul (fmul (fmul (int_truediv (power_consumption_watts cost_data) 1000)
                     time_per_test_hours)
               (fint sample_count))
         power_cost_per_kwh in
  {| equipment := equipment_cost_study; reagents := reagent_cost_total;
     maintenance := maintenance_cost_study; power := power_cost_total |}.

Definition calculate_total_cost (technique : string) (sample_count : Z)
    (study_duration_years : F) : pyresult F :=
  cost_data <- get_technique_costs technique ;;
  let parts := cost_parts cost_data sample_count study_duration_years in
  let total_cost :=
    fadd (fadd (fadd (equipment parts) (reagents parts)) (maintenance parts))
         (power parts) in
  Ok (fround2 total_cost).

Record performance_metrics : Type := {
  time_per_test : Z;
  throughput_per_hour : Z;
  metrics_field_suitability : string;
  operator_skill : string
}.

Record technique_comparison : Type := {
  total_cost : F;
  cost_per_sample : F;
  comparison_cost_breakdown : cost_breakdown;
  comparison_performance_metrics : performance_metrics
}.

(** The body of the loop of [compare_technique_costs]. *)
Definition compare_technique_costs_step (sample_count : Z) (study_duration_years : F)
    (comparison : gmap string technique_comparison) (technique : string)
  : pyresult (gmap string technique_comparison) :=
  match dict_get technique TECHNIQUE_COSTS with
  | None => Ok comparison
  | Some _ =>
      cost_data <- get_technique_costs technique ;;
      total_cost <- calculate_total_cost technique sample_count study_duration_years ;;
      cost_per_sample <-
        (if (0 <? sample_count)%Z then py_div total_cost (fint sample_count)
         else Ok (fint 0)) ;;
      Ok (<[technique :=
              {| total_cost := total_cost;
                 cost_per_sample := cost_per_sample;
                 comparison_cost_breakdown :=
                   cost_parts cost_data sample_count study_duration_years;
                 comparison_performance_metrics :=
                   {| time_per_test := time_per_test_minutes cost_data;
                      throughput_per_hour := throughput_samples_per_hour cost_data;
                      metrics_field_suitability := field_suitability cost_data;
                      operator_skill := operator_skill_required cost_data |} |}]>
            comparison)
  end.

Fixpoint compare_technique_costs_loop (techniques : list string) (sample_count : Z)
    (study_duration_years : F) (comparison : gmap string technique_comparison)
  : pyresult (gmap string technique_comparison) :=
  match techniques with
  | [] => Ok comparison
  | technique :: rest =>
      comparison' <-
        compare_technique_costs_step sample_count study_duration_years
          comparison technique ;;
      compare_technique_costs_loop rest sample_count study_duration_years comparison'
  end.

Definition compare_technique_costs (techniques : list string) (sample_count : Z)
    (study_duration_years : F) : pyresult (gmap string technique_comparison) :=
  compare_technique_costs_loop techniques sample_count study_duration_years ∅.

End CostAnalysis.

(** * The other handlers ([routes.py]) *)

Section Handlers.

Context {F : Type} `{FloatOps F} `{RoundOps F}.
Variable norm_ppf : F -> F.

(** The builtins [int(s)] and [float(s)] on a submitted string. *)
Variable py_int : string -> pyresult Z.
Variable py_float : string -> pyresult F.

(** A row of the table of experiments ([models.Experiment]).  The primary
    key and the creation time, which the database sets, are left out; the
    statistics are kept as the dictionary that [set_statistics] serializes. *)
Record experiment_row : Type := {
  row_name : string;
  row_description : string;
  row_technique : string;
  row_true_positive : Z;
  row_false_positive : Z;
  row_true_negative : Z;
  row_false_negative : Z;
  row_confidence_level : F;
  row_reagent_cost : F;
  row_equipment_cost : Z;
  row_total_cost : F;
  row_statistics : @diagnostic_stats F
}.

Inductive endpoint : Type :=
| endpoint_data_input
| endpoint_view_experiment
| endpoint_analysis.

(** [flash(message, category)] followed by [redirect(url_for(target))]. *)
Record redirection : Type := {
  flash_message : string;
  flash_category : string;
  target : endpoint
}.

Definition double_quote : string := String (Ascii.ascii_of_nat 34) EmptyString.

(** [int(request.form.get(key, 0))] and [float(request.form.get(key, d))]. *)
Definition form_int (form : gmap string string) (key : string) : pyresult Z :=
  match form !! key with
  | Some text => py_int text
  | None => Ok 0%Z
  end.

Definition form_float (form : gmap string string) (key : string) (default : F)
  : pyresult F :=
  match form !! key with
  | Some text => py_float text
  | None => Ok default
  end.

(** [not name]: the field is missing or empty. *)
Definition falsy (field : option string) : bool :=
  match field with
  | Some text => String.eqb text ""
  | None => true
  end.

(** The body of the [try] of [submit_experiment], on the submitted form and
    the rows of the table; it returns the answer and the rows after the
    commit. *)
Definition submit_experiment_body (form : gmap string string)
    (rows : list experiment_row) : pyresult (redirection * list experiment_row) :=
  let name := form !! "name" in
  let description := default "" (form !! "description") in
  let technique := form !! "technique" in
  confidence_level <- form_float form "confidence_level" (fdec 95 100) ;;
  tp <- form_int form "true_positive" ;;
  fp <- form_int form "false_positive" ;;
  tn <- form_int form "true_negative" ;;
  fn <- form_int form "false_negative" ;;
  if falsy name || falsy technique then
    Ok ({| flash_message := "Name and technique are required";
           flash_category := "error"; target := endpoint_data_input |}, rows)
  else if (tp + fp + tn + fn =? 0)%Z then
    Ok ({| flash_message :=
             "At least one confusion matrix value must be greater than 0";
           flash_category := "error"; target := endpoint_data_input |}, rows)
  else
    let name := default "" name in
    let technique := default "" technique in
    stats <- calculate_diagnostic_stats norm_ppf tp fp tn fn confidence_level ;;
    cost_data <- get_technique_costs technique ;;
    total_cost <- calculate_total_cost technique (tp + fp + tn + fn) (fint 1) ;;
    let experiment :=
      {| row_name := name; row_description := description;
         row_technique := technique;
         row_true_positive := tp; row_false_positive := fp;
         row_true_negative := tn; row_false_negative := fn;
         row_confidence_level := confidence_level;
         row_reagent_cost := reagent_cost_per_test cost_data;
         row_equipment_cost := equipment_cost cost_data;
         row_total_cost := total_cost;
         row_statistics := stats |} in
    Ok ({| flash_message :=
             "Experiment " ++ double_quote ++ name ++ double_quote
             ++ " created successfully!";
           flash_category := "success"; target := endpoint_view_experiment |},
        rows ++ [experiment]).

(** The handler: any exception of the body is caught. *)
Definition submit_experiment (form : gmap string string) (rows : list experiment_row)
  : redirection * list experiment_row :=
  match submit_experiment_body form rows with
  | Ok answer => answer
  | Raise _ =>
      ({| flash_message := "Error processing experiment data";
          flash_category := "error"; target := endpoint_data_input |}, rows)
  end.

(** One dictionary of the list that [process_uploaded_file] returns. *)
Record experiment_data : Type := {
  data_name : string;
  data_description : string;
  data_technique : string;
  data_tp : Z;
  data_fp : Z;
  data_tn : Z;
  data_fn : Z
}.

(** The body of the inner [try] of [upload_file]: the row made from one
    dictionary. *)
Definition experiment_from_data (exp_data : experiment_data) : pyresult experiment_row :=
  stats <- calculate_diagnostic_stats norm_ppf (data_tp exp_data) (data_fp exp_data)
             (data_tn exp_data) (data_fn exp_data) (fdec 95 100) ;;
  cost_data <- get_technique_costs (data_technique exp_data) ;;
  let total_samples :=
    (data_tp exp_data + data_fp exp_data + data_tn exp_data + data_fn exp_data)%Z in
  total_cost <- calculate_total_cost (data_technique exp_data) total_samples (fint 1) ;;
  Ok {| row_name := data_name exp_data;
        row_description := data_description exp_data;
        row_technique := data_technique exp_data;
        row_true_positive := data_tp exp_data;
        row_false_positive := data_fp exp_data;
        row_true_negative := data_tn exp_data;
        row_false_negative := data_fn exp_data;
        row_confidence_level := fdec 95 100;
        row_reagent_cost := reagent_cost_per_test cost_data;
        row_equipment_cost := equipment_cost cost_data;
        row_total_cost := total_cost;
        row_statistics := stats |}.

(** The loop of [upload_file]: a dictionary whose row cannot be made is
    skipped. *)
Fixpoint create_experiments (experiments_data : list experiment_data)
    (created_count : nat) (rows : list experiment_row) : nat * list experiment_row :=
  match experiments_data with
  | [] => (created_count, rows)
  | exp_data :: rest =>
      match experiment_from_data exp_data with
      | Ok experiment => create_experiments rest (S created_count) (rows ++ [experiment])
      | Raise _ => create_experiments rest created_count rows
      end
  end.

(** The handler [upload_file], from the name of the uploaded file, if there
    is one, and the outcome of [process_uploaded_file] on it. *)
Definition upload_file (filename : option string)
    (processed : pyresult (list experiment_data)) (rows : list experiment_row)
  : redirection * list experiment_row :=
  let no_file :=
    ({| flash_message := "No file selected"; flash_category := "error";
        target := endpoint_data_input |}, rows) in
  match filename with
  | None => no_file
  | Some text =>
      if String.eqb text "" then no_file
      else
        match processed with
        | Raise _ =>
            ({| flash_message := "Error processing uploaded file";
                flash_category := "error"; target := endpoint_data_input |}, rows)
        | Ok [] =>
            ({| flash_message := "No valid data found in file";
                flash_category := "error"; target := endpoint_data_input |}, rows)
        | Ok experiments_data =>
            let '(created_count, rows') := create_experiments experiments_data 0 rows in
            ({| flash_message :=
                  "Successfully created " ++ pretty created_count
                  ++ " experiments from file";
                flash_category := "success"; target := endpoint_analysis |}, rows')
        end
  end.

(** The grouping loop of [analysis] and of [cost_comparison]:
    [techniques[exp.technique].append(exp)], after the key has been given an
    empty list if it was missing. *)
Definition group_step (techniques : gmap string (list experiment_row))
    (exp : experiment_row) : gmap string (list experiment_row) :=
  let techniques :=
    match techniques !! row_technique exp with
    | None => <[row_technique exp := []]> techniques
    | Some _ => techniques
    end in
  <[row_technique exp := default [] (techniques !! row_technique exp) ++ [exp]]>
    techniques.

Definition group_by_technique (experiments : list experiment_row)
  : gmap string (list experiment_row) :=
  fold_left group_step experiments ∅.

(** [cost_comparison]: the cost data of the nine techniques and the
    experiments grouped by technique. *)
Definition cost_comparison (experiments : list experiment_row)
  : pyresult (gmap string (@technique_costs F) * gmap string (list experiment_row)) :=
  let techniques :=
    ["PCR"; "qPCR"; "LAMP"; "RPA"; "NASBA"; "TMA"; "HDA"; "SDA"; "NEAR"] in
  cost_data <-
    fold_left (fun cost_data technique =>
                 cost_data <- cost_data ;;
                 costs <- get_technique_costs technique ;;
                 Ok (<[technique := costs]> cost_data))
              techniques (Ok ∅) ;;
  Ok (cost_data, group_by_technique experiments).

End Handlers.

(** * Validation of confusion matrices ([utils/file_processing.py]) *)

Section Validation.

Context {F : Type} `{FloatOps F}.

(** The format [f"{ratio:.1f}"] of a float. *)
Variable format_1f : F -> string.

Record validation : Type := {
  errors : list string;
  warnings : list string;
  is_valid : bool
}.

Definition validate_confusion_matrix_data (tp fp tn fn : Z) : validation :=
  let warnings : list string := [] in
  let errors : list string := [] in
  let errors :=
    if existsb (fun val => (val <? 0)%Z) [tp; fp; tn; fn]
    then errors ++ ["All confusion matrix values must be non-negative"]
    else errors in
  let total := (tp + fp + tn + fn)%Z in
  let errors :=
    if (total =? 0)%Z
    then errors ++ ["At least one confusion matrix value must be greater than zero"]
    else errors in
  let warnings :=
    if (0 <? total)%Z then
      let warnings :=
        if (total <? 10)%Z
        then warnings
             ++ [("Small sample size (n=" ++ pretty total
                  ++ ") may lead to unreliable statistical estimates")%string]
        else warnings in
      let positive_count := (tp + fn)%Z in
      let negative_count := (fp + tn)%Z in
      let warnings :=
        if (positive_count =? 0)%Z
        then warnings ++ ["No positive cases in the dataset"]
        else if (negative_count =? 0)%Z
        then warnings ++ ["No negative cases in the dataset"]
        else warnings in
      let warnings :=
        if (0 <? positive_count)%Z && (0 <? negative_count)%Z then
          let ratio :=
            int_truediv (Z.max positive_count negative_count)
                        (Z.min positive_count negative_count) in
          if flt (fint 10) ratio
          then warnings
               ++ [("Highly imbalanced dataset (ratio: " ++ format_1f ratio
                    ++ ":1)")%string]
          else warnings
        else warnings in
      let warnings :=
        if (fp =? 0)%Z && (fn =? 0)%Z
        then warnings ++ ["Perfect classification detected - verify data accuracy"]
        else warnings in
      let warnings :=
        if (tp =? 0)%Z && (tn =? 0)%Z
        then warnings
             ++ ["No correct classifications detected - verify data accuracy"]
        else warnings in
      warnings
    else warnings in
  {| errors := errors; warnings := warnings;
     is_valid := (length errors =? 0)%nat |}.

(** One element of [invalid_experiments]. *)
Record invalid_experiment : Type := {
  invalid_data : experiment_data;
  invalid_errors : list string
}.

Record batch_validation : Type := {
  valid_count : nat;
  invalid_count : nat;
  valid_experiments : list experiment_data;
  invalid_experiments : list invalid_experiment;
  batch_warnings : list string;
  success_rate : F
}.

(** The loop of [batch_validate_experiments], from index [i] on. *)
Fixpoint batch_validate_loop (i : nat) (experiments_data : list experiment_data)
    (valid_experiments : list experiment_data)
    (invalid_experiments : list invalid_experiment) (warnings_summary : list string)
  : list experiment_data * list invalid_experiment * list string :=
  match experiments_data with
  | [] => (valid_experiments, invalid_experiments, warnings_summary)
  | exp_data :: rest =>
      let validation :=
        validate_confusion_matrix_data (data_tp exp_data) (data_fp exp_data)
          (data_tn exp_data) (data_fn exp_data) in
      if is_valid validation then
        batch_validate_loop (S i) rest (valid_experiments ++ [exp_data])
          invalid_experiments
          (warnings_summary
           ++ map (fun w => ("Experiment " ++ pretty (i + 1)%nat ++ ": " ++ w)%string)
                  (warnings validation))
      else
        batch_validate_loop (S i) rest valid_experiments
          (invalid_experiments
           ++ [{| invalid_data := exp_data; invalid_errors := errors validation |}])
          warnings_summary
  end.

Definition batch_validate_experiments (experiments_data : list experiment_data)
  : batch_validation :=
  let '(valid_experiments, invalid_experiments, warnings_summary) :=
    batch_validate_loop 0 experiments_data [] [] [] in
  {| valid_count := length valid_experiments;
     invalid_count := length invalid_experiments;
     valid_experiments := valid_experiments;
     invalid_experiments := invalid_experiments;
     batch_warnings := warnings_summary;
     success_rate :=
       match experiments_data with
       | [] => fint 0
       | _ => int_truediv (Z.of_nat (length valid_experiments))
                          (Z.of_nat (length experiments_data))
       end |}.

End Validation.
(** * Properties *)

(** ** Which exceptions a computation can raise *)

Lemma raises_only_bind {A B : Type} (P : pyexn -> Prop) (m : pyresult A)
    (k : A -> pyresult B) :
  raises_only P m -> (forall a, raises_only P (k a)) -> raises_only P (bind m k).
Proof.
  destruct m as [a | e]; simpl; intros Hm Hk; [apply Hk | exact Hm].
Qed.

Lemma raises_only_Ok {A : Type} (P : pyexn -> Prop) (a : A) : raises_only P (Ok a).
Proof. exact I. Qed.

Section Raising.

Context {F : Type} `{FloatOps F}.
Variable norm_ppf : F -> F.

Lemma int_div_raises (a b : Z) : raises_only arithmetic_error (int_div a b).
Proof. unfold int_div. destruct (b =? 0)%Z; simpl; [left; reflexivity | exact I]. Qed.

Lemma py_div_raises (x y : F) : raises_only arithmetic_error (py_div x y).
Proof. unfold py_div. destruct (feq y (fint 0)); simpl; [left; reflexivity | exact I]. Qed.

Lemma math_sqrt_raises (x : F) : raises_only arithmetic_error (math_sqrt x).
Proof.
  unfold math_sqrt. destruct (flt x (fint 0)); simpl; [right; reflexivity | exact I].
Qed.

Create HintDb raising.

#[local] Hint Resolve int_div_raises py_div_raises math_sqrt_raises
  raises_only_Ok : raising.

Ltac raising_step :=
  match goal with
  | |- raises_only _ (bind _ _) => apply raises_only_bind; [| intros ?]
  | |- raises_only _ (if ?c then _ else _) => destruct c
  | |- raises_only _ _ => solve [auto with raising]
  end.

Lemma wilson_ci_raises (c : F) (x n : Z) :
  raises_only arithmetic_error (wilson_ci norm_ppf c x n).
Proof. unfold wilson_ci. repeat raising_step. Qed.

Lemma kappa_self_consistency_raises (tp fp tn fn : Z) (c : F) :
  raises_only arithmetic_error (kappa_self_consistency norm_ppf tp fp tn fn c).
Proof. unfold kappa_self_consistency. repeat raising_step. Qed.

End Raising.

Lemma validation_message_distinct : ~ arithmetic_error (ValueError validation_message).
Proof. intros [Hd | Hd]; discriminate Hd. Qed.



(** C3: a method other than the three known ones is not detected when the
    call starts; the function fails when it builds its result, with
    [UnboundLocalError] and not with a validation error. *)
Theorem unknown_method_unbound_local {F : Type} `{FloatOps F} (p_values : list F)
    (method : string) :
  method <> "bonferroni"%string -> method <> "holm"%string -> method <> "fdr_bh"%string ->
  calculate_multiple_comparisons_correction p_values method
    = Raise (UnboundLocalError "corrected").
Proof.
  intros Hb Hh Hf. unfold calculate_multiple_comparisons_correction.
  apply String.eqb_neq in Hb, Hh, Hf. rewrite Hb, Hh, Hf. reflexivity.
Qed.

Lemma unknown_method_unbound_local_witness :
  calculate_multiple_comparisons_correction (F := float)
    [fdec 1 100; fdec 2 100; fdec 3 100] "sidak"
    = Raise (UnboundLocalError "corrected").
Proof.
  apply (unknown_method_unbound_local (F := float)); discriminate.
Defined.

(** ** Reading a successful result back *)

Ltac bind_inv H :=
  repeat match type of H with
  | bind ?m _ = Ok _ =>
      let a := fresh "a" in
      let E := fresh "E" in
      destruct m as [a |] eqn:E; cbn [bind] in H; [| discriminate H]
  end.

Lemma calculate_diagnostic_stats_Ok_inv {F : Type} `{FloatOps F} (norm_ppf : F -> F)
    (tp fp tn fn : Z) (c : F) (r : diagnostic_stats) :
  calculate_diagnostic_stats norm_ppf tp fp tn fn c = Ok r ->
  (tp + fp + tn + fn <> 0)%Z /\
  (if (0 <? tp + fn)%Z then int_div tp (tp + fn) else Ok (fint 0))
    = Ok (value (sensitivity r)) /\
  (if (0 <? tn + fp)%Z then int_div tn (tn + fp) else Ok (fint 0))
    = Ok (value (specificity r)) /\
  (if (0 <? tp + fp)%Z then int_div tp (tp + fp) else Ok (fint 0))
    = Ok (value (ppv r)) /\
  (if (0 <? tn + fn)%Z then int_div tn (tn + fn) else Ok (fint 0))
    = Ok (value (npv r)) /\
  int_div (tp + tn) (tp + fp + tn + fn) = Ok (value (accuracy r)) /\
  int_div (tp + fn) (tp + fp + tn + fn) = Ok (prevalence_value r) /\
  (exists den,
     math_sqrt (fint ((tp + fp) * (tp + fn) * (tn + fp) * (tn + fn))) = Ok den /\
     (if flt (fint 0) den then py_div (fint (tp * tn - fp * fn)) den else Ok (fint 0))
       = Ok (mcc r)) /\
  wilson_ci norm_ppf c tp (tp + fn)
    = Ok (ci_lower (sensitivity r), ci_upper (sensitivity r)) /\
  wilson_ci norm_ppf c tn (tn + fp)
    = Ok (ci_lower (specificity r), ci_upper (specificity r)) /\
  wilson_ci norm_ppf c tp (tp + fp) = Ok (ci_lower (ppv r), ci_upper (ppv r)) /\
  wilson_ci norm_ppf c tn (tn + fn) = Ok (ci_lower (npv r), ci_upper (npv r)) /\
  wilson_ci norm_ppf c (tp + tn) (tp + fp + tn + fn)
    = Ok (ci_lower (accuracy r), ci_upper (accuracy r)) /\
  kappa_self_consistency norm_ppf tp fp tn fn c = Ok (cohens_kappa r).
Proof.
  unfold calculate_diagnostic_stats. intros Hr.
  destruct (Z.eqb_spec (tp + fp + tn + fn) 0) as [Hz | Hz]. { discriminate Hr. }
  bind_inv Hr. injection Hr as <-. cbn.
  repeat match goal with
         | a : (F * F)%type |- _ => destruct a
         end.
  cbn. repeat split; try assumption.
  eexists; split; [reflexivity | eassumption].
Qed.

(** ** The exact instance *)

Import Exact.
Local Open Scope R_scope.

Lemma Rzero_false (b : R) : b <> 0 -> Rzero b = false.
Proof. intros Hb. unfold Rzero. destruct (Req_dec_T b 0); [contradiction | reflexivity]. Qed.

Lemma Rneg_false (b : R) : 0 <= b -> Rneg b = false.
Proof. intros Hb. unfold Rneg. destruct (Rlt_dec b 0); [lra | reflexivity]. Qed.

Lemma xadd_Fin (a b : R) : xadd (Fin a) (Fin b) = Fin (a + b).
Proof. reflexivity. Qed.

Lemma xsub_Fin (a b : R) : xsub (Fin a) (Fin b) = Fin (a - b).
Proof. reflexivity. Qed.

Lemma xmul_Fin (a b : R) : xmul (Fin a) (Fin b) = Fin (a * b).
Proof. reflexivity. Qed.

Lemma xdiv_Fin (a b : R) : b <> 0 -> xdiv (Fin a) (Fin b) = Fin (a / b).
Proof. intros Hb. unfold xdiv. rewrite (Rzero_false b Hb). reflexivity. Qed.

Lemma xsqrt_Fin (a : R) : 0 <= a -> xsqrt (Fin a) = Fin (R_sqrt.sqrt a).
Proof. intros Ha. unfold xsqrt. rewrite (Rneg_false a Ha). reflexivity. Qed.

Lemma xlt_Fin_true (a b : R) : a < b -> xlt (Fin a) (Fin b) = true.
Proof. intros Hab. unfold xlt. destruct (Rlt_dec a b); [reflexivity | contradiction]. Qed.

Lemma xlt_Fin_false (a b : R) : b <= a -> xlt (Fin a) (Fin b) = false.
Proof. intros Hab. unfold xlt. destruct (Rlt_dec a b); [lra | reflexivity]. Qed.

Lemma xlt_Fin_spec (a b : R) : xlt (Fin a) (Fin b) = true <-> a < b.
Proof. unfold xlt. destruct (Rlt_dec a b); split; intros; try discriminate; auto; contradiction. Qed.

Lemma xeq_Fin_spec (a b : R) : xeq (Fin a) (Fin b) = true <-> a = b.
Proof. unfold xeq. destruct (Req_dec_T a b); split; intros; try discriminate; auto; contradiction. Qed.

(** The Wilson interval in the reals. *)
Lemma wilson_interval_contains (z p n : R) :
  0 < n -> 0 <= p <= 1 -> 0 <= z ->
  let D := 1 + z * z / n in
  let C := (p + z * z / (2 * n)) / D in
  let M := z * R_sqrt.sqrt ((p * (1 - p) + z * z / (4 * n)) / n) / D in
  C - M <= p <= C + M.
Proof.
  intros Hn Hp Hz D C M.
  set (rad := (p * (1 - p) + z * z / (4 * n)) / n) in *.
  assert (Hrad : 0 <= rad).
  { unfold rad. apply Rmult_le_pos; [| left; apply Rinv_0_lt_compat; exact Hn].
    apply Rplus_le_le_0_compat; [nra |].
    apply Rmult_le_pos; [nra | left; apply Rinv_0_lt_compat; lra]. }
  pose proof (sqrt_pos rad) as Hs.
  pose proof (sqrt_def rad Hrad) as Hss.
  set (s := R_sqrt.sqrt rad) in *.
  assert (HD : 0 < D).
  { unfold D. assert (0 <= z * z / n); [| lra].
    apply Rmult_le_pos; [nra | left; apply Rinv_0_lt_compat; exact Hn]. }
  set (t := z * z / n * (p - 1 / 2)).
  assert (Ht : t * t <= (z * s) * (z * s)).
  { replace ((z * s) * (z * s)) with (z * z * rad) by (rewrite <- Hss; ring).
    assert (Hdiff : z * z * rad - t * t
                    = z * z * (p * (1 - p)) / n + z * z * (z * z) * (p * (1 - p)) / (n * n)).
    { unfold rad, t. field. lra. }
    assert (0 <= z * z * (p * (1 - p)) / n).
    { apply Rmult_le_pos; [| left; apply Rinv_0_lt_compat; exact Hn]. 
      apply Rmult_le_pos; nra. }
    assert (0 <= z * z * (z * z) * (p * (1 - p)) / (n * n)).
    { apply Rmult_le_pos; [| left; apply Rinv_0_lt_compat; nra].
      repeat apply Rmult_le_pos; nra. }
    lra. }
  assert (Hzs : 0 <= z * s) by (apply Rmult_le_pos; assumption).
  assert (Habs : - (z * s) <= t <= z * s) by nra.
  assert (HC : C - M = p - (t + z * s) / D).
  { unfold C, M, t, D. fold rad. fold s. field. split; [lra |].
    fold D. assert (n + z * z > 0) by nra. lra. }
  assert (HC' : C + M = p + (z * s - t) / D).
  { unfold C, M, t, D. fold rad. fold s. field. split; [lra |].
    assert (n + z * z > 0) by nra. lra. }
  rewrite HC, HC'.
  assert (0 <= (t + z * s) / D).
  { apply Rmult_le_pos; [lra | left; apply Rinv_0_lt_compat; exact HD]. }
  assert (0 <= (z * s - t) / D).
  { apply Rmult_le_pos; [lra | left; apply Rinv_0_lt_compat; exact HD]. }
  lra.
Qed.

Ltac xnorm :=
  cbn [fint int_truediv fadd fsub fmul fdiv fsqrt flt feq finf ftrunc exact] in *.

Lemma int_div_exact (a b : Z) :
  b <> 0%Z -> int_div a b = Ok (Fin (IZR a / IZR b)).
Proof.
  intros Hb. unfold int_div. destruct (Z.eqb_spec b 0); [contradiction | reflexivity].
Qed.

Section ExactStatistics.
Variable norm_ppf : xreal -> xreal.

Lemma wilson_radicand_nonneg (z : R) (x n : Z) :
  (0 <= x <= n)%Z -> (0 < n)%Z ->
  0 <= (IZR x / IZR n * (1 - IZR x / IZR n) + z * z / IZR (4 * n)) / IZR n.
Proof.
  intros Hx Hn.
  assert (Hn' : 0 < IZR n) by (apply IZR_lt; exact Hn).
  assert (H4n : 0 < IZR (4 * n)) by (apply IZR_lt; lia).
  assert (Hp : 0 <= IZR x / IZR n <= 1).
  { assert (0 <= IZR x) by (apply IZR_le; lia).
    assert (IZR x <= IZR n) by (apply IZR_le; lia).
    split.
    - apply Rmult_le_pos; [assumption | left; apply Rinv_0_lt_compat; assumption].
    - apply Rmult_le_reg_r with (IZR n); [assumption |].
      unfold Rdiv. rewrite Rmult_assoc, Rinv_l by lra. lra. }
  apply Rmult_le_pos; [| left; apply Rinv_0_lt_compat; assumption].
  apply Rplus_le_le_0_compat; [nra |].
  apply Rmult_le_pos; [nra | left; apply Rinv_0_lt_compat; assumption].
Qed.

Lemma wilson_denominator_pos (z : R) (n : Z) : (0 < n)%Z -> 0 < 1 + z * z / IZR n.
Proof.
  intros Hn. assert (Hn' : 0 < IZR n) by (apply IZR_lt; exact Hn).
  assert (0 <= z * z / IZR n); [| lra].
  apply Rmult_le_pos; [nra | left; apply Rinv_0_lt_compat; assumption].
Qed.

Lemma wilson_ci_Fin (c : xreal) (z : R) (x n : Z) :
  z_critical norm_ppf c = Fin z -> (0 <= x <= n)%Z -> (0 < n)%Z ->
  wilson_ci norm_ppf c x n
  = Ok (py_max (Fin 0) (Fin (wilson_center z x n - wilson_margin z x n)),
        py_min (Fin 1) (Fin (wilson_center z x n + wilson_margin z x n))).
Proof.
  intros Hz Hx Hn. unfold wilson_ci.
  destruct (Z.eqb_spec n 0) as [Hn0 | Hn0]; [lia |].
  rewrite Hz, (int_div_exact x n Hn0). cbn [bind]. unfold math_sqrt. xnorm.
  assert (Hn' : IZR n <> 0) by (apply not_0_IZR; exact Hn0).
  assert (H2n : IZR (2 * n) <> 0) by (apply not_0_IZR; lia).
  assert (H4n : IZR (4 * n) <> 0) by (apply not_0_IZR; lia).
  pose proof (wilson_denominator_pos z n Hn) as HD.
  pose proof (wilson_radicand_nonneg z x n Hx Hn) as Hrad.
  rewrite !xmul_Fin, !xsub_Fin.
  rewrite (xdiv_Fin _ _ H4n), (xdiv_Fin _ _ H2n), !(xdiv_Fin _ _ Hn').
  rewrite !xmul_Fin, !xadd_Fin, !(xdiv_Fin _ _ Hn').
  rewrite (xlt_Fin_false _ _ Hrad). cbn [bind].
  rewrite (xsqrt_Fin _ Hrad), xmul_Fin.
  rewrite !xdiv_Fin by lra.
  rewrite xsub_Fin, xadd_Fin. reflexivity.
Qed.

Lemma wilson_ci_total (c : xreal) (x n : Z) :
  (0 <= x <= n)%Z -> exists ci, wilson_ci norm_ppf c x n = Ok ci.
Proof.
  intros Hx. destruct (Z.eq_dec n 0%Z) as [Hn0 | Hn0].
  { unfold wilson_ci. subst n. cbn. eauto. }
  assert (Hn : (0 < n)%Z) by lia.
  destruct (z_critical norm_ppf c) as [z | s |] eqn:Hz.
  - rewrite (wilson_ci_Fin c z x n Hz Hx Hn). eauto.
  - unfold wilson_ci. destruct (Z.eqb_spec n 0%Z) as [| _]; [contradiction |].
    rewrite Hz, (int_div_exact x n Hn0). cbn [bind]. unfold math_sqrt. xnorm.
    assert (H4 : Rneg (IZR (4 * n)) = false) by (apply Rneg_false, IZR_le; lia).
    assert (H1 : Rneg (IZR n) = false) by (apply Rneg_false, IZR_le; lia).
    destruct s; cbn [xmul xdiv xadd xsub xopp xorb xlt]; rewrite ?H4, ?H1;
      cbn [xmul xdiv xadd xsub xopp xorb xlt]; rewrite ?H1; cbn; eauto.
  - unfold wilson_ci. destruct (Z.eqb_spec n 0%Z) as [| _]; [contradiction |].
    rewrite Hz, (int_div_exact x n Hn0). cbn [bind]. unfold math_sqrt. xnorm.
    cbn. eauto.
Qed.

Lemma ratio_exact (a b : Z) :
  exists v, (if (0 <? b)%Z then int_div a b else Ok (fint 0)) = Ok (Fin v)
            /\ ((0 <= a <= b)%Z -> 0 <= v <= 1)
            /\ ((0 < b)%Z -> v = IZR a / IZR b)
            /\ ((b <= 0)%Z -> v = 0).
Proof.
  destruct (Z.ltb_spec 0%Z b) as [Hb | Hb].
  - exists (IZR a / IZR b). rewrite int_div_exact by lia.
    split; [reflexivity |]. split; [| split; [reflexivity | lia]].
    intros Ha. assert (0 < IZR b) by (apply IZR_lt; lia).
    assert (0 <= IZR a) by (apply IZR_le; lia).
    assert (IZR a <= IZR b) by (apply IZR_le; lia).
    split.
    + apply Rmult_le_pos; [assumption | left; apply Rinv_0_lt_compat; assumption].
    + apply Rmult_le_reg_r with (IZR b); [assumption |].
      unfold Rdiv. rewrite Rmult_assoc, Rinv_l by lra. lra.
  - exists 0. split; [reflexivity |]. split; [lra |]. split; [lia | reflexivity].
Qed.

Lemma guarded_div_total (x y d : xreal) :
  exists w, (if flt (fint 0) y then py_div x y else Ok d) = Ok w.
Proof.
  destruct (flt (fint 0) y) eqn:Hlt; [| eauto].
  unfold py_div. destruct (feq y (fint 0)) eqn:Heq; [| eauto].
  exfalso. xnorm. destruct y as [b | s |]; try discriminate Heq.
  apply xlt_Fin_spec in Hlt. apply xeq_Fin_spec in Heq. lra.
Qed.

Lemma math_sqrt_exact (a : R) : 0 <= a -> math_sqrt (Fin a) = Ok (Fin (R_sqrt.sqrt a)).
Proof.
  intros Ha. unfold math_sqrt. xnorm. rewrite (xlt_Fin_false _ _ Ha), (xsqrt_Fin _ Ha).
  reflexivity.
Qed.

Lemma py_div_exact (a b : R) : b <> 0 -> py_div (Fin a) (Fin b) = Ok (Fin (a / b)).
Proof.
  intros Hb. unfold py_div. xnorm.
  destruct (xeq (Fin b) (Fin 0)) eqn:Heq.
  - apply xeq_Fin_spec in Heq. contradiction.
  - rewrite (xdiv_Fin _ _ Hb). reflexivity.
Qed.

Lemma expected_agreement_bounds (tp fp tn fn : Z) :
  (0 <= tp)%Z -> (0 <= fp)%Z -> (0 <= tn)%Z -> (0 <= fn)%Z ->
  (0 < tp + fp + tn + fn)%Z ->
  0 <= IZR ((tp + fn) * (tp + fp) + (tn + fp) * (tn + fn))
       / IZR ((tp + fp + tn + fn) * (tp + fp + tn + fn)).
Proof.
  intros Htp Hfp Htn Hfn Hsum.
  apply Rmult_le_pos.
  - apply IZR_le. nia.
  - left. apply Rinv_0_lt_compat, IZR_lt. nia.
Qed.

Lemma kappa_self_consistency_exact (tp fp tn fn : Z) (c : xreal) :
  (0 <= tp)%Z -> (0 <= fp)%Z -> (0 <= tn)%Z -> (0 <= fn)%Z ->
  (0 < tp + fp + tn + fn)%Z ->
  exists k, kappa_self_consistency norm_ppf tp fp tn fn c = Ok k
    /\ (forall z, z_critical norm_ppf c = Fin z ->
          xle (Fin (-1)) (kappa_ci_lower k) /\ xle (kappa_ci_upper k) (Fin 1)).
Proof.
  intros Htp Hfp Htn Hfn Hsum. unfold kappa_self_consistency.
  destruct (Z.ltb_spec 0%Z (tp + fp + tn + fn)) as [_ | Hle]; [| lia].
  rewrite !int_div_exact by nia. cbn [bind].
  pose proof (expected_agreement_bounds tp fp tn fn Htp Hfp Htn Hfn Hsum) as He.
  set (e := IZR ((tp + fn) * (tp + fp) + (tn + fp) * (tn + fn))
            / IZR ((tp + fp + tn + fn) * (tp + fp + tn + fn))) in *.
  set (o := IZR (tp + tn) / IZR (tp + fp + tn + fn)).
  xnorm. destruct (xlt (Fin e) (Fin 1)) eqn:Hlt.
  - apply xlt_Fin_spec in Hlt.
    assert (Hn : 0 < IZR (tp + fp + tn + fn)) by (apply IZR_lt; lia).
    rewrite !xsub_Fin, !xmul_Fin.
    rewrite (py_div_exact (o - e) (1 - e)) by lra. cbn [bind].
    assert (Hden : 0 < IZR (tp + fp + tn + fn) * ((1 - e) * (1 - e))).
    { repeat apply Rmult_lt_0_compat; lra. }
    rewrite (py_div_exact e _) by lra. cbn [bind].
    assert (Hq : 0 <= e / (IZR (tp + fp + tn + fn) * ((1 - e) * (1 - e)))).
    { apply Rmult_le_pos; [exact He | left; apply Rinv_0_lt_compat; exact Hden]. }
    rewrite (math_sqrt_exact _ Hq). cbn [bind].
    eexists. split; [reflexivity |]. intros z Hz.
    cbn [kappa_ci_lower kappa_ci_upper]. rewrite Hz.
    unfold py_max, py_min. xnorm. rewrite !xmul_Fin, xsub_Fin, xadd_Fin.
    split.
    + destruct (xlt (Fin (-1)) _) eqn:Hc; cbn.
      * apply xlt_Fin_spec in Hc. lra.
      * lra.
    + destruct (xlt _ (Fin 1)) eqn:Hc; cbn.
      * apply xlt_Fin_spec in Hc. lra.
      * lra.
  - eexists. split; [reflexivity |]. intros z Hz. cbn. lra.
Qed.

Lemma mcc_numerator_bound (tp fp tn fn : Z) :
  (0 <= tp)%Z -> (0 <= fp)%Z -> (0 <= tn)%Z -> (0 <= fn)%Z ->
  ((tp * tn - fp * fn) * (tp * tn - fp * fn)
   <= (tp + fp) * (tp + fn) * (tn + fp) * (tn + fn))%Z.
Proof.
  intros Htp Hfp Htn Hfn.
  assert (H1 : (0 <= tp * tn)%Z) by nia.
  assert (H2 : (0 <= fp * fn)%Z) by nia.
  assert (H3 : (tp * tn + fp * fn <= (tp + fp) * (tn + fn))%Z) by nia.
  assert (H4 : (tp * tn + fp * fn <= (tp + fn) * (tn + fp))%Z) by nia.
  assert (H5 : ((tp * tn - fp * fn) * (tp * tn - fp * fn)
                <= (tp * tn + fp * fn) * (tp * tn + fp * fn))%Z) by nia.
  assert (H6 : ((tp * tn + fp * fn) * (tp * tn + fp * fn)
                <= ((tp + fp) * (tn + fn)) * ((tp + fn) * (tn + fp)))%Z).
  { apply Z.mul_le_mono_nonneg; lia. }
  replace ((tp + fp) * (tp + fn) * (tn + fp) * (tn + fn))%Z
    with (((tp + fp) * (tn + fn)) * ((tp + fn) * (tn + fp)))%Z by ring.
  lia.
Qed.

Lemma mcc_exact (tp fp tn fn : Z) (den m : xreal) :
  (0 <= tp)%Z -> (0 <= fp)%Z -> (0 <= tn)%Z -> (0 <= fn)%Z ->
  math_sqrt (fint ((tp + fp) * (tp + fn) * (tn + fp) * (tn + fn))) = Ok den ->
  (if flt (fint 0) den then py_div (fint (tp * tn - fp * fn)) den else Ok (fint 0))
    = Ok m ->
  between (-1) 1 m.
Proof.
  intros Htp Hfp Htn Hfn Hden Hm.
  pose proof (mcc_numerator_bound tp fp tn fn Htp Hfp Htn Hfn) as Hb.
  set (P := ((tp + fp) * (tp + fn) * (tn + fp) * (tn + fn))%Z) in *.
  set (N := (tp * tn - fp * fn)%Z) in *.
  assert (HP : 0 <= IZR P) by (apply IZR_le; unfold P; nia).
  xnorm. rewrite (math_sqrt_exact _ HP) in Hden. injection Hden as <-.
  destruct (xlt (Fin 0) (Fin (R_sqrt.sqrt (IZR P)))) eqn:Hlt.
  - apply xlt_Fin_spec in Hlt.
    rewrite py_div_exact in Hm by lra. injection Hm as <-.
    exists (IZR N / R_sqrt.sqrt (IZR P)). split; [reflexivity |].
    pose proof (sqrt_def (IZR P) HP) as Hss.
    set (s := R_sqrt.sqrt (IZR P)) in *.
    assert (HN : IZR N * IZR N <= s * s).
    { rewrite Hss, <- mult_IZR. apply IZR_le. exact Hb. }
    assert (Habs : - s <= IZR N <= s) by nra.
    split.
    + apply Rmult_le_reg_r with s; [exact Hlt |].
      unfold Rdiv. rewrite Rmult_assoc, Rinv_l by lra. lra.
    + apply Rmult_le_reg_r with s; [exact Hlt |].
      unfold Rdiv. rewrite Rmult_assoc, Rinv_l by lra. lra.
  - injection Hm as <-. exists 0. split; [reflexivity | lra].
Qed.

Lemma calculate_diagnostic_stats_total (tp fp tn fn : Z) (c : xreal) :
  (0 <= tp)%Z -> (0 <= fp)%Z -> (0 <= tn)%Z -> (0 <= fn)%Z ->
  (0 < tp + fp + tn + fn)%Z ->
  exists r, calculate_diagnostic_stats norm_ppf tp fp tn fn c = Ok r.
Proof.
  intros Htp Hfp Htn Hfn Hsum. unfold calculate_diagnostic_stats.
  destruct (Z.eqb_spec (tp + fp + tn + fn) 0%Z) as [Hz | _]; [lia |].
  destruct (ratio_exact tp (tp + fn)) as (v1 & -> & _). cbn [bind].
  destruct (ratio_exact tn (tn + fp)) as (v2 & -> & _). cbn [bind].
  destruct (ratio_exact tp (tp + fp)) as (v3 & -> & _). cbn [bind].
  destruct (ratio_exact tn (tn + fn)) as (v4 & -> & _). cbn [bind].
  rewrite !(int_div_exact _ (tp + fp + tn + fn)) by lia. cbn [bind].
  destruct (ratio_exact fp (fp + tn)) as (v5 & -> & _). cbn [bind].
  destruct (ratio_exact fn (fn + tp)) as (v6 & -> & _). cbn [bind].
  destruct (guarded_div_total (Fin v1) (Fin v5) finf) as (lrp & ->). cbn [bind].
  destruct (guarded_div_total (Fin v6) (Fin v2) finf) as (lrn & ->). cbn [bind].
  destruct (guarded_div_total lrp lrn finf) as (dor & ->). cbn [bind].
  destruct (guarded_div_total (fmul (fint 2) (fmul (Fin v3) (Fin v1)))
              (fadd (Fin v3) (Fin v1)) (fint 0)) as (f1 & ->). cbn [bind].
  assert (HP : 0 <= IZR ((tp + fp) * (tp + fn) * (tn + fp) * (tn + fn))).
  { apply IZR_le. nia. }
  change (fint ((tp + fp) * (tp + fn) * (tn + fp) * (tn + fn)))
    with (Fin (IZR ((tp + fp) * (tp + fn) * (tn + fp) * (tn + fn)))).
  rewrite (math_sqrt_exact _ HP). cbn [bind].
  destruct (guarded_div_total (fint (tp * tn - fp * fn))
              (Fin (R_sqrt.sqrt (IZR ((tp + fp) * (tp + fn) * (tn + fp) * (tn + fn)))))
              (fint 0)) as (m & ->). cbn [bind].
  destruct (wilson_ci_total c tp (tp + fn)) as (ci1 & ->); [lia |]. cbn [bind].
  destruct (wilson_ci_total c tn (tn + fp)) as (ci2 & ->); [lia |]. cbn [bind].
  destruct (wilson_ci_total c tp (tp + fp)) as (ci3 & ->); [lia |]. cbn [bind].
  destruct (wilson_ci_total c tn (tn + fn)) as (ci4 & ->); [lia |]. cbn [bind].
  destruct (wilson_ci_total c (tp + tn) (tp + fp + tn + fn)) as (ci5 & ->); [lia |].
  cbn [bind].
  destruct (kappa_self_consistency_exact tp fp tn fn c Htp Hfp Htn Hfn Hsum)
    as (k & -> & _).
  cbn [bind]. eauto.
Qed.

Lemma ratio_between (a b : Z) (v : xreal) :
  (0 <= a <= b)%Z ->
  (if (0 <? b)%Z then int_div a b else Ok (fint 0)) = Ok v -> between 0 1 v.
Proof.
  intros Hab Hv. destruct (ratio_exact a b) as (w & Hw & Hbound & _).
  rewrite Hw in Hv. injection Hv as <-. exists w. split; [reflexivity | auto].
Qed.

Lemma int_div_guarded (a b : Z) :
  (0 < b)%Z -> int_div a b = (if (0 <? b)%Z then int_div a b else Ok (fint 0)).
Proof. intros Hb. destruct (Z.ltb_spec 0%Z b); [reflexivity | lia]. Qed.

Lemma wilson_ci_contains (c : xreal) (z : R) (x n : Z) (v lo hi : xreal) :
  z_critical norm_ppf c = Fin z -> 0 <= z -> (0 <= x <= n)%Z ->
  (if (0 <? n)%Z then int_div x n else Ok (fint 0)) = Ok v ->
  wilson_ci norm_ppf c x n = Ok (lo, hi) ->
  xle lo v /\ xle v hi.
Proof.
  intros Hz Hz0 Hx Hv Hci. destruct (Z.ltb_spec 0%Z n) as [Hn | Hn].
  - rewrite int_div_exact in Hv by lia. injection Hv as <-.
    rewrite (wilson_ci_Fin c z x n Hz Hx Hn) in Hci. injection Hci as <- <-.
    assert (Hn' : 0 < IZR n) by (apply IZR_lt; exact Hn).
    assert (Hp : 0 <= IZR x / IZR n <= 1).
    { destruct (ratio_exact x n) as (w & _ & Hb & Hw & _).
      rewrite <- (Hw Hn). apply Hb. exact Hx. }
    pose proof (wilson_interval_contains z (IZR x / IZR n) (IZR n) Hn' Hp Hz0) as Hc.
    cbv zeta in Hc. rewrite <- !mult_IZR in Hc.
    fold (wilson_center z x n) in Hc. fold (wilson_margin z x n) in Hc.
    unfold py_max, py_min. xnorm. split.
    + destruct (xlt (Fin 0) _) eqn:Hlt; cbn; lra.
    + destruct (xlt _ (Fin 1)) eqn:Hlt; cbn; lra.
  - assert (n = 0%Z) by lia. subst n. injection Hv as <-.
    unfold wilson_ci in Hci. cbn in Hci. injection Hci as <- <-. cbn. lra.
Qed.


(** C5 (as amended): in exact arithmetic, for four non-negative counts with a
    positive sum and a finite non-negative critical value, the Wilson
    interval of each of the five proportions contains its point estimate,
    ci_lower <= value <= ci_upper; this covers n = 0, where the interval is
    (0, 0) and the value is 0. *)
Theorem wilson_interval_contains_estimate_exact (tp fp tn fn : Z) (c : xreal) (z : R) :
  (0 <= tp)%Z -> (0 <= fp)%Z -> (0 <= tn)%Z -> (0 <= fn)%Z ->
  (0 < tp + fp + tn + fn)%Z ->
  z_critical norm_ppf c = Fin z -> 0 <= z ->
  exists r, calculate_diagnostic_stats norm_ppf tp fp tn fn c = Ok r
    /\ forall p, In p [sensitivity r; specificity r; ppv r; npv r; accuracy r] ->
         xle (ci_lower p) (value p) /\ xle (value p) (ci_upper p).
Proof.
  intros Htp Hfp Htn Hfn Hsum Hz Hz0.
  destruct (calculate_diagnostic_stats_total tp fp tn fn c Htp Hfp Htn Hfn Hsum)
    as (r & Hr).
  exists r. split; [exact Hr |].
  apply calculate_diagnostic_stats_Ok_inv in Hr.
  destruct Hr as (_ & Hsens & Hspec & Hppv & Hnpv & Hacc & _ & _
                  & Hc1 & Hc2 & Hc3 & Hc4 & Hc5 & _).
  rewrite int_div_guarded in Hacc by exact Hsum.
  intros p [<- | [<- | [<- | [<- | [<- | []]]]]];
    (eapply wilson_ci_contains; [exact Hz | exact Hz0 | | eassumption | eassumption]; lia).
Qed.
End ExactStatistics.


Lemma wilson_interval_contains_estimate_exact_witness :
  exists r,
    calculate_diagnostic_stats critical_95 85 3 92 5 (fdec 95 100) = Ok r
    /\ forall p, In p [sensitivity r; specificity r; ppv r; npv r; accuracy r] ->
         xle (ci_lower p) (value p) /\ xle (value p) (ci_upper p).
Proof.
  apply (wilson_interval_contains_estimate_exact critical_95 85 3 92 5 (fdec 95 100)
           (1959963984540054 / 1000000000000000));
    [lia | lia | lia | lia | lia | reflexivity | lra].
Defined.

Set Warnings "-inexact-float".


(** C5, the claim as stated fails in binary64: with tp = 10, fp = 0, tn = 10,
    fn = 0 and the default level the sensitivity is 1.0 and the upper end of
    its interval is 0.9999999999999999. *)
Lemma wilson_upper_below_estimate_binary64 :
  exists r,
    calculate_diagnostic_stats Binary64.norm_ppf 10 0 10 0 (fdec 95 100) = Ok r
    /\ flt (ci_upper (sensitivity r)) (value (sensitivity r)) = true.
Proof. eexists. split; [vm_compute; reflexivity | vm_compute; reflexivity]. Qed.

(** The example of the specification in binary64: tp = 85, fp = 3, tn = 92,
    fn = 5 gives the sensitivity 85/90, the specificity 92/95 and the
    accuracy 177/185, each rounded once. *)
Example diagnostic_stats_example_binary64 :
  exists r,
    calculate_diagnostic_stats Binary64.norm_ppf 85 3 92 5 (fdec 95 100) = Ok r
    /\ value (sensitivity r) = 0.94444444444444442%float
    /\ value (specificity r) = 0.96842105263157896%float
    /\ value (accuracy r) = 0.95675675675675675%float.
Proof. eexists. repeat split; vm_compute; reflexivity. Qed.

(** ** Cohen's kappa: the categories and the contingency counts *)

Lemma In_insert_unique (x y : Z) (l : list Z) :
  In y (insert_unique x l) <-> y = x \/ In y l.
Proof.
  induction l as [| h t IH]; simpl.
  - intuition.
  - destruct (Z.ltb_spec x h) as [Hlt | Hge]; simpl.
    + intuition.
    + destruct (Z.eqb_spec x h) as [-> | Hne]; simpl.
      * intuition.
      * rewrite IH. intuition.
Qed.

Lemma insert_unique_sorted (x : Z) (l : list Z) :
  StronglySorted Z.lt l -> StronglySorted Z.lt (insert_unique x l).
Proof.
  induction 1 as [| h t Hs IH Hall]; simpl.
  - repeat constructor.
  - destruct (Z.ltb_spec x h) as [Hlt | Hge].
    + constructor; [constructor; assumption |].
      constructor; [exact Hlt |].
      eapply List.Forall_impl; [| exact Hall]. intros a Ha. simpl in Ha. lia.
    + destruct (Z.eqb_spec x h) as [-> | Hne].
      * constructor; assumption.
      * constructor; [exact IH |].
        apply List.Forall_forall. intros a Ha. apply In_insert_unique in Ha.
        destruct Ha as [-> | Ha]; [lia |].
        rewrite List.Forall_forall in Hall. apply Hall. exact Ha.
Qed.

Lemma np_unique_sorted (l : list Z) : StronglySorted Z.lt (np_unique l).
Proof.
  induction l as [| h t IH]; simpl; [constructor | apply insert_unique_sorted, IH].
Qed.

Lemma In_np_unique (y : Z) (l : list Z) : In y (np_unique l) <-> In y l.
Proof.
  induction l as [| h t IH]; simpl; [reflexivity |].
  rewrite In_insert_unique, IH. intuition.
Qed.

(** Two strictly increasing lists with the same elements are equal. *)
Lemma strictly_sorted_ext (l1 l2 : list Z) :
  StronglySorted Z.lt l1 -> StronglySorted Z.lt l2 ->
  (forall y, In y l1 <-> In y l2) -> l1 = l2.
Proof.
  intros H1. revert l2. induction H1 as [| a t1 Hs1 IH Hall1]; intros l2 H2 Hin.
  - destruct l2 as [| b t2]; [reflexivity |].
    exfalso. apply (proj2 (Hin b)). left. reflexivity.
  - destruct H2 as [| b t2 Hs2 Hall2].
    + exfalso. apply (proj1 (Hin a)). left. reflexivity.
    + rewrite List.Forall_forall in Hall1, Hall2.
      assert (Hab : a = b).
      { destruct (proj1 (Hin a) (or_introl eq_refl)) as [Hb | Hb]; [auto |].
        destruct (proj2 (Hin b) (or_introl eq_refl)) as [Ha | Ha]; [auto |].
        specialize (Hall1 _ Ha). specialize (Hall2 _ Hb). simpl in *. lia. }
      subst b. f_equal. apply IH; [exact Hs2 |].
      intros y. split; intros Hy.
      * destruct (proj1 (Hin y) (or_intror Hy)) as [Hb | Hb]; [| exact Hb].
        subst y. specialize (Hall1 _ Hy). simpl in Hall1. lia.
      * destruct (proj2 (Hin y) (or_intror Hy)) as [Hb | Hb]; [| exact Hb].
        subst y. specialize (Hall2 _ Hy). simpl in Hall2. lia.
Qed.

Lemma np_unique_app_comm (l1 l2 : list Z) : np_unique (l1 ++ l2) = np_unique (l2 ++ l1).
Proof.
  apply strictly_sorted_ext; try apply np_unique_sorted.
  intros y. rewrite !In_np_unique, !in_app_iff. intuition.
Qed.

Lemma contingency_swap (cat1 cat2 : Z) (rater1 rater2 : list Z) :
  contingency cat1 cat2 rater1 rater2 = contingency cat2 cat1 rater2 rater1.
Proof.
  revert rater2. induction rater1 as [| a r1 IH]; intros [| b r2]; simpl; try reflexivity.
  rewrite IH, andb_comm. reflexivity.
Qed.

Lemma contingency_nonneg (cat1 cat2 : Z) (rater1 rater2 : list Z) :
  (0 <= contingency cat1 cat2 rater1 rater2)%Z.
Proof.
  revert rater2. induction rater1 as [| a r1 IH]; intros [| b r2]; simpl; try lia.
  specialize (IH r2). destruct ((a =? cat1)%Z && (b =? cat2)%Z); lia.
Qed.

Lemma Zsum_nonneg (l : list Z) : Forall (fun s => (0 <= s)%Z) l -> (0 <= Zsum l)%Z.
Proof. induction 1; simpl; lia. Qed.

Lemma np_trace_swap (categories rater1 rater2 : list Z) :
  np_trace categories rater1 rater2 = np_trace categories rater2 rater1.
Proof.
  unfold np_trace. f_equal. apply map_ext. intros cat. apply contingency_swap.
Qed.

Lemma sum_axis_swap (categories rater1 rater2 : list Z) :
  sum_axis1 categories rater1 rater2 = sum_axis0 categories rater2 rater1.
Proof.
  unfold sum_axis1, sum_axis0. apply map_ext. intros cat1. f_equal.
  apply map_ext. intros cat2. apply contingency_swap.
Qed.

Lemma sum_axis1_nonneg (categories rater1 rater2 : list Z) :
  Forall (fun s => (0 <= s)%Z) (sum_axis1 categories rater1 rater2).
Proof.
  unfold sum_axis1. apply List.Forall_forall. intros s Hs. apply in_map_iff in Hs.
  destruct Hs as (cat1 & <- & _). apply Zsum_nonneg, List.Forall_forall.
  intros s Hs. apply in_map_iff in Hs. destruct Hs as (cat2 & <- & _).
  apply contingency_nonneg.
Qed.

Lemma sum_axis0_nonneg (categories rater1 rater2 : list Z) :
  Forall (fun s => (0 <= s)%Z) (sum_axis0 categories rater1 rater2).
Proof. rewrite <- sum_axis_swap. apply sum_axis1_nonneg. Qed.

Lemma calculate_cohens_kappa_Ok_inv {F : Type} `{FloatOps F} (norm_ppf : F -> F)
    (rater1 rater2 : list Z) (c : F) (r : kappa_result) :
  calculate_cohens_kappa norm_ppf rater1 rater2 c = Ok r ->
  length rater1 = length rater2 /\ rater1 <> [] /\
  kappa r = cohen_kappa_score rater1 rater2 /\
  observed_agreement r = p_observed rater1 rater2 /\
  expected_agreement r = p_expected rater1 rater2 /\
  (if feq (p_expected rater1 rater2) (fint 1) then Ok (fint 0)
   else math_sqrt
          (fdiv (p_expected rater1 rater2)
                (fmul (fint (Z.of_nat (length rater1)))
                      (fmul (fsub (fint 1) (p_expected rater1 rater2))
                            (fsub (fint 1) (p_expected rater1 rater2))))))
    = Ok (standard_error r) /\
  confidence_interval_lower r
    = fsub (kappa r) (fmul (z_critical norm_ppf c) (standard_error r)) /\
  confidence_interval_upper r
    = py_min (fint 1) (fadd (kappa r) (fmul (z_critical norm_ppf c) (standard_error r))).
Proof.
  unfold calculate_cohens_kappa. intros Hr.
  destruct (Nat.eqb_spec (length rater1) (length rater2)) as [Hlen | Hlen];
    cbn [negb] in Hr; [| discriminate Hr].
  destruct (Nat.eqb_spec (length rater1) 0) as [H0 | H0]; [discriminate Hr |].
  bind_inv Hr. injection Hr as <-. cbn.
  repeat split; try reflexivity; try assumption.
  intros ->. apply H0. reflexivity.
Qed.

(** ** Symmetry, for any arithmetic whose multiplication commutes *)

Section Symmetry.

Context {F : Type} `{FloatOps F}.
Hypothesis fmul_comm : forall a b : F, fmul a b = fmul b a.
Variable norm_ppf : F -> F.

Lemma zip_with_fmul_comm (l1 l2 : list F) :
  zip_with fmul l1 l2 = zip_with fmul l2 l1.
Proof using fmul_comm.
  revert l2. induction l1 as [| a t IH]; intros [| b u]; cbn; try reflexivity.
  rewrite IH. f_equal. apply fmul_comm.
Qed.

Lemma p_observed_swap (rater1 rater2 : list Z) :
  length rater1 = length rater2 ->
  p_observed (F := F) rater1 rater2 = p_observed rater2 rater1.
Proof.
  intros Hlen. unfold p_observed.
  rewrite (np_unique_app_comm rater1 rater2), (np_trace_swap _ rater1 rater2), Hlen.
  reflexivity.
Qed.

Lemma p_expected_swap (rater1 rater2 : list Z) :
  length rater1 = length rater2 ->
  p_expected (F := F) rater1 rater2 = p_expected rater2 rater1.
Proof using fmul_comm.
  intros Hlen. unfold p_expected.
  rewrite (np_unique_app_comm rater1 rater2), Hlen.
  rewrite (sum_axis_swap _ rater1 rater2), <- (sum_axis_swap _ rater2 rater1).
  rewrite zip_with_fmul_comm. reflexivity.
Qed.

Lemma calculate_cohens_kappa_swap (rater1 rater2 : list Z) (c : F) :
  length rater1 = length rater2 ->
  calculate_cohens_kappa norm_ppf rater1 rater2 c
  = calculate_cohens_kappa norm_ppf rater2 rater1 c.
Proof using fmul_comm.
  intros Hlen. unfold calculate_cohens_kappa, cohen_kappa_score.
  rewrite (p_observed_swap _ _ Hlen), (p_expected_swap _ _ Hlen), Hlen.
  reflexivity.
Qed.

End Symmetry.

(** Multiplication of binary64 numbers commutes. *)
Lemma SFmul_comm (x y : spec_float) : SFmul prec emax x y = SFmul prec emax y x.
Proof.
  destruct x as [sx | sx | | sx mx ex], y as [sy | sy | | sy my ey]; cbn [SFmul];
    rewrite ?(xorb_comm sx sy); try reflexivity.
  rewrite (Pos.mul_comm mx my), (Z.add_comm ex ey). reflexivity.
Qed.

Lemma binary64_mul_comm (a b : float) : PrimFloat.mul a b = PrimFloat.mul b a.
Proof. apply Prim2SF_inj. rewrite !mul_spec. apply SFmul_comm. Qed.

(** ** Cohen's kappa in exact arithmetic *)

Lemma xmul_comm (x y : xreal) : xmul x y = xmul y x.
Proof.
  destruct x as [a | s |], y as [b | t |]; cbn; try reflexivity.
  - f_equal. apply Rmult_comm.
  - f_equal. apply xorb_comm.
Qed.

(** A list of non-negative real numbers. *)
Lemma np_sum_nonneg (l : list xreal) (a : R) :
  Forall (fun x => exists r, x = Fin r /\ 0 <= r) l -> 0 <= a ->
  exists s, fold_left fadd l (Fin a) = Fin s /\ 0 <= s.
Proof.
  intros Hl. revert a. induction Hl as [| x t (r & -> & Hr) _ IH]; intros a Ha; cbn.
  - eauto.
  - apply IH. lra.
Qed.

Lemma marginal_products_nonneg (n : Z) (l1 l2 : list Z) :
  (0 < n)%Z ->
  Forall (fun s => (0 <= s)%Z) l1 -> Forall (fun s => (0 <= s)%Z) l2 ->
  Forall (fun x => exists r, x = Fin r /\ 0 <= r)
    (zip_with fmul (map (fun s => fdiv (fint s) (fint n)) l1)
                   (map (fun s => fdiv (fint s) (fint n)) l2)).
Proof.
  intros Hn H1. revert l2.
  induction H1 as [| a t Ha _ IH]; intros l2 H2; cbn [zip_with map].
  - constructor.
  - destruct H2 as [| b u Hb H2]; cbn [zip_with map]; [constructor |].
    constructor; [| apply IH; exact H2].
    assert (Hn' : 0 < IZR n) by (apply IZR_lt; exact Hn).
    xnorm. rewrite !xdiv_Fin by lra. rewrite xmul_Fin. eexists. split; [reflexivity |].
    assert (0 <= IZR a) by (apply IZR_le; exact Ha).
    assert (0 <= IZR b) by (apply IZR_le; exact Hb).
    assert (0 < / IZR n) by (apply Rinv_0_lt_compat; exact Hn').
    unfold Rdiv. repeat apply Rmult_le_pos; lra.
Qed.

Lemma p_expected_exact (rater1 rater2 : list Z) :
  rater1 <> [] ->
  exists pe, p_expected (F := xreal) rater1 rater2 = Fin pe /\ 0 <= pe.
Proof.
  intros Hne. unfold p_expected, np_sum.
  apply np_sum_nonneg; [| lra].
  apply marginal_products_nonneg.
  - destruct rater1; [contradiction | cbn; lia].
  - apply sum_axis1_nonneg.
  - apply sum_axis0_nonneg.
Qed.

Section ExactKappa.

Variable norm_ppf : xreal -> xreal.

Lemma calculate_cohens_kappa_total (rater1 rater2 : list Z) (c : xreal) :
  length rater1 = length rater2 -> rater1 <> [] ->
  exists r, calculate_cohens_kappa norm_ppf rater1 rater2 c = Ok r.
Proof.
  intros Hlen Hne. unfold calculate_cohens_kappa.
  rewrite Hlen, Nat.eqb_refl. cbn [negb].
  destruct (Nat.eqb_spec (length rater2) 0) as [H0 | _].
  { destruct rater1; [contradiction | cbn in Hlen; lia]. }
  destruct (p_expected_exact rater1 rater2 Hne) as (pe & Hpe & Hpe0).
  rewrite Hpe. xnorm.
  destruct (xeq (Fin pe) (Fin 1)) eqn:Heq; [cbn [bind]; eauto |].
  assert (Hpe1 : pe <> 1).
  { intros ->. rewrite (proj2 (xeq_Fin_spec 1 1) eq_refl) in Heq. discriminate. }
  assert (Hn : 0 < IZR (Z.of_nat (length rater2))).
  { apply IZR_lt. destruct rater2; [cbn in Hlen; destruct rater1; [contradiction | discriminate] | cbn; lia]. }
  rewrite !xsub_Fin, !xmul_Fin.
  assert (Hden : 0 < IZR (Z.of_nat (length rater2)) * ((1 - pe) * (1 - pe))).
  { apply Rmult_lt_0_compat; [exact Hn | nra]. }
  rewrite xdiv_Fin by lra.
  rewrite math_sqrt_exact; [cbn [bind]; eauto |].
  apply Rmult_le_pos; [exact Hpe0 | left; apply Rinv_0_lt_compat; exact Hden].
Qed.

End ExactKappa.

Lemma contingency_constant (a : Z) (m : nat) :
  contingency a a (repeat a m) (repeat a m) = Z.of_nat m.
Proof.
  induction m as [| m IH]; [reflexivity |].
  cbn [repeat contingency]. rewrite IH, Z.eqb_refl. cbn [andb]. lia.
Qed.

Lemma np_unique_constant (a : Z) (m : nat) :
  np_unique (repeat a (S m) ++ repeat a (S m)) = [a].
Proof.
  apply strictly_sorted_ext.
  - apply np_unique_sorted.
  - repeat constructor.
  - intros y. rewrite In_np_unique, in_app_iff. split.
    + intros [Hy | Hy]; apply repeat_spec in Hy; left; symmetry; exact Hy.
    + intros [<- | []]. left. left. reflexivity.
Qed.

Lemma p_expected_constant (a : Z) (m : nat) :
  p_expected (F := xreal) (repeat a (S m)) (repeat a (S m)) = Fin 1.
Proof.
  unfold p_expected, np_sum, sum_axis1, sum_axis0.
  rewrite np_unique_constant. cbn [map Zsum fold_right zip_with fold_left].
  rewrite contingency_constant, repeat_length. xnorm.
  assert (Hn : IZR (Z.of_nat (S m)) <> 0) by (apply not_0_IZR; lia).
  rewrite xdiv_Fin by exact Hn. rewrite xmul_Fin, xadd_Fin.
  f_equal. rewrite Z.add_0_r. field. exact Hn.
Qed.

Section KappaTheorems.

Variable norm_ppf : xreal -> xreal.

(** C6: for two rater sequences of the same non-zero length,
    [calculate_cohens_kappa] returns the same result in both orders of its
    arguments: the same kappa, observed and expected agreement, standard
    error and confidence interval.  In exact arithmetic the call returns;
    and in binary64 too the two orders give the same outcome.  (The kappa
    value is the library's, modelled by the standard formula.) *)
Theorem cohens_kappa_symmetric (seqA seqB : list Z) (c : xreal) :
  length seqA = length seqB -> seqA <> [] ->
  (exists r,
     calculate_cohens_kappa norm_ppf seqA seqB c = Ok r
     /\ calculate_cohens_kappa norm_ppf seqB seqA c = Ok r)
  /\ (forall (ppf : float -> float) (confidence : float),
        calculate_cohens_kappa ppf seqA seqB confidence
        = calculate_cohens_kappa ppf seqB seqA confidence).
Proof.
  intros Hlen Hne. split.
  - destruct (calculate_cohens_kappa_total norm_ppf seqA seqB c Hlen Hne) as (r & Hr).
    exists r. split; [exact Hr |].
    rewrite <- (@calculate_cohens_kappa_swap xreal exact xmul_comm norm_ppf seqA seqB c Hlen).
    exact Hr.
  - intros ppf confidence.
    apply (@calculate_cohens_kappa_swap float Binary64.binary64 binary64_mul_comm
             ppf seqA seqB confidence Hlen).
Qed.


End KappaTheorems.

Lemma cohens_kappa_symmetric_witness :
  (exists r,
     calculate_cohens_kappa critical_95 [1; 1; 0; 0; 1]%Z [1; 0; 0; 1; 1]%Z (fdec 95 100)
       = Ok r
     /\ calculate_cohens_kappa critical_95 [1; 0; 0; 1; 1]%Z [1; 1; 0; 0; 1]%Z
          (fdec 95 100)
        = Ok r)
  /\ (forall (ppf : float -> float) (confidence : float),
        calculate_cohens_kappa ppf [1; 1; 0; 0; 1]%Z [1; 0; 0; 1; 1]%Z confidence
        = calculate_cohens_kappa ppf [1; 0; 0; 1; 1]%Z [1; 1; 0; 0; 1]%Z confidence).
Proof.
  apply (cohens_kappa_symmetric critical_95); [reflexivity | discriminate].
Defined.

(** The builtin [min(1.0, x)] never returns more than 1. *)
Lemma py_min_capped (y : xreal) : flt (fint 1) (py_min (fint 1) y) = false.
Proof.
  unfold py_min. xnorm. destruct (xlt y (Fin 1)) eqn:Hlt.
  - destruct y as [b | s |]; cbn in Hlt |- *; try discriminate Hlt.
    + apply xlt_Fin_spec in Hlt. apply xlt_Fin_false. lra.
    + rewrite Hlt. reflexivity.
  - apply xlt_Fin_false. lra.
Qed.

(** Evaluate the closed integers under [IZR]. *)
Ltac izr_compute :=
  repeat match goal with
         | |- context [IZR ?i] =>
             let v := eval vm_compute in i in
             progress change (IZR i) with (IZR v)
         end.

(** Complete disagreement of two raters on two items: kappa is -1 and the
    standard error is 1, so the lower end of the interval is -1 - z. *)
Lemma disagreement_lower_bound (norm_ppf : xreal -> xreal) (c : xreal) (z : R) :
  z_critical norm_ppf c = Fin z ->
  exists r,
    calculate_cohens_kappa norm_ppf [0; 1]%Z [1; 0]%Z c = Ok r
    /\ confidence_interval_lower r = Fin (-1 - z).
Proof.
  intros Hz. unfold calculate_cohens_kappa, cohen_kappa_score.
  assert (Hpe : p_expected (F := xreal) [0; 1]%Z [1; 0]%Z = Fin (1 / 2)).
  { unfold p_expected, np_sum. cbn -[fdiv fmul fadd fint]. xnorm. izr_compute.
    rewrite !xdiv_Fin by lra. rewrite !xmul_Fin, !xadd_Fin. f_equal. lra. }
  assert (Hpo : p_observed (F := xreal) [0; 1]%Z [1; 0]%Z = Fin 0).
  { unfold p_observed. cbn -[fdiv fint]. xnorm. izr_compute.
    rewrite xdiv_Fin by lra. f_equal. lra. }
  rewrite Hpe, Hpo, Hz. cbn [length Nat.eqb negb]. xnorm. izr_compute.
  assert (Hne : xeq (Fin (1 / 2)) (Fin 1) = false).
  { destruct (xeq (Fin (1 / 2)) (Fin 1)) eqn:Heq; [| reflexivity].
    apply xeq_Fin_spec in Heq. lra. }
  rewrite Hne, !xsub_Fin, !xmul_Fin.
  rewrite !xdiv_Fin by lra.
  assert (Hrad : 1 / 2 / (2 * ((1 - 1 / 2) * (1 - 1 / 2))) = 1) by lra.
  rewrite Hrad, math_sqrt_exact by lra. cbn [bind]. rewrite sqrt_1.
  eexists. split; [reflexivity |]. cbn [confidence_interval_lower].
  rewrite xmul_Fin, xsub_Fin. f_equal. field.
Qed.



(** ** Multiple-comparisons correction *)

Lemma np_minimum_exact (a b : R) : np_minimum (Fin a) (Fin b) = Fin (Rmin b a).
Proof.
  unfold np_minimum. xnorm.
  rewrite (proj2 (xeq_Fin_spec a a) eq_refl), (proj2 (xeq_Fin_spec b b) eq_refl).
  cbn [negb]. destruct (xlt (Fin b) (Fin a)) eqn:Hlt.
  - apply xlt_Fin_spec in Hlt. rewrite Rmin_left by lra. reflexivity.
  - destruct (Rlt_dec b a) as [Hba | Hba].
    + rewrite (xlt_Fin_true b a Hba) in Hlt. discriminate Hlt.
    + rewrite Rmin_right by lra. reflexivity.
Qed.

Lemma bonferroni_exact (p_values : list R) :
  bonferroni (map Fin p_values)
  = map (fun p => Fin (Rmin 1 (p * IZR (Z.of_nat (length p_values))))) p_values.
Proof.
  unfold bonferroni. rewrite !List.map_map, List.length_map.
  apply map_ext. intros p. xnorm. rewrite xmul_Fin. apply np_minimum_exact.
Qed.

Set Warnings "-inexact-float".

(** C9: under 'bonferroni' each p-value p_i of an n-element input becomes
    min(1, p_i * n), in the order of the input and with its length (stated in
    exact arithmetic for any list of real p-values); and in binary64 the call
    on [0.01, 0.02, 0.03] returns exactly [0.03, 0.06, 0.09]. *)
Theorem bonferroni_correction (p_values : list R) :
  (exists r,
     calculate_multiple_comparisons_correction (map Fin p_values) "bonferroni" = Ok r
     /\ corrected_p_values r
        = map (fun p => Fin (Rmin 1 (p * IZR (Z.of_nat (length p_values))))) p_values
     /\ length (corrected_p_values r) = length p_values
     /\ original_p_values r = map Fin p_values)
  /\ (exists r,
        calculate_multiple_comparisons_correction [0.01; 0.02; 0.03]%float "bonferroni"
          = Ok r
        /\ corrected_p_values r = [0.03; 0.06; 0.09]%float).
Proof.
  split.
  - unfold calculate_multiple_comparisons_correction. cbn [String.eqb Ascii.eqb Bool.eqb].
    eexists. split; [reflexivity |]. cbn [corrected_p_values original_p_values].
    rewrite bonferroni_exact. repeat split. apply List.length_map.
  - eexists. split; vm_compute; reflexivity.
Qed.

(** ** The pairwise comparison *)

Lemma stratum_exact (count total1 min_total : Z) :
  total1 <> 0%Z ->
  exists k, stratum (F := xreal) count total1 min_total = Ok k
    /\ ((0 < total1)%Z -> (total1 <= count * min_total)%Z -> (0 < k)%nat).
Proof.
  intros Ht. unfold stratum. rewrite int_div_exact by exact Ht. cbn [bind]. xnorm.
  rewrite xmul_Fin. cbn [xtrunc bind]. eexists. split; [reflexivity |].
  intros Hpos Hfill.
  assert (Ht' : 0 < IZR total1) by (apply IZR_lt; exact Hpos).
  assert (Hv : 1 <= IZR count / IZR total1 * IZR min_total).
  { replace (IZR count / IZR total1 * IZR min_total)
      with (IZR (count * min_total) / IZR total1)
      by (rewrite mult_IZR; field; lra).
    apply Rmult_le_reg_r with (IZR total1); [exact Ht' |].
    unfold Rdiv. rewrite Rmult_assoc, Rinv_l, Rmult_1_r, Rmult_1_l by lra.
    apply IZR_le. exact Hfill. }
  rewrite Rneg_false by lra.
  pose proof (Zfloor_lub 1 _ Hv). lia.
Qed.

Lemma synthesize_exact (exp1 exp2 : experiment) :
  (0 < experiment_total exp1)%Z ->
  exists rater1 rater2,
    synthesize (F := xreal) exp1 exp2 = Ok (rater1, rater2)
    /\ length rater1 = length rater2
    /\ (synthesis_nonempty exp1 exp2 = true -> rater1 <> []).
Proof.
  intros Ht. unfold synthesize.
  assert (Hne : experiment_total exp1 <> 0%Z) by lia.
  set (m := Z.min (experiment_total exp1) (experiment_total exp2)).
  destruct (stratum_exact (true_positive exp1) _ m Hne) as (n11 & -> & H11).
  destruct (stratum_exact (false_positive exp1) _ m Hne) as (n10 & -> & H10).
  destruct (stratum_exact (false_negative exp1) _ m Hne) as (n01 & -> & H01).
  destruct (stratum_exact (true_negative exp1) _ m Hne) as (n00 & -> & H00).
  cbn [bind]. eexists. eexists. split; [reflexivity |]. split.
  - rewrite !length_app, !repeat_length. reflexivity.
  - unfold synthesis_nonempty. fold m. cbn [existsb]. rewrite !orb_true_iff.
    intros Hfill Hnil. apply (f_equal (@length Z)) in Hnil.
    rewrite !length_app, !repeat_length in Hnil. cbn [length] in Hnil.
    destruct Hfill as [Hf | [Hf | [Hf | [Hf | Hf]]]]; try discriminate Hf;
      apply Z.leb_le in Hf;
      [specialize (H11 Ht Hf) | specialize (H10 Ht Hf)
       | specialize (H01 Ht Hf) | specialize (H00 Ht Hf)]; lia.
Qed.

Section ExactComparison.

Variable norm_ppf : xreal -> xreal.

Lemma compare_pair_exact (exp1 exp2 : experiment) :
  (0 < experiment_total exp1)%Z -> synthesis_nonempty exp1 exp2 = true ->
  exists entry, forall kappa_results,
    compare_pair norm_ppf exp1 exp2 kappa_results
    = Ok (<[comparison_key exp1 exp2 := entry]> kappa_results).
Proof.
  intros Ht Hfill. unfold compare_pair.
  destruct (synthesize_exact exp1 exp2 Ht) as (rater1 & rater2 & -> & Hlen & Hne).
  cbn [bind fst snd].
  destruct (calculate_cohens_kappa_total norm_ppf rater1 rater2 (fdec 95 100)
              Hlen (Hne Hfill)) as (r & ->).
  cbn [bind]. eexists. intros kappa_results. reflexivity.
Qed.

(** C4 (as amended): for three experiments with positive totals, if every
    pair synthesizes a non-empty rater sequence and the three keys
    "name_i vs name_j" are pairwise different, [compare_techniques] renders a
    kappa table with exactly three entries, one under each key.  (Stated in
    exact arithmetic.) *)
Theorem three_experiments_three_entries (experiment_ids : list Z)
    (exp1 exp2 exp3 : experiment) :
  (2 <= length experiment_ids)%nat ->
  (0 < experiment_total exp1)%Z -> (0 < experiment_total exp2)%Z ->
  (0 < experiment_total exp3)%Z ->
  synthesis_nonempty exp1 exp2 = true ->
  synthesis_nonempty exp1 exp3 = true ->
  synthesis_nonempty exp2 exp3 = true ->
  comparison_key exp1 exp2 <> comparison_key exp1 exp3 ->
  comparison_key exp1 exp2 <> comparison_key exp2 exp3 ->
  comparison_key exp1 exp3 <> comparison_key exp2 exp3 ->
  exists kappa_results,
    compare_techniques norm_ppf experiment_ids [exp1; exp2; exp3] = Rendered kappa_results
    /\ size kappa_results = 3%nat
    /\ is_Some (kappa_results !! comparison_key exp1 exp2)
    /\ is_Some (kappa_results !! comparison_key exp1 exp3)
    /\ is_Some (kappa_results !! comparison_key exp2 exp3).
Proof.
  intros Hids Ht1 Ht2 Ht3 H12 H13 H23 K1 K2 K3.
  unfold compare_techniques.
  destruct (Nat.ltb_spec (length experiment_ids) 2) as [Hlt | _]; [lia |].
  cbn [length Nat.ltb Nat.leb compare_all compare_with_rest].
  destruct (compare_pair_exact exp1 exp2 Ht1 H12) as (v12 & E12).
  destruct (compare_pair_exact exp1 exp3 Ht1 H13) as (v13 & E13).
  destruct (compare_pair_exact exp2 exp3 Ht2 H23) as (v23 & E23).
  rewrite E12. cbn [bind]. rewrite E13. cbn [bind]. rewrite E23. cbn [bind].
  eexists. split; [reflexivity |]. split.
  - rewrite !map_size_insert_None; [rewrite map_size_empty; reflexivity | | |].
    + apply lookup_empty.
    + rewrite lookup_insert_ne by congruence. apply lookup_empty.
    + rewrite lookup_insert_ne by congruence.
      rewrite lookup_insert_ne by congruence.
      apply lookup_empty.
  - repeat split.
    + rewrite lookup_insert_ne by congruence.
      rewrite lookup_insert_ne by congruence.
      rewrite lookup_insert_eq. eauto.
    + rewrite lookup_insert_ne by congruence.
      rewrite lookup_insert_eq. eauto.
    + rewrite lookup_insert_eq. eauto.
Qed.

End ExactComparison.

Lemma three_experiments_three_entries_witness :
  exists kappa_results,
    compare_techniques critical_95 [1; 2; 3]%Z
      [make_experiment "A" 85 3 92 5; make_experiment "B" 40 2 50 8;
       make_experiment "C" 10 1 10 1]
      = Rendered kappa_results
    /\ size kappa_results = 3%nat
    /\ is_Some (kappa_results !! "A vs B"%string)
    /\ is_Some (kappa_results !! "A vs C"%string)
    /\ is_Some (kappa_results !! "B vs C"%string).
Proof.
  apply (three_experiments_three_entries critical_95 [1; 2; 3]%Z
           (make_experiment "A" 85 3 92 5) (make_experiment "B" 40 2 50 8)
           (make_experiment "C" 10 1 10 1));
    first [reflexivity | cbn; lia | discriminate].
Defined.

(** C4, the claim as stated fails: three experiments with positive totals
    whose first pair synthesizes empty sequences get no table at all, and
    three experiments named "a vs b", "a" and "b vs a" get a table with two
    entries, because two pairs share the key "a vs b vs a". *)
Lemma three_experiments_fewer_entries :
  compare_techniques Binary64.norm_ppf [1; 2; 3]%Z
    [make_experiment "A" 1 1 1 1; make_experiment "B" 1 0 0 0;
     make_experiment "C" 2 0 0 0]
    = Redirected "Error performing technique comparison"
  /\ exists kappa_results,
       compare_techniques Binary64.norm_ppf [1; 2; 3]%Z
         [make_experiment "a vs b" 1 0 0 0; make_experiment "a" 1 0 0 0;
          make_experiment "b vs a" 1 0 0 0]
         = Rendered kappa_results
       /\ size kappa_results = 2%nat.
Proof.
  split; [vm_compute; reflexivity |].
  eexists. split; [vm_compute; reflexivity | vm_compute; reflexivity].
Qed.

Lemma quarter_stratum_empty : stratum (F := xreal) 1 4 1 = Ok 0%nat.
Proof.
  unfold stratum. rewrite int_div_exact by lia. cbn [bind]. xnorm.
  rewrite xmul_Fin. cbn [xtrunc bind]. rewrite Rneg_false by lra.
  rewrite (Zfloor_eq 0) by lra. reflexivity.
Qed.

(** C10: experiment A with tp = fp = fn = tn = 1 and experiment B with total 1
    both have a positive total, yet for the pair (A, B) each of the four
    strata has length floor(1/4 * 1) = 0, the two rater sequences are empty,
    [calculate_cohens_kappa] raises its empty-input error, and the handler
    answers with the error redirection instead of a kappa entry.  (Evaluated
    in binary64; the synthesis and the failure of the pair are the same in
    exact arithmetic.) *)
Theorem empty_synthesis_fails_pair :
  let expA := make_experiment "A" 1 1 1 1 in
  let expB := make_experiment "B" 1 0 0 0 in
  (0 < experiment_total expA)%Z /\ (0 < experiment_total expB)%Z
  /\ Forall (fun count =>
               stratum (F := float) count (experiment_total expA)
                 (Z.min (experiment_total expA) (experiment_total expB)) = Ok 0%nat)
            [true_positive expA; false_positive expA;
             false_negative expA; true_negative expA]
  /\ synthesize (F := float) expA expB = Ok ([], [])
  /\ compare_pair Binary64.norm_ppf expA expB ∅
     = Raise (ValueError "Rater arrays cannot be empty")
  /\ compare_techniques Binary64.norm_ppf [1; 2]%Z [expA; expB]
     = Redirected "Error performing technique comparison"
  /\ synthesize (F := xreal) expA expB = Ok ([], [])
  /\ forall norm_ppf : xreal -> xreal,
       compare_pair norm_ppf expA expB ∅
       = Raise (ValueError "Rater arrays cannot be empty").
Proof.
  intros expA expB.
  assert (Hsyn : synthesize (F := xreal) expA expB = Ok ([], [])).
  { unfold synthesize, expA, expB.
    change (experiment_total (make_experiment "A" 1 1 1 1)) with 4%Z.
    change (experiment_total (make_experiment "B" 1 0 0 0)) with 1%Z.
    change (true_positive (make_experiment "A" 1 1 1 1)) with 1%Z.
    change (false_positive (make_experiment "A" 1 1 1 1)) with 1%Z.
    change (false_negative (make_experiment "A" 1 1 1 1)) with 1%Z.
    change (true_negative (make_experiment "A" 1 1 1 1)) with 1%Z.
    change (Z.min 4 1) with 1%Z.
    rewrite quarter_stratum_empty. reflexivity. }
  split; [reflexivity |]. split; [reflexivity |].
  split; [repeat constructor; vm_compute; reflexivity |].
  split; [vm_compute; reflexivity |].
  split; [vm_compute; reflexivity |].
  split; [vm_compute; reflexivity |].
  split; [exact Hsyn |].
  intros norm_ppf. unfold compare_pair. rewrite Hsyn. reflexivity.
Qed.

(** * Further properties of the statistics engine *)

(** ** The input checks of [calculate_cohens_kappa] *)

(** X1: [calculate_cohens_kappa] raises "Rater arrays must have the same
    length" exactly when the two lengths differ, and "Rater arrays cannot be
    empty" exactly when both sequences are empty; the length check comes
    first, so an empty sequence against a non-empty one reports the
    mismatch. *)
Theorem cohens_kappa_input_errors {F : Type} `{FloatOps F} (norm_ppf : F -> F)
    (rater1 rater2 : list Z) (c : F) :
  (calculate_cohens_kappa norm_ppf rater1 rater2 c
     = Raise (ValueError "Rater arrays must have the same length")
   <-> length rater1 <> length rater2)
  /\ (calculate_cohens_kappa norm_ppf rater1 rater2 c
        = Raise (ValueError "Rater arrays cannot be empty")
      <-> rater1 = [] /\ rater2 = []).
Proof.
  unfold calculate_cohens_kappa.
  destruct (Nat.eqb_spec (length rater1) (length rater2)) as [Hlen | Hlen];
    cbn [negb].
  - destruct (Nat.eqb_spec (length rater1) 0) as [H0 | H0].
    + split; split; try discriminate; try congruence.
      * intros _. split; apply length_zero_iff_nil; congruence.
    + match goal with
      | |- context [bind ?m ?k] =>
          assert (Hr : raises_only arithmetic_error (bind m k));
          [ apply raises_only_bind;
            [ destruct (feq _ _); [exact I | apply math_sqrt_raises]
            | intros ?; exact I ]
          | destruct (bind m k) as [r | e] ]
      end.
      * split; split; try discriminate; try contradiction.
        intros [-> _]. exfalso. apply H0. reflexivity.
      * split; split; try contradiction.
        -- intros E. injection E as ->. destruct Hr as [Hr | Hr]; discriminate Hr.
        -- intros E. injection E as ->. destruct Hr as [Hr | Hr]; discriminate Hr.
        -- intros [-> _]. exfalso. apply H0. reflexivity.
  - split; split; try discriminate; try congruence.
    + intros [-> ->]. exfalso. apply Hlen. reflexivity.
Qed.


(** ** Observed and expected agreement are probabilities *)

Lemma Zsum_map_add {A : Type} (f g : A -> Z) (l : list A) :
  Zsum (map (fun c => (f c + g c)%Z) l) = (Zsum (map f l) + Zsum (map g l))%Z.
Proof. induction l as [| a t IH]; cbn [map Zsum fold_right]; [reflexivity | ]. unfold Zsum in *. cbn. lia. Qed.

Lemma Zsum_map_nonneg {A : Type} (f : A -> Z) (l : list A) :
  (forall c, (0 <= f c)%Z) -> (0 <= Zsum (map f l))%Z.
Proof.
  intros Hf. apply Zsum_nonneg, List.Forall_forall. intros s Hs.
  apply in_map_iff in Hs. destruct Hs as (c & <- & _). apply Hf.
Qed.

Lemma Zsum_map_le {A : Type} (f g : A -> Z) (l : list A) :
  (forall c, (f c <= g c)%Z) -> (Zsum (map f l) <= Zsum (map g l))%Z.
Proof.
  intros Hfg. induction l as [| a t IH]; unfold Zsum in *; cbn; [lia |].
  specialize (Hfg a). lia.
Qed.

(** In a list without repetition a label is counted once. *)
Lemma Zsum_indicator (a : Z) (categories : list Z) :
  List.NoDup categories ->
  Zsum (map (fun cat => if (a =? cat)%Z then 1%Z else 0%Z) categories)
  = if In_dec Z.eq_dec a categories then 1%Z else 0%Z.
Proof.
  induction 1 as [| c t Hc Hnd IH]; [reflexivity |].
  unfold Zsum in *. cbn [map fold_right]. rewrite IH.
  destruct (Z.eqb_spec a c) as [-> | Hne].
  - destruct (In_dec Z.eq_dec c t) as [Hin | _]; [contradiction |].
    destruct (In_dec Z.eq_dec c (c :: t)) as [_ | Hn]; [reflexivity |].
    exfalso. apply Hn. left. reflexivity.
  - destruct (In_dec Z.eq_dec a t) as [Hin | Hnin];
      destruct (In_dec Z.eq_dec a (c :: t)) as [Hin' | Hnin']; try reflexivity.
    + exfalso. apply Hnin'. right. exact Hin.
    + exfalso. destruct Hin' as [E | Hin']; [apply Hne; symmetry; exact E | contradiction].
Qed.

Lemma np_unique_NoDup (l : list Z) : List.NoDup (np_unique l).
Proof.
  pose proof (np_unique_sorted l) as Hs.
  induction Hs as [| a t Hs IH Hall]; constructor; [| exact IH].
  intros Hin. rewrite List.Forall_forall in Hall. specialize (Hall a Hin). lia.
Qed.

Lemma Zsum_map_zero {A : Type} (l : list A) : Zsum (map (fun _ => 0%Z) l) = 0%Z.
Proof. induction l as [| a t IH]; unfold Zsum in *; cbn; [reflexivity | lia]. Qed.

Lemma Zsum_In_le (x : Z) (l : list Z) :
  Forall (fun s => (0 <= s)%Z) l -> In x l -> (x <= Zsum l)%Z.
Proof.
  induction 1 as [| a t Ha Ht IH]; intros Hin; [contradiction |].
  pose proof (Zsum_nonneg t Ht) as Hn. unfold Zsum in *. cbn.
  destruct Hin as [-> | Hin]; [lia | specialize (IH Hin); lia].
Qed.

Lemma np_trace_le (categories rater1 rater2 : list Z) :
  List.NoDup categories ->
  (np_trace categories rater1 rater2 <= Z.of_nat (length rater1))%Z.
Proof.
  intros Hnd. unfold np_trace. revert rater2.
  induction rater1 as [| a r1 IH]; intros rater2.
  - cbn [contingency]. rewrite Zsum_map_zero. cbn. lia.
  - destruct rater2 as [| b r2].
    + cbn [contingency]. rewrite Zsum_map_zero. lia.
    + cbn [contingency]. rewrite Zsum_map_add. specialize (IH r2).
      assert (Hind : (Zsum (map (fun cat => if (a =? cat)%Z && (b =? cat)%Z
                                           then 1%Z else 0%Z) categories) <= 1)%Z).
      { etransitivity.
        - apply (Zsum_map_le _ (fun cat => if (a =? cat)%Z then 1%Z else 0%Z)).
          intros cat. destruct (a =? cat)%Z, (b =? cat)%Z; cbn; lia.
        - rewrite (Zsum_indicator a categories Hnd).
          destruct (In_dec Z.eq_dec a categories); lia. }
      cbn [length]. lia.
Qed.

Lemma np_trace_nonneg (categories rater1 rater2 : list Z) :
  (0 <= np_trace categories rater1 rater2)%Z.
Proof. apply Zsum_map_nonneg. intros cat. apply contingency_nonneg. Qed.

Lemma np_trace_identical (categories rater : list Z) :
  List.NoDup categories -> (forall x, In x rater -> In x categories) ->
  np_trace categories rater rater = Z.of_nat (length rater).
Proof.
  intros Hnd. unfold np_trace. induction rater as [| a r IH]; intros Hin.
  - cbn [contingency]. apply Zsum_map_zero.
  - cbn [contingency]. rewrite Zsum_map_add, IH by (intros x Hx; apply Hin; right; exact Hx).
    rewrite (map_ext _ (fun cat => if (a =? cat)%Z then 1%Z else 0%Z))
      by (intros cat; destruct (a =? cat)%Z; reflexivity).
    rewrite (Zsum_indicator a categories Hnd).
    destruct (In_dec Z.eq_dec a categories) as [_ | Hn]; [cbn [length]; lia |].
    exfalso. apply Hn, Hin. left. reflexivity.
Qed.

Lemma sum_axis1_total (categories rater1 rater2 : list Z) :
  List.NoDup categories -> length rater1 = length rater2 ->
  (forall x, In x rater1 -> In x categories) ->
  (forall x, In x rater2 -> In x categories) ->
  Zsum (sum_axis1 categories rater1 rater2) = Z.of_nat (length rater1).
Proof.
  intros Hnd. unfold sum_axis1. revert rater2.
  induction rater1 as [| a r1 IH]; intros [| b r2] Hlen H1 H2; try discriminate Hlen.
  - cbn [contingency].
    rewrite (map_ext _ (fun _ => 0%Z)) by (intros cat; apply Zsum_map_zero).
    apply Zsum_map_zero.
  - cbn [contingency].
    rewrite (map_ext _ (fun cat1 =>
               ((if (a =? cat1)%Z then 1 else 0)
                + Zsum (map (fun cat2 => contingency cat1 cat2 r1 r2) categories))%Z)).
    + rewrite Zsum_map_add, IH.
      * rewrite (Zsum_indicator a categories Hnd).
        destruct (In_dec Z.eq_dec a categories) as [_ | Hn]; [cbn [length]; lia |].
        exfalso. apply Hn, H1. left. reflexivity.
      * cbn in Hlen. lia.
      * intros x Hx. apply H1. right. exact Hx.
      * intros x Hx. apply H2. right. exact Hx.
    + intros cat1. rewrite Zsum_map_add. f_equal.
      destruct (a =? cat1)%Z; cbn [andb].
      * rewrite (Zsum_indicator b categories Hnd).
        destruct (In_dec Z.eq_dec b categories) as [_ | Hn]; [reflexivity |].
        exfalso. apply Hn, H2. left. reflexivity.
      * apply Zsum_map_zero.
Qed.

(** The sum of the products of the marginals. *)
Lemma marginal_products_bound (n : Z) (rows cols : list Z) (a : R) :
  (0 < n)%Z ->
  Forall (fun s => (0 <= s)%Z) rows -> Forall (fun s => (0 <= s <= n)%Z) cols ->
  exists s,
    fold_left fadd
      (zip_with fmul (map (fun s => fdiv (fint s) (fint n)) rows)
                     (map (fun s => fdiv (fint s) (fint n)) cols)) (Fin a) = Fin s
    /\ a <= s <= a + IZR (Zsum rows) / IZR n.
Proof.
  intros Hn Hrows. revert cols a.
  assert (Hn' : 0 < IZR n) by (apply IZR_lt; exact Hn).
  assert (Hinv : 0 < / IZR n) by (apply Rinv_0_lt_compat; exact Hn').
  induction Hrows as [| r t Hr Ht IH]; intros cols a Hcols.
  - cbn. exists a. split; [reflexivity |]. unfold Rdiv. rewrite Rmult_0_l. lra.
  - pose proof (Zsum_nonneg t Ht) as Hsum.
    assert (Hsum' : 0 <= IZR (Zsum t) / IZR n).
    { apply Rmult_le_pos; [apply IZR_le; exact Hsum | lra]. }
    assert (Hr' : 0 <= IZR r / IZR n).
    { apply Rmult_le_pos; [apply IZR_le; exact Hr | lra]. }
    assert (Hsplit : IZR (Zsum (r :: t)) / IZR n = IZR r / IZR n + IZR (Zsum t) / IZR n).
    { unfold Zsum. cbn [fold_right]. rewrite plus_IZR. field. lra. }
    destruct Hcols as [| c u Hc Hu].
    + cbn [map zip_with fold_left]. exists a. split; [reflexivity |]. rewrite Hsplit. lra.
    + cbn [map zip_with fold_left]. xnorm. rewrite !xdiv_Fin by lra.
      rewrite xmul_Fin, xadd_Fin.
      destruct (IH u (a + IZR r / IZR n * (IZR c / IZR n)) Hu) as (s & -> & Hs).
      exists s. split; [reflexivity |].
      assert (Hc' : 0 <= IZR c / IZR n <= 1).
      { split.
        - apply Rmult_le_pos; [apply IZR_le; lia | lra].
        - apply Rmult_le_reg_r with (IZR n); [exact Hn' |].
          unfold Rdiv. rewrite Rmult_assoc, Rinv_l by lra.
          rewrite Rmult_1_r, Rmult_1_l. apply IZR_le. lia. }
      rewrite Hsplit. nra.
Qed.

Lemma categories_cover (rater1 rater2 : list Z) :
  (forall x, In x rater1 -> In x (np_unique (rater1 ++ rater2)))
  /\ (forall x, In x rater2 -> In x (np_unique (rater1 ++ rater2))).
Proof.
  split; intros x Hx; apply In_np_unique, in_app_iff; [left | right]; exact Hx.
Qed.

Lemma p_observed_exact (rater1 rater2 : list Z) :
  rater1 <> [] ->
  exists po, p_observed (F := xreal) rater1 rater2 = Fin po /\ 0 <= po <= 1.
Proof.
  intros Hne. unfold p_observed.
  set (cats := np_unique (rater1 ++ rater2)).
  pose proof (np_trace_le cats rater1 rater2 (np_unique_NoDup _)) as Hle.
  pose proof (np_trace_nonneg cats rater1 rater2) as Hge.
  assert (Hn : 0 < IZR (Z.of_nat (length rater1))).
  { apply IZR_lt. destruct rater1; [contradiction | cbn; lia]. }
  xnorm. rewrite xdiv_Fin by lra. eexists. split; [reflexivity |].
  apply IZR_le in Hle, Hge. split.
  - apply Rmult_le_pos; [exact Hge | left; apply Rinv_0_lt_compat; exact Hn].
  - apply Rmult_le_reg_r with (IZR (Z.of_nat (length rater1))); [exact Hn |].
    unfold Rdiv. rewrite Rmult_assoc, Rinv_l by lra. lra.
Qed.

Lemma p_observed_identical (rater : list Z) :
  rater <> [] -> p_observed (F := xreal) rater rater = Fin 1.
Proof.
  intros Hne. unfold p_observed.
  rewrite np_trace_identical
    by (try apply np_unique_NoDup; apply (categories_cover rater rater)).
  assert (Hn : 0 < IZR (Z.of_nat (length rater))).
  { apply IZR_lt. destruct rater; [contradiction | cbn; lia]. }
  xnorm. rewrite xdiv_Fin by lra. f_equal. field. lra.
Qed.

Lemma p_expected_bounds (rater1 rater2 : list Z) :
  length rater1 = length rater2 -> rater1 <> [] ->
  exists pe, p_expected (F := xreal) rater1 rater2 = Fin pe /\ 0 <= pe <= 1.
Proof.
  intros Hlen Hne. unfold p_expected, np_sum.
  set (cats := np_unique (rater1 ++ rater2)).
  assert (Hn : (0 < Z.of_nat (length rater1))%Z).
  { destruct rater1; [contradiction | cbn; lia]. }
  destruct (categories_cover rater1 rater2) as [H1 H2]. fold cats in H1, H2.
  assert (Hnd : List.NoDup cats) by apply np_unique_NoDup.
  pose proof (sum_axis1_total cats rater1 rater2 Hnd Hlen H1 H2) as Hrows.
  assert (Hcols : Zsum (sum_axis0 cats rater1 rater2) = Z.of_nat (length rater1)).
  { rewrite <- sum_axis_swap, Hlen. apply sum_axis1_total; auto. }
  destruct (marginal_products_bound (Z.of_nat (length rater1))
              (sum_axis1 cats rater1 rater2) (sum_axis0 cats rater1 rater2) 0 Hn)
    as (s & Hs & Hs0 & Hs1).
  - apply sum_axis1_nonneg.
  - pose proof (sum_axis0_nonneg cats rater1 rater2) as Hnn.
    apply List.Forall_forall. intros x Hx. split.
    + revert x Hx. apply List.Forall_forall. exact Hnn.
    + rewrite <- Hcols. apply Zsum_In_le; assumption.
  - exists s. split; [exact Hs |]. split; [exact Hs0 |].
    rewrite Hrows in Hs1. unfold Rdiv in Hs1. rewrite Rinv_r in Hs1; [lra |].
    apply not_0_IZR. lia.
Qed.

Section KappaRanges.

Variable norm_ppf : xreal -> xreal.

(** X2: in exact arithmetic, for two rater sequences of the same non-zero
    length [calculate_cohens_kappa] returns a result whose observed and
    expected agreement are finite numbers between 0 and 1 and whose standard
    error is a finite number that is not negative; when the two sequences are
    the same sequence the observed agreement is exactly 1. *)
Theorem agreement_proportions_in_unit_interval (rater1 rater2 : list Z) (c : xreal) :
  length rater1 = length rater2 -> rater1 <> [] ->
  exists r po pe se,
    calculate_cohens_kappa norm_ppf rater1 rater2 c = Ok r
    /\ observed_agreement r = Fin po /\ 0 <= po <= 1
    /\ expected_agreement r = Fin pe /\ 0 <= pe <= 1
    /\ standard_error r = Fin se /\ 0 <= se
    /\ (rater1 = rater2 -> po = 1).
Proof.
  intros Hlen Hne.
  destruct (calculate_cohens_kappa_total norm_ppf rater1 rater2 c Hlen Hne) as (r & Hr).
  destruct (calculate_cohens_kappa_Ok_inv _ _ _ _ _ Hr)
    as (_ & _ & _ & Hpo & Hpe & Hse).
  destruct (p_observed_exact rater1 rater2 Hne) as (po & Epo & Bpo).
  destruct (p_expected_bounds rater1 rater2 Hlen Hne) as (pe & Epe & Bpe).
  assert (Hn : 0 < IZR (Z.of_nat (length rater1))).
  { apply IZR_lt. destruct rater1; [contradiction | cbn; lia]. }
  assert (Hs : exists se, standard_error r = Fin se /\ 0 <= se).
  { rewrite Epe in Hse. xnorm.
    destruct (Req_dec pe 1) as [-> | Hpe1].
    - rewrite (proj2 (xeq_Fin_spec 1 1) eq_refl) in Hse.
      destruct Hse as [Hse _]. injection Hse as <-. exists 0. split; [reflexivity | lra].
    - destruct (xeq (Fin pe) (Fin 1)) eqn:Heq.
      { apply xeq_Fin_spec in Heq. contradiction. }
      rewrite !xsub_Fin, !xmul_Fin in Hse.
      assert (Hden : 0 < IZR (Z.of_nat (length rater1)) * ((1 - pe) * (1 - pe))).
      { apply Rmult_lt_0_compat; [exact Hn | nra]. }
      rewrite xdiv_Fin in Hse by lra.
      rewrite math_sqrt_exact in Hse.
      + destruct Hse as [Hse _]. injection Hse as <-. eexists. split; [reflexivity |].
        apply sqrt_pos.
      + apply Rmult_le_pos; [lra | left; apply Rinv_0_lt_compat; exact Hden]. }
  destruct Hs as (se & Ese & Bse).
  exists r, po, pe, se. rewrite Hpo, Hpe.
  repeat split; try assumption; try lra.
  intros <-. rewrite (p_observed_identical rater1 Hne) in Epo. congruence.
Qed.

End KappaRanges.

Lemma agreement_proportions_in_unit_interval_witness :
  exists r po pe se,
    calculate_cohens_kappa critical_95 [1; 0; 1]%Z [1; 1; 0]%Z (Fin (95 / 100)) = Ok r
    /\ observed_agreement r = Fin po /\ 0 <= po <= 1
    /\ expected_agreement r = Fin pe /\ 0 <= pe <= 1
    /\ standard_error r = Fin se /\ 0 <= se
    /\ ([1; 0; 1]%Z = [1; 1; 0]%Z -> po = 1).
Proof.
  apply (agreement_proportions_in_unit_interval critical_95 [1; 0; 1]%Z [1; 1; 0]%Z);
    [reflexivity | discriminate].
Defined.

(** ** More on the corrections for multiple comparisons *)

Section CorrectionShape.

Context {F : Type} `{FloatOps F}.

Lemma length_assign_ranked (f : nat -> nat -> F) (i : nat) (sorted_indices : list nat)
    (corrected : list F) :
  length (assign_ranked f i sorted_indices corrected) = length corrected.
Proof.
  revert i corrected. induction sorted_indices as [| idx rest IH]; intros i corrected;
    cbn [assign_ranked]; [reflexivity |].
  rewrite IH. apply length_insert.
Qed.

Lemma length_scatter (sorted_indices : list nat) (values corrected : list F) :
  length (scatter sorted_indices values corrected) = length corrected.
Proof.
  revert values corrected.
  induction sorted_indices as [| idx rest IH]; intros [| v values] corrected;
    cbn [scatter]; try reflexivity.
  rewrite IH. apply length_insert.
Qed.

Lemma insert_index_perm (p_array : list F) (idx : nat) (sorted : list nat) :
  Permutation (insert_index p_array idx sorted) (idx :: sorted).
Proof.
  induction sorted as [| j rest IH]; cbn [insert_index]; [reflexivity |].
  destruct (flt _ _); [reflexivity |].
  rewrite IH. apply perm_swap.
Qed.

Lemma fold_insert_index_perm (p_array : list F) (indices sorted : list nat) :
  Permutation (fold_left (fun sorted idx => insert_index p_array idx sorted) indices sorted)
              (indices ++ sorted).
Proof.
  revert sorted. induction indices as [| idx rest IH]; intros sorted;
    cbn [fold_left app]; [reflexivity |].
  rewrite IH, insert_index_perm. symmetry. apply Permutation_middle.
Qed.

Lemma np_argsort_perm (p_array : list F) :
  Permutation (np_argsort p_array) (seq 0 (length p_array)).
Proof.
  unfold np_argsort. rewrite fold_insert_index_perm, app_nil_r. reflexivity.
Qed.

Lemma length_np_argsort (p_array : list F) :
  length (np_argsort p_array) = length p_array.
Proof.
  rewrite (Permutation_length (np_argsort_perm p_array)). apply length_seq.
Qed.

Lemma length_holm (p_array : list F) : length (holm p_array) = length p_array.
Proof.
  unfold holm. rewrite length_scatter, length_assign_ranked. apply repeat_length.
Qed.

Lemma length_fdr_bh (p_array : list F) : length (fdr_bh p_array) = length p_array.
Proof.
  unfold fdr_bh. rewrite length_scatter, length_assign_ranked. apply repeat_length.
Qed.

Lemma length_bonferroni (p_array : list F) :
  length (bonferroni p_array) = length p_array.
Proof. unfold bonferroni. rewrite !List.length_map. reflexivity. Qed.

(** X3: for each of the three methods, 'bonferroni', 'holm' and 'fdr_bh',
    [calculate_multiple_comparisons_correction] returns normally for every
    list of p-values (the empty list included); the result carries the input
    list and the method unchanged, and its corrected p-values and its two
    lists of significance flags have exactly the length of the input. *)
Theorem correction_result_shape (p_values : list F) (m : string) :
  m = "bonferroni" \/ m = "holm" \/ m = "fdr_bh" ->
  exists r,
    calculate_multiple_comparisons_correction p_values m = Ok r
    /\ original_p_values r = p_values
    /\ method r = m
    /\ length (corrected_p_values r) = length p_values
    /\ length (significant_at_05 r) = length p_values
    /\ length (significant_at_01 r) = length p_values.
Proof.
  intros [-> | [-> | ->]]; unfold calculate_multiple_comparisons_correction;
    cbn [String.eqb Ascii.eqb Bool.eqb]; eexists; (split; [reflexivity |]);
    cbn [original_p_values method corrected_p_values significant_at_05 significant_at_01];
    rewrite !List.length_map;
    rewrite ?length_bonferroni, ?length_holm, ?length_fdr_bh; repeat split.
Qed.

End CorrectionShape.

Lemma correction_result_shape_witness :
  exists r,
    calculate_multiple_comparisons_correction (F := float) [0.04; 0.01; 0.03]%float "holm"
      = Ok r
    /\ original_p_values r = [0.04; 0.01; 0.03]%float
    /\ method r = "holm"
    /\ length (corrected_p_values r) = length [0.04; 0.01; 0.03]%float
    /\ length (significant_at_05 r) = length [0.04; 0.01; 0.03]%float
    /\ length (significant_at_01 r) = length [0.04; 0.01; 0.03]%float.
Proof.
  apply (correction_result_shape (F := float)). right. left. reflexivity.
Defined.

(** ** The step-down and step-up corrections in exact arithmetic *)

Lemma py_min_Fin (a b : R) : py_min (Fin a) (Fin b) = Fin (Rmin a b).
Proof.
  unfold py_min. xnorm. destruct (Rlt_dec b a) as [Hlt | Hge].
  - rewrite (xlt_Fin_true b a Hlt), Rmin_right by lra. reflexivity.
  - rewrite xlt_Fin_false, Rmin_left by lra. reflexivity.
Qed.

Lemma py_max_Fin (a b : R) : py_max (Fin a) (Fin b) = Fin (Rmax a b).
Proof.
  unfold py_max. xnorm. destruct (Rlt_dec a b) as [Hlt | Hge].
  - rewrite (xlt_Fin_true a b Hlt), Rmax_right by lra. reflexivity.
  - rewrite xlt_Fin_false, Rmax_left by lra. reflexivity.
Qed.

Lemma nth_map_Fin (i : nat) (ps : list R) :
  nth i (map Fin ps) (fint 0) = Fin (nth i ps 0).
Proof. exact (map_nth Fin ps 0 i). Qed.

Lemma finite_list (l : list xreal) :
  (forall k, (k < length l)%nat -> exists r, nth k l (Fin 0) = Fin r) ->
  exists rs, l = map Fin rs.
Proof.
  induction l as [| x t IH]; intros Hfin; [exists []; reflexivity |].
  destruct (Hfin 0%nat) as (r & Hr); [cbn; lia |]. cbn in Hr. subst x.
  destruct IH as (rs & ->).
  { intros k Hk. apply (Hfin (S k)). cbn. lia. }
  exists (r :: rs). reflexivity.
Qed.

Section ListUpdates.

Context {A : Type}.

Lemma nth_insert_eq (i : nat) (v d : A) (l : list A) :
  (i < length l)%nat -> nth i (<[i := v]> l) d = v.
Proof.
  intros Hi. rewrite nth_lookup, list_lookup_insert_eq by exact Hi. reflexivity.
Qed.

Lemma nth_insert_ne (i j : nat) (v d : A) (l : list A) :
  i <> j -> nth i (<[j := v]> l) d = nth i l d.
Proof.
  intros Hij. rewrite !nth_lookup, list_lookup_insert_ne by congruence. reflexivity.
Qed.

End ListUpdates.

Section RankedAssignment.

Context {F : Type} `{FloatOps F}.

Lemma assign_ranked_notin (f : nat -> nat -> F) (i j : nat) (sorted_indices : list nat)
    (corrected : list F) (d : F) :
  ~ In j sorted_indices ->
  nth j (assign_ranked f i sorted_indices corrected) d = nth j corrected d.
Proof.
  revert i corrected. induction sorted_indices as [| idx rest IH]; intros i corrected Hj;
    cbn [assign_ranked]; [reflexivity |].
  rewrite IH by (intros Hin; apply Hj; right; exact Hin).
  apply nth_insert_ne. intros ->. apply Hj. left. reflexivity.
Qed.

Lemma assign_ranked_nth (f : nat -> nat -> F) (i : nat) (sorted_indices : list nat)
    (corrected : list F) (d : F) (k : nat) :
  List.NoDup sorted_indices ->
  Forall (fun idx => (idx < length corrected)%nat) sorted_indices ->
  (k < length sorted_indices)%nat ->
  nth (nth k sorted_indices 0%nat) (assign_ranked f i sorted_indices corrected) d
  = f (i + k)%nat (nth k sorted_indices 0%nat).
Proof.
  revert i corrected k.
  induction sorted_indices as [| idx rest IH]; intros i corrected k Hnd Hlt Hk;
    [cbn in Hk; lia |].
  inversion Hnd as [| ? ? Hnotin Hnd']; subst.
  inversion Hlt as [| ? ? Hidx Hlt']; subst.
  cbn [assign_ranked]. destruct k as [| k]; cbn [nth].
  - rewrite assign_ranked_notin by exact Hnotin.
    rewrite nth_insert_eq by exact Hidx. f_equal. lia.
  - rewrite IH; [f_equal; lia | exact Hnd' | | cbn in Hk; lia].
    revert Hlt'. apply List.Forall_impl. intros a Ha. rewrite length_insert. exact Ha.
Qed.

Lemma scatter_notin (j : nat) (sorted_indices : list nat) (values corrected : list F)
    (d : F) :
  ~ In j sorted_indices ->
  nth j (scatter sorted_indices values corrected) d = nth j corrected d.
Proof.
  revert values corrected.
  induction sorted_indices as [| idx rest IH]; intros [| v values] corrected Hj;
    cbn [scatter]; try reflexivity.
  rewrite IH by (intros Hin; apply Hj; right; exact Hin).
  apply nth_insert_ne. intros ->. apply Hj. left. reflexivity.
Qed.

Lemma scatter_nth (sorted_indices : list nat) (values corrected : list F) (d : F)
    (k : nat) :
  List.NoDup sorted_indices ->
  Forall (fun idx => (idx < length corrected)%nat) sorted_indices ->
  length values = length sorted_indices ->
  (k < length sorted_indices)%nat ->
  nth (nth k sorted_indices 0%nat) (scatter sorted_indices values corrected) d
  = nth k values d.
Proof.
  revert values corrected k.
  induction sorted_indices as [| idx rest IH]; intros values corrected k Hnd Hlt Hlen Hk;
    [cbn in Hk; lia |].
  destruct values as [| v values]; [discriminate Hlen |].
  inversion Hnd as [| ? ? Hnotin Hnd']; subst.
  inversion Hlt as [| ? ? Hidx Hlt']; subst.
  cbn [scatter]. destruct k as [| k]; cbn [nth].
  - rewrite scatter_notin by exact Hnotin. apply nth_insert_eq. exact Hidx.
  - apply IH; [exact Hnd' | | cbn in Hlen; lia | cbn in Hk; lia].
    revert Hlt'. apply List.Forall_impl. intros a Ha. rewrite length_insert. exact Ha.
Qed.

(** What the indices returned by [np.argsort] are: each position of the
    array, once. *)
Lemma np_argsort_indices (p_array : list F) :
  List.NoDup (np_argsort p_array)
  /\ Forall (fun idx => (idx < length p_array)%nat) (np_argsort p_array)
  /\ (forall i, (i < length p_array)%nat ->
        exists k, (k < length p_array)%nat /\ nth k (np_argsort p_array) 0%nat = i).
Proof.
  pose proof (np_argsort_perm p_array) as Hperm. repeat split.
  - apply (Permutation_NoDup (Permutation_sym Hperm)), List.seq_NoDup.
  - apply List.Forall_forall. intros idx Hidx.
    apply (Permutation_in _ Hperm), in_seq in Hidx. lia.
  - intros i Hi.
    assert (Hin : In i (np_argsort p_array)).
    { apply (Permutation_in _ (Permutation_sym Hperm)), in_seq. lia. }
    destruct (In_nth _ _ 0%nat Hin) as (k & Hk & Hnth).
    exists k. rewrite length_np_argsort in Hk. split; assumption.
Qed.

(** The three steps shared by 'holm' and 'fdr_bh': the ranked assignment,
    the pass over the values in sorted order, and the write back. *)
Lemma ranked_pipeline (p_array : list F) (f : nat -> nat -> F)
    (pass : list F -> list F) (d : F) :
  let sorted_indices := np_argsort p_array in
  let corrected :=
    assign_ranked f 0 sorted_indices (repeat (fint 0) (length p_array)) in
  let sorted_corrected := pass (gather corrected sorted_indices) in
  length sorted_corrected = length p_array ->
  (forall k, (k < length p_array)%nat ->
     nth k (gather corrected sorted_indices) d = f k (nth k sorted_indices 0%nat))
  /\ (forall k, (k < length p_array)%nat ->
        nth (nth k sorted_indices 0%nat)
            (scatter sorted_indices sorted_corrected corrected) d
        = nth k sorted_corrected d).
Proof.
  intros sorted_indices corrected sorted_corrected Hlen.
  destruct (np_argsort_indices p_array) as (Hnd & Hlt & _).
  fold sorted_indices in Hnd, Hlt.
  assert (Hn : length sorted_indices = length p_array) by apply length_np_argsort.
  split; intros k Hk.
  - unfold gather.
    rewrite (nth_indep _ d (nth 0 corrected (fint 0)))
      by (rewrite List.length_map; lia).
    rewrite (map_nth (fun idx => nth idx corrected (fint 0)) sorted_indices 0%nat k).
    unfold corrected. rewrite assign_ranked_nth; [reflexivity | exact Hnd | | lia].
    rewrite repeat_length. exact Hlt.
  - apply scatter_nth; [exact Hnd | | lia | lia].
    unfold corrected. rewrite length_assign_ranked, repeat_length. exact Hlt.
Qed.

End RankedAssignment.

Section SortedOrder.

Variable ps : list R.

Let by_p_value (i j : nat) : Prop := nth i ps 0 <= nth j ps 0.

Lemma insert_index_HdRel (j idx : nat) (sorted : list nat) :
  HdRel by_p_value j sorted -> by_p_value j idx ->
  HdRel by_p_value j (insert_index (map Fin ps) idx sorted).
Proof.
  intros Hhd Hj. destruct sorted as [| j' rest]; cbn [insert_index];
    [constructor; exact Hj |].
  destruct (flt _ _); constructor; [exact Hj |].
  inversion Hhd; assumption.
Qed.

Lemma insert_index_sorted (idx : nat) (sorted : list nat) :
  Sorted by_p_value sorted ->
  Sorted by_p_value (insert_index (map Fin ps) idx sorted).
Proof.
  induction 1 as [| j rest Hrest IH Hhd]; cbn [insert_index].
  - repeat constructor.
  - rewrite !nth_map_Fin. xnorm.
    destruct (xlt (Fin (nth idx ps 0)) (Fin (nth j ps 0))) eqn:Hlt.
    + apply xlt_Fin_spec in Hlt. constructor; [constructor; assumption |].
      constructor. unfold by_p_value. lra.
    + constructor; [exact IH |]. apply insert_index_HdRel; [exact Hhd |].
      unfold by_p_value. destruct (Rlt_dec (nth idx ps 0) (nth j ps 0)) as [Hc | Hc];
        [rewrite (xlt_Fin_true _ _ Hc) in Hlt; discriminate Hlt | lra].
Qed.

Lemma np_argsort_sorted : StronglySorted by_p_value (np_argsort (map Fin ps)).
Proof.
  apply Sorted_StronglySorted.
  { intros i j k Hij Hjk. unfold by_p_value in *. lra. }
  unfold np_argsort.
  assert (Hgen : forall indices sorted, Sorted by_p_value sorted ->
            Sorted by_p_value
              (fold_left (fun sorted idx => insert_index (map Fin ps) idx sorted)
                         indices sorted)).
  { induction indices as [| idx rest IH]; intros sorted Hs; cbn [fold_left];
      [exact Hs | apply IH, insert_index_sorted, Hs]. }
  apply Hgen. constructor.
Qed.

Lemma strongly_sorted_nth (l : list nat) (k m : nat) :
  StronglySorted by_p_value l -> (k <= m)%nat -> (m < length l)%nat ->
  by_p_value (nth k l 0%nat) (nth m l 0%nat).
Proof.
  intros Hs. revert k m. induction Hs as [| a t Ht IH Hall]; intros k m Hkm Hm;
    [cbn in Hm; lia |].
  destruct m as [| m].
  - replace k with 0%nat by lia. unfold by_p_value. cbn. lra.
  - destruct k as [| k]; cbn [nth].
    + rewrite List.Forall_forall in Hall. apply Hall, nth_In. cbn in Hm. lia.
    + apply IH; [lia | cbn in Hm; lia].
Qed.

(** The p-values read in the order of [np.argsort] do not decrease. *)
Lemma np_argsort_ascending (k m : nat) :
  (k <= m)%nat -> (m < length ps)%nat ->
  nth (nth k (np_argsort (map Fin ps)) 0%nat) ps 0
  <= nth (nth m (np_argsort (map Fin ps)) 0%nat) ps 0.
Proof.
  intros Hkm Hm. apply (strongly_sorted_nth _ k m np_argsort_sorted Hkm).
  rewrite length_np_argsort, List.length_map. exact Hm.
Qed.

End SortedOrder.

(** The two passes that restore the order of the corrected values. *)
Lemma forward_max_exact (rs : list R) (a : R) :
  exists os,
    forward_max (Fin a) (map Fin rs) = map Fin os
    /\ length os = length rs
    /\ forall k, (k < length rs)%nat ->
         a <= nth k os 0
         /\ nth k rs 0 <= nth k os 0
         /\ (forall B, a <= B -> (forall m, (m <= k)%nat -> nth m rs 0 <= B) ->
               nth k os 0 <= B)
         /\ (forall m, (k <= m)%nat -> (m < length rs)%nat -> nth k os 0 <= nth m os 0).
Proof.
  revert a. induction rs as [| r rest IH]; intros a.
  - exists []. repeat split; cbn in *; lia.
  - destruct (IH (Rmax r a)) as (os & Hos & Hlen & Hspec).
    exists (Rmax r a :: os). cbn [map forward_max]. rewrite py_max_Fin, Hos.
    split; [reflexivity |]. split; [cbn; lia |].
    intros k Hk. destruct k as [| k]; cbn [nth].
    + repeat split.
      * apply Rmax_r.
      * apply Rmax_l.
      * intros B Ha Hm. apply Rmax_lub; [apply (Hm 0%nat); lia | exact Ha].
      * intros m _ Hm. destruct m as [| m]; cbn [nth]; [lra |].
        apply (Hspec m). cbn in Hm. lia.
    + assert (Hk' : (k < length rest)%nat) by (cbn in Hk; lia).
      destruct (Hspec k Hk') as (H1 & H2 & H3 & H4).
      repeat split.
      * pose proof (Rmax_r r a). lra.
      * exact H2.
      * intros B Ha Hm. apply H3.
        -- apply Rmax_lub; [apply (Hm 0%nat); lia | exact Ha].
        -- intros m Hmk. apply (Hm (S m)). lia.
      * intros m Hkm Hm. destruct m as [| m]; [lia |]. cbn [nth].
        apply H4; [lia | cbn in Hm; lia].
Qed.

Lemma monotone_increasing_exact (rs : list R) :
  exists os,
    monotone_increasing (map Fin rs) = map Fin os
    /\ length os = length rs
    /\ forall k, (k < length rs)%nat ->
         nth k rs 0 <= nth k os 0
         /\ (forall B, (forall m, (m <= k)%nat -> nth m rs 0 <= B) -> nth k os 0 <= B)
         /\ (forall m, (k <= m)%nat -> (m < length rs)%nat -> nth k os 0 <= nth m os 0).
Proof.
  destruct rs as [| r rest].
  - exists []. repeat split; cbn in *; lia.
  - destruct (forward_max_exact rest r) as (os & Hos & Hlen & Hspec).
    exists (r :: os). cbn [map monotone_increasing]. rewrite Hos.
    split; [reflexivity |]. split; [cbn; lia |].
    intros k Hk. destruct k as [| k]; cbn [nth].
    + repeat split.
      * lra.
      * intros B Hm. apply (Hm 0%nat). lia.
      * intros m _ Hm. destruct m as [| m]; cbn [nth]; [lra |].
        apply (Hspec m). cbn in Hm. lia.
    + assert (Hk' : (k < length rest)%nat) by (cbn in Hk; lia).
      destruct (Hspec k Hk') as (H1 & H2 & H3 & H4).
      repeat split.
      * exact H2.
      * intros B Hm. apply H3; [apply (Hm 0%nat); lia |].
        intros m Hmk. apply (Hm (S m)). lia.
      * intros m Hkm Hm. destruct m as [| m]; [lia |]. cbn [nth].
        apply H4; [lia | cbn in Hm; lia].
Qed.

Lemma monotone_decreasing_exact (rs : list R) :
  exists os,
    monotone_decreasing (map Fin rs) = map Fin os
    /\ length os = length rs
    /\ forall k, (k < length rs)%nat ->
         nth k os 0 <= nth k rs 0
         /\ (forall B, (forall m, (k <= m)%nat -> (m < length rs)%nat -> B <= nth m rs 0) ->
               B <= nth k os 0)
         /\ (forall m, (k <= m)%nat -> (m < length rs)%nat -> nth k os 0 <= nth m os 0).
Proof.
  induction rs as [| r rest IH].
  - exists []. repeat split; cbn in *; lia.
  - destruct IH as (os & Hos & Hlen & Hspec).
    cbn [map monotone_decreasing]. rewrite Hos.
    destruct os as [| y tail].
    + destruct rest; [| discriminate Hlen].
      exists [r]. cbn [map]. split; [reflexivity |]. split; [reflexivity |].
      intros k Hk. cbn in Hk. replace k with 0%nat by lia. cbn [nth].
      repeat split.
      * lra.
      * intros B Hm. apply (Hm 0%nat); cbn; lia.
      * intros m Hkm Hm. cbn in Hm. replace m with 0%nat by lia. cbn. lra.
    + exists (Rmin r y :: y :: tail). cbn [map]. rewrite py_min_Fin.
      split; [reflexivity |]. split; [cbn in *; lia |].
      intros k Hk. destruct k as [| k]; cbn [nth].
      * assert (H0 : (0 < length rest)%nat) by (rewrite <- Hlen; cbn; lia).
        destruct (Hspec 0%nat H0) as (H1 & H2 & H3). cbn [nth] in H1, H2, H3.
        repeat split.
        -- apply Rmin_l.
        -- intros B Hm. apply Rmin_glb; [apply (Hm 0%nat); cbn; lia |].
           apply H2. intros m _ Hm'. apply (Hm (S m)); cbn; lia.
        -- intros m _ Hm. destruct m as [| m]; [cbn [nth]; lra |].
           change (Rmin r y <= nth m (y :: tail) 0).
           pose proof (Rmin_r r y) as Hr.
           assert (Hy : y <= nth m (y :: tail) 0) by (apply H3; [lia | cbn in Hm; lia]).
           lra.
      * assert (Hk' : (k < length rest)%nat) by (cbn in Hk; lia).
        destruct (Hspec k Hk') as (H1 & H2 & H3).
        repeat split.
        -- exact H1.
        -- intros B Hm. apply H2. intros m Hkm Hm'. apply (Hm (S m)); cbn; lia.
        -- intros m Hkm Hm. destruct m as [| m]; [lia |].
           change (nth k (y :: tail) 0 <= nth m (y :: tail) 0).
           apply H3; [lia | cbn in Hm; lia].
Qed.

Section PassLengths.

Context {F : Type} `{FloatOps F}.

Lemma length_forward_max (previous : F) (a : list F) :
  length (forward_max previous a) = length a.
Proof.
  revert previous. induction a as [| x rest IH]; intros previous; cbn; [reflexivity |].
  rewrite IH. reflexivity.
Qed.

Lemma length_monotone_increasing (a : list F) :
  length (monotone_increasing a) = length a.
Proof. destruct a; cbn; [reflexivity |]. rewrite length_forward_max. reflexivity. Qed.

Lemma length_monotone_decreasing (a : list F) :
  length (monotone_decreasing a) = length a.
Proof.
  induction a as [| x rest IH]; cbn [monotone_decreasing]; [reflexivity |].
  destruct (monotone_decreasing rest) as [| y tail]; cbn in *; lia.
Qed.

Lemma length_gather (corrected : list F) (sorted_indices : list nat) :
  length (gather corrected sorted_indices) = length sorted_indices.
Proof. apply List.length_map. Qed.

End PassLengths.

Lemma ranked_pipeline_exact (ps : list R) (f : nat -> nat -> xreal)
    (g : nat -> nat -> R) (pass : list xreal -> list xreal) :
  (forall k idx, f k idx = Fin (g k idx)) ->
  (forall a, length (pass a) = length a) ->
  let sorted_indices := np_argsort (map Fin ps) in
  let corrected :=
    assign_ranked f 0 sorted_indices (repeat (fint 0) (length (map Fin ps))) in
  exists rs,
    gather corrected sorted_indices = map Fin rs
    /\ length rs = length ps
    /\ (forall k, (k < length ps)%nat -> nth k rs 0 = g k (nth k sorted_indices 0%nat))
    /\ forall os, pass (map Fin rs) = map Fin os ->
         exists cs,
           scatter sorted_indices (pass (gather corrected sorted_indices)) corrected
             = map Fin cs
           /\ length cs = length ps
           /\ forall k, (k < length ps)%nat ->
                nth (nth k sorted_indices 0%nat) cs 0 = nth k os 0.
Proof.
  intros Hf Hpass sorted_indices corrected.
  assert (Hn : length (map Fin ps) = length ps) by apply List.length_map.
  assert (Hidx : length sorted_indices = length ps).
  { unfold sorted_indices. rewrite length_np_argsort. exact Hn. }
  assert (Hlen : length (pass (gather corrected sorted_indices)) = length (map Fin ps)).
  { rewrite Hpass, length_gather, Hidx, Hn. reflexivity. }
  destruct (ranked_pipeline (map Fin ps) f pass (Fin 0) Hlen) as [Hgather Hscatter].
  fold sorted_indices in Hgather, Hscatter. fold corrected in Hgather, Hscatter.
  rewrite Hn in Hgather, Hscatter.
  destruct (finite_list (gather corrected sorted_indices)) as (rs & Hrs).
  { intros k Hk. rewrite length_gather, Hidx in Hk.
    rewrite (Hgather k Hk), Hf. eauto. }
  assert (Hrs_len : length rs = length ps).
  { rewrite <- Hidx, <- (length_gather corrected), Hrs, List.length_map. reflexivity. }
  exists rs. split; [exact Hrs |]. split; [exact Hrs_len |]. split.
  - intros k Hk. specialize (Hgather k Hk).
    rewrite Hrs, Hf in Hgather. change (Fin 0) with (fint (F := xreal) 0) in Hgather.
    rewrite nth_map_Fin in Hgather. injection Hgather as ->. reflexivity.
  - intros os Hos. rewrite Hrs in Hscatter |- *. rewrite Hos in Hscatter |- *.
    destruct (np_argsort_indices (map Fin ps)) as (_ & _ & Hall).
    fold sorted_indices in Hall. rewrite Hn in Hall.
    destruct (finite_list (scatter sorted_indices (map Fin os) corrected)) as (cs & Hcs).
    { intros i Hi. unfold corrected in Hi.
      rewrite length_scatter, length_assign_ranked, repeat_length, Hn in Hi.
      destruct (Hall i Hi) as (k & Hk & <-).
      rewrite (Hscatter k Hk). change (Fin 0) with (fint (F := xreal) 0).
      rewrite nth_map_Fin. eauto. }
    exists cs. split; [exact Hcs |]. split.
    + rewrite <- (List.length_map Fin cs), <- Hcs. unfold corrected.
      rewrite length_scatter, length_assign_ranked, repeat_length. exact Hn.
    + intros k Hk. specialize (Hscatter k Hk). rewrite Hcs in Hscatter.
      change (Fin 0) with (fint (F := xreal) 0) in Hscatter.
      rewrite !nth_map_Fin in Hscatter. injection Hscatter as ->. reflexivity.
Qed.

Lemma nth_nonneg (ps : list R) (i : nat) :
  Forall (fun p => 0 <= p) ps -> 0 <= nth i ps 0.
Proof.
  intros Hps. destruct (Nat.lt_ge_cases i (length ps)) as [Hi | Hi].
  - rewrite List.Forall_forall in Hps. apply Hps, nth_In, Hi.
  - rewrite nth_overflow by exact Hi. lra.
Qed.

Lemma Rmin_1_mono (a b : R) : a <= b -> Rmin 1 a <= Rmin 1 b.
Proof. intros Hab. apply Rle_min_compat_l. exact Hab. Qed.

Lemma holm_exact (ps : list R) :
  Forall (fun p => 0 <= p) ps ->
  exists cs,
    holm (map Fin ps) = map Fin cs
    /\ length cs = length ps
    /\ forall i, (i < length ps)%nat ->
         Rmin 1 (nth i ps 0) <= nth i cs 0
         /\ nth i cs 0 <= Rmin 1 (nth i ps 0 * IZR (Z.of_nat (length ps)))
         /\ forall j, (j < length ps)%nat -> nth i ps 0 < nth j ps 0 ->
              nth i cs 0 <= nth j cs 0.
Proof.
  intros Hps. unfold holm. cbv zeta.
  destruct (ranked_pipeline_exact ps
              (fun i idx => py_min (fint 1)
                 (fmul (nth idx (map Fin ps) (fint 0))
                       (fint (Z.of_nat (length (map Fin ps)) - Z.of_nat i))))
              (fun i idx => Rmin 1 (nth idx ps 0
                                    * IZR (Z.of_nat (length ps) - Z.of_nat i)))
              monotone_increasing)
    as (rs & Hrs & Hrs_len & Hraw & Hback).
  { intros k idx. rewrite nth_map_Fin, List.length_map. xnorm.
    rewrite xmul_Fin. apply py_min_Fin. }
  { intros a. apply length_monotone_increasing. }
  destruct (monotone_increasing_exact rs) as (os & Hos & Hos_len & Hspec).
  destruct (Hback os Hos) as (cs & Hcs & Hcs_len & Hpos).
  exists cs. split; [exact Hcs |]. split; [exact Hcs_len |].
  destruct (np_argsort_indices (map Fin ps)) as (_ & _ & Hall).
  rewrite List.length_map in Hall.
  intros i Hi. destruct (Hall i Hi) as (k & Hk & Hki).
  assert (Hk' : (k < length rs)%nat) by lia.
  destruct (Hspec k Hk') as (Hlow & Hup & Hmono).
  subst i. rewrite (Hpos k Hk).
  set (idx := nth k (np_argsort (map Fin ps)) 0%nat) in *.
  assert (Hn : IZR (Z.of_nat (length ps) - Z.of_nat k) >= 1).
  { apply Rle_ge. apply IZR_le. lia. }
  split; [| split].
  - etransitivity; [| exact Hlow]. rewrite (Hraw k Hk). fold idx.
    apply Rmin_1_mono. pose proof (nth_nonneg ps idx Hps). nra.
  - apply Hup. intros m Hm. rewrite (Hraw m) by lia. apply Rmin_1_mono.
    pose proof (np_argsort_ascending ps m k Hm Hk) as Hasc. fold idx in Hasc.
    pose proof (nth_nonneg ps (nth m (np_argsort (map Fin ps)) 0%nat) Hps) as H0.
    assert (Hnm : IZR (Z.of_nat (length ps) - Z.of_nat m) <= IZR (Z.of_nat (length ps))).
    { apply IZR_le. lia. }
    assert (Hnm0 : 0 <= IZR (Z.of_nat (length ps) - Z.of_nat m)).
    { apply IZR_le. lia. }
    nra.
  - intros j Hj Hlt. destruct (Hall j Hj) as (l & Hl & Hlj).
    subst j. rewrite (Hpos l Hl). apply Hmono; [| lia].
    destruct (Nat.le_gt_cases k l) as [Hkl | Hkl]; [exact Hkl |].
    pose proof (np_argsort_ascending ps l k ltac:(lia) Hk) as Hasc.
    fold idx in Hasc. lra.
Qed.

Lemma fdr_bh_exact (ps : list R) :
  Forall (fun p => 0 <= p) ps ->
  exists cs,
    fdr_bh (map Fin ps) = map Fin cs
    /\ length cs = length ps
    /\ forall i, (i < length ps)%nat ->
         Rmin 1 (nth i ps 0) <= nth i cs 0
         /\ nth i cs 0 <= Rmin 1 (nth i ps 0 * IZR (Z.of_nat (length ps)))
         /\ forall j, (j < length ps)%nat -> nth i ps 0 < nth j ps 0 ->
              nth i cs 0 <= nth j cs 0.
Proof.
  intros Hps. unfold fdr_bh. cbv zeta.
  destruct (ranked_pipeline_exact ps
              (fun i idx => py_min (fint 1)
                 (fdiv (fmul (nth idx (map Fin ps) (fint 0))
                             (fint (Z.of_nat (length (map Fin ps)))))
                       (fint (Z.of_nat i + 1))))
              (fun i idx => Rmin 1 (nth idx ps 0 * IZR (Z.of_nat (length ps))
                                    / IZR (Z.of_nat i + 1)))
              monotone_decreasing)
    as (rs & Hrs & Hrs_len & Hraw & Hback).
  { intros k idx. rewrite nth_map_Fin, List.length_map. xnorm.
    rewrite xmul_Fin, xdiv_Fin by (apply not_0_IZR; lia). apply py_min_Fin. }
  { intros a. apply length_monotone_decreasing. }
  destruct (monotone_decreasing_exact rs) as (os & Hos & Hos_len & Hspec).
  destruct (Hback os Hos) as (cs & Hcs & Hcs_len & Hpos).
  exists cs. split; [exact Hcs |]. split; [exact Hcs_len |].
  destruct (np_argsort_indices (map Fin ps)) as (_ & _ & Hall).
  rewrite List.length_map in Hall.
  intros i Hi. destruct (Hall i Hi) as (k & Hk & Hki).
  assert (Hk' : (k < length rs)%nat) by lia.
  destruct (Hspec k Hk') as (Hup & Hlow & Hmono).
  subst i. rewrite (Hpos k Hk).
  set (idx := nth k (np_argsort (map Fin ps)) 0%nat) in *.
  assert (Hratio : forall m, (m < length ps)%nat ->
            1 <= IZR (Z.of_nat (length ps)) / IZR (Z.of_nat m + 1)
            /\ IZR (Z.of_nat (length ps)) / IZR (Z.of_nat m + 1)
               <= IZR (Z.of_nat (length ps))).
  { intros m Hm.
    assert (Hm1 : 1 <= IZR (Z.of_nat m + 1)) by (apply IZR_le; lia).
    assert (Hmn : IZR (Z.of_nat m + 1) <= IZR (Z.of_nat (length ps)))
      by (apply IZR_le; lia).
    split.
    - apply Rmult_le_reg_r with (IZR (Z.of_nat m + 1)); [lra |].
      unfold Rdiv. rewrite Rmult_assoc, Rinv_l by lra. lra.
    - apply Rmult_le_reg_r with (IZR (Z.of_nat m + 1)); [lra |].
      unfold Rdiv. rewrite Rmult_assoc, Rinv_l by lra. nra. }
  split; [| split].
  - apply Hlow. intros m Hkm Hm. rewrite (Hraw m) by lia.
    apply Rmin_1_mono.
    pose proof (np_argsort_ascending ps k m Hkm ltac:(lia)) as Hasc.
    fold idx in Hasc.
    pose proof (nth_nonneg ps idx Hps) as H0.
    destruct (Hratio m ltac:(lia)) as [Hr1 _].
    unfold Rdiv in *. rewrite Rmult_assoc. nra.
  - etransitivity; [exact Hup |]. rewrite (Hraw k Hk). fold idx. apply Rmin_1_mono.
    pose proof (nth_nonneg ps idx Hps) as H0.
    destruct (Hratio k Hk) as [_ Hr2].
    unfold Rdiv in *. rewrite Rmult_assoc. nra.
  - intros j Hj Hlt. destruct (Hall j Hj) as (l & Hl & Hlj).
    subst j. rewrite (Hpos l Hl). apply Hmono; [| lia].
    destruct (Nat.le_gt_cases k l) as [Hkl | Hkl]; [exact Hkl |].
    pose proof (np_argsort_ascending ps l k ltac:(lia) Hk) as Hasc.
    fold idx in Hasc. lra.
Qed.

(** X4: in exact arithmetic, for any list of non-negative p-values the 'holm'
    correction returns one finite corrected value per p-value, and the value
    for p_i is at least min(1, p_i), at most the Bonferroni value
    min(1, p_i * n), and not larger than the corrected value of any p-value
    that is strictly larger than p_i. *)
Theorem holm_adjusted_p_values (ps : list R) :
  Forall (fun p => 0 <= p) ps ->
  exists r cs,
    calculate_multiple_comparisons_correction (map Fin ps) "holm" = Ok r
    /\ corrected_p_values r = map Fin cs
    /\ length cs = length ps
    /\ forall i, (i < length ps)%nat ->
         Rmin 1 (nth i ps 0) <= nth i cs 0
         /\ nth i cs 0 <= Rmin 1 (nth i ps 0 * IZR (Z.of_nat (length ps)))
         /\ forall j, (j < length ps)%nat -> nth i ps 0 < nth j ps 0 ->
              nth i cs 0 <= nth j cs 0.
Proof.
  intros Hps. destruct (holm_exact ps Hps) as (cs & Hcs & Hlen & Hspec).
  unfold calculate_multiple_comparisons_correction. cbn [String.eqb Ascii.eqb Bool.eqb].
  eexists. exists cs. split; [reflexivity |]. cbn [corrected_p_values].
  split; [exact Hcs |]. split; [exact Hlen | exact Hspec].
Qed.

Lemma holm_adjusted_p_values_witness :
  exists r cs,
    calculate_multiple_comparisons_correction
      (map Fin [4 / 100; 1 / 100; 3 / 100]) "holm" = Ok r
    /\ corrected_p_values r = map Fin cs
    /\ length cs = length [4 / 100; 1 / 100; 3 / 100]
    /\ forall i, (i < length [4 / 100; 1 / 100; 3 / 100])%nat ->
         Rmin 1 (nth i [4 / 100; 1 / 100; 3 / 100] 0) <= nth i cs 0
         /\ nth i cs 0
            <= Rmin 1 (nth i [4 / 100; 1 / 100; 3 / 100] 0
                       * IZR (Z.of_nat (length [4 / 100; 1 / 100; 3 / 100])))
         /\ forall j, (j < length [4 / 100; 1 / 100; 3 / 100])%nat ->
              nth i [4 / 100; 1 / 100; 3 / 100] 0 < nth j [4 / 100; 1 / 100; 3 / 100] 0 ->
              nth i cs 0 <= nth j cs 0.
Proof.
  apply (holm_adjusted_p_values [4 / 100; 1 / 100; 3 / 100]).
  repeat constructor; lra.
Defined.

(** X5: in exact arithmetic, for any list of non-negative p-values the
    'fdr_bh' (Benjamini-Hochberg) correction returns one finite corrected
    value per p-value, and the value for p_i is at least min(1, p_i), at most
    min(1, p_i * n), and not larger than the corrected value of any p-value
    that is strictly larger than p_i. *)
Theorem fdr_bh_adjusted_p_values (ps : list R) :
  Forall (fun p => 0 <= p) ps ->
  exists r cs,
    calculate_multiple_comparisons_correction (map Fin ps) "fdr_bh" = Ok r
    /\ corrected_p_values r = map Fin cs
    /\ length cs = length ps
    /\ forall i, (i < length ps)%nat ->
         Rmin 1 (nth i ps 0) <= nth i cs 0
         /\ nth i cs 0 <= Rmin 1 (nth i ps 0 * IZR (Z.of_nat (length ps)))
         /\ forall j, (j < length ps)%nat -> nth i ps 0 < nth j ps 0 ->
              nth i cs 0 <= nth j cs 0.
Proof.
  intros Hps. destruct (fdr_bh_exact ps Hps) as (cs & Hcs & Hlen & Hspec).
  unfold calculate_multiple_comparisons_correction. cbn [String.eqb Ascii.eqb Bool.eqb].
  eexists. exists cs. split; [reflexivity |]. cbn [corrected_p_values].
  split; [exact Hcs |]. split; [exact Hlen | exact Hspec].
Qed.

Lemma fdr_bh_adjusted_p_values_witness :
  exists r cs,
    calculate_multiple_comparisons_correction
      (map Fin [4 / 100; 1 / 100; 3 / 100]) "fdr_bh" = Ok r
    /\ corrected_p_values r = map Fin cs
    /\ length cs = length [4 / 100; 1 / 100; 3 / 100]
    /\ forall i, (i < length [4 / 100; 1 / 100; 3 / 100])%nat ->
         Rmin 1 (nth i [4 / 100; 1 / 100; 3 / 100] 0) <= nth i cs 0
         /\ nth i cs 0
            <= Rmin 1 (nth i [4 / 100; 1 / 100; 3 / 100] 0
                       * IZR (Z.of_nat (length [4 / 100; 1 / 100; 3 / 100])))
         /\ forall j, (j < length [4 / 100; 1 / 100; 3 / 100])%nat ->
              nth i [4 / 100; 1 / 100; 3 / 100] 0 < nth j [4 / 100; 1 / 100; 3 / 100] 0 ->
              nth i cs 0 <= nth j cs 0.
Proof.
  apply (fdr_bh_adjusted_p_values [4 / 100; 1 / 100; 3 / 100]).
  repeat constructor; lra.
Defined.

Lemma flag_nested (c : xreal) :
  flt c (fdec 1 100) = true -> flt c (fdec 5 100) = true.
Proof.
  unfold fdec. xnorm. destruct c as [a | s |]; cbn [xlt]; intros Hc;
    [| exact Hc | discriminate Hc].
  change (xlt (Fin a) (Fin (IZR 1 / IZR 100)) = true) in Hc.
  apply xlt_Fin_spec in Hc. apply xlt_Fin_true. lra.
Qed.



(** ** The three corrections compared *)

Lemma holm_rank_bound (ps : list R) :
  exists cs,
    holm (map Fin ps) = map Fin cs
    /\ forall k, (k < length ps)%nat ->
         Rmin 1 (nth (nth k (np_argsort (map Fin ps)) 0%nat) ps 0
                 * IZR (Z.of_nat (length ps) - Z.of_nat k))
         <= nth (nth k (np_argsort (map Fin ps)) 0%nat) cs 0.
Proof.
  unfold holm. cbv zeta.
  destruct (ranked_pipeline_exact ps
              (fun i idx => py_min (fint 1)
                 (fmul (nth idx (map Fin ps) (fint 0))
                       (fint (Z.of_nat (length (map Fin ps)) - Z.of_nat i))))
              (fun i idx => Rmin 1 (nth idx ps 0
                                    * IZR (Z.of_nat (length ps) - Z.of_nat i)))
              monotone_increasing)
    as (rs & Hrs & Hrs_len & Hraw & Hback).
  { intros k idx. rewrite nth_map_Fin, List.length_map. xnorm.
    rewrite xmul_Fin. apply py_min_Fin. }
  { intros a. apply length_monotone_increasing. }
  destruct (monotone_increasing_exact rs) as (os & Hos & Hos_len & Hspec).
  destruct (Hback os Hos) as (cs & Hcs & Hcs_len & Hpos).
  exists cs. split; [exact Hcs |].
  intros k Hk. rewrite (Hpos k Hk), <- (Hraw k Hk).
  apply (Hspec k). lia.
Qed.

Lemma fdr_bh_rank_bound (ps : list R) :
  exists cs,
    fdr_bh (map Fin ps) = map Fin cs
    /\ forall k, (k < length ps)%nat ->
         nth (nth k (np_argsort (map Fin ps)) 0%nat) cs 0
         <= Rmin 1 (nth (nth k (np_argsort (map Fin ps)) 0%nat) ps 0
                    * IZR (Z.of_nat (length ps)) / IZR (Z.of_nat k + 1)).
Proof.
  unfold fdr_bh. cbv zeta.
  destruct (ranked_pipeline_exact ps
              (fun i idx => py_min (fint 1)
                 (fdiv (fmul (nth idx (map Fin ps) (fint 0))
                             (fint (Z.of_nat (length (map Fin ps)))))
                       (fint (Z.of_nat i + 1))))
              (fun i idx => Rmin 1 (nth idx ps 0 * IZR (Z.of_nat (length ps))
                                    / IZR (Z.of_nat i + 1)))
              monotone_decreasing)
    as (rs & Hrs & Hrs_len & Hraw & Hback).
  { intros k idx. rewrite nth_map_Fin, List.length_map. xnorm.
    rewrite xmul_Fin, xdiv_Fin by (apply not_0_IZR; lia). apply py_min_Fin. }
  { intros a. apply length_monotone_decreasing. }
  destruct (monotone_decreasing_exact rs) as (os & Hos & Hos_len & Hspec).
  destruct (Hback os Hos) as (cs & Hcs & Hcs_len & Hpos).
  exists cs. split; [exact Hcs |].
  intros k Hk. rewrite (Hpos k Hk), <- (Hraw k Hk).
  apply (Hspec k). lia.
Qed.

Lemma map_Fin_inj (l l' : list R) : map Fin l = map Fin l' -> l = l'.
Proof.
  revert l'. induction l as [| a t IH]; intros [| b u] Heq; try discriminate Heq;
    [reflexivity |].
  cbn [map] in Heq. injection Heq as -> Ht. f_equal. apply IH. exact Ht.
Qed.

(** X29: in exact arithmetic, for non-negative p-values the three
    corrections are ordered position by position: the 'fdr_bh' value is at
    most the 'holm' value, which is at most the 'bonferroni' value. *)
Theorem corrections_ordered (ps : list R) :
  Forall (fun p => 0 <= p) ps ->
  exists r_fdr r_holm r_bonferroni fdr hlm bon,
    calculate_multiple_comparisons_correction (map Fin ps) "fdr_bh" = Ok r_fdr
    /\ calculate_multiple_comparisons_correction (map Fin ps) "holm" = Ok r_holm
    /\ calculate_multiple_comparisons_correction (map Fin ps) "bonferroni"
       = Ok r_bonferroni
    /\ corrected_p_values r_fdr = map Fin fdr
    /\ corrected_p_values r_holm = map Fin hlm
    /\ corrected_p_values r_bonferroni = map Fin bon
    /\ forall i, (i < length ps)%nat ->
         nth i fdr 0 <= nth i hlm 0 /\ nth i hlm 0 <= nth i bon 0.
Proof.
  intros Hps.
  destruct (holm_exact ps Hps) as (hlm & Hholm & Hlen & Hspec).
  destruct (holm_rank_bound ps) as (hlm' & Hholm' & Hrank).
  rewrite Hholm in Hholm'. apply map_Fin_inj in Hholm'. subst hlm'.
  destruct (fdr_bh_rank_bound ps) as (fdr & Hfdr & Hrank').
  unfold calculate_multiple_comparisons_correction.
  cbn [String.eqb Ascii.eqb Bool.eqb].
  do 3 eexists.
  exists fdr, hlm, (map (fun p => Rmin 1 (p * IZR (Z.of_nat (length ps)))) ps).
  split; [reflexivity |]. split; [reflexivity |]. split; [reflexivity |].
  cbn [corrected_p_values].
  split; [exact Hfdr |]. split; [exact Hholm |].
  split; [rewrite bonferroni_exact, List.map_map; reflexivity |].
  intros i Hi.
  destruct (np_argsort_indices (map Fin ps)) as (_ & _ & Hall).
  rewrite List.length_map in Hall. destruct (Hall i Hi) as (k & Hk & Hki).
  specialize (Hrank k Hk). specialize (Hrank' k Hk). rewrite Hki in Hrank, Hrank'.
  split.
  - etransitivity; [exact Hrank' |]. etransitivity; [| exact Hrank].
    apply Rmin_1_mono.
    pose proof (nth_nonneg ps i Hps) as Hp.
    assert (Hk1 : 1 <= IZR (Z.of_nat k + 1)) by (apply IZR_le; lia).
    assert (Hkn : IZR (Z.of_nat k + 1) <= IZR (Z.of_nat (length ps)))
      by (apply IZR_le; lia).
    rewrite minus_IZR. rewrite plus_IZR in Hk1, Hkn |- *.
    set (n := IZR (Z.of_nat (length ps))) in *. set (x := IZR (Z.of_nat k)) in *.
    assert (Hx : 0 <= x) by (apply IZR_le; lia).
    assert (Hprod : 0 <= x * (n - x - 1)) by (apply Rmult_le_pos; lra).
    assert (Hge : n <= (n - x) * (x + 1)) by lra.
    apply Rmult_le_reg_r with (x + 1); [lra |].
    unfold Rdiv. rewrite (Rmult_assoc _ (/ (x + 1))), Rinv_l, Rmult_1_r by lra.
    rewrite !Rmult_assoc. apply Rmult_le_compat_l; [exact Hp | exact Hge].
  - destruct (Hspec i Hi) as (_ & Hup & _).
    assert (Hbon : nth i (map (fun p => Rmin 1 (p * IZR (Z.of_nat (length ps)))) ps) 0
                   = Rmin 1 (nth i ps 0 * IZR (Z.of_nat (length ps)))).
    { rewrite <- (map_nth (fun p => Rmin 1 (p * IZR (Z.of_nat (length ps)))) ps 0 i).
      apply nth_indep. rewrite length_map. exact Hi. }
    rewrite Hbon. exact Hup.
Qed.

Lemma corrections_ordered_witness :
  exists r_fdr r_holm r_bonferroni fdr hlm bon,
    calculate_multiple_comparisons_correction
      (map Fin [4 / 100; 1 / 100; 3 / 100]) "fdr_bh" = Ok r_fdr
    /\ calculate_multiple_comparisons_correction
         (map Fin [4 / 100; 1 / 100; 3 / 100]) "holm" = Ok r_holm
    /\ calculate_multiple_comparisons_correction
         (map Fin [4 / 100; 1 / 100; 3 / 100]) "bonferroni" = Ok r_bonferroni
    /\ corrected_p_values r_fdr = map Fin fdr
    /\ corrected_p_values r_holm = map Fin hlm
    /\ corrected_p_values r_bonferroni = map Fin bon
    /\ forall i, (i < length [4 / 100; 1 / 100; 3 / 100])%nat ->
         nth i fdr 0 <= nth i hlm 0 /\ nth i hlm 0 <= nth i bon 0.
Proof.
  apply (corrections_ordered [4 / 100; 1 / 100; 3 / 100]).
  repeat constructor; lra.
Defined.

(** ** More on [calculate_diagnostic_stats] *)

Lemma calculate_diagnostic_stats_Ok_inv_ratios {F : Type} `{FloatOps F}
    (norm_ppf : F -> F) (tp fp tn fn : Z) (c : F) (r : diagnostic_stats) :
  calculate_diagnostic_stats norm_ppf tp fp tn fn c = Ok r ->
  exists fpr fnr,
    (if (0 <? fp + tn)%Z then int_div fp (fp + tn) else Ok (fint 0)) = Ok fpr
    /\ (if (0 <? fn + tp)%Z then int_div fn (fn + tp) else Ok (fint 0)) = Ok fnr
    /\ (if flt (fint 0) fpr then py_div (value (sensitivity r)) fpr else Ok finf)
       = Ok (lr_positive r)
    /\ (if flt (fint 0) (value (specificity r))
        then py_div fnr (value (specificity r)) else Ok finf)
       = Ok (lr_negative r)
    /\ (if flt (fint 0) (lr_negative r)
        then py_div (lr_positive r) (lr_negative r) else Ok finf)
       = Ok (diagnostic_odds_ratio r)
    /\ (if flt (fint 0) (fadd (value (ppv r)) (value (sensitivity r)))
        then py_div (fmul (fint 2) (fmul (value (ppv r)) (value (sensitivity r))))
                    (fadd (value (ppv r)) (value (sensitivity r)))
        else Ok (fint 0))
       = Ok (f1_score r).
Proof.
  unfold calculate_diagnostic_stats. intros Hr.
  destruct (Z.eqb_spec (tp + fp + tn + fn) 0) as [Hz | Hz]. { discriminate Hr. }
  bind_inv Hr. injection Hr as <-. cbn.
  do 2 eexists. repeat split; eassumption.
Qed.

Section DerivedMetrics.

Variable norm_ppf : xreal -> xreal.

(** X7: in exact arithmetic, when the sum of the four counts is not zero and
    the product (tp+fp)(tp+fn)(tn+fp)(tn+fn) is negative, which needs a
    negative count, [calculate_diagnostic_stats] raises the ValueError of
    [math.sqrt], not the validation error; in binary64 the call on
    (-1, 2, 1, 0) raises it. *)
Theorem negative_product_math_domain_error (tp fp tn fn : Z) (c : xreal) :
  (tp + fp + tn + fn <> 0)%Z ->
  ((tp + fp) * (tp + fn) * (tn + fp) * (tn + fn) < 0)%Z ->
  calculate_diagnostic_stats norm_ppf tp fp tn fn c
    = Raise (ValueError "math domain error")
  /\ calculate_diagnostic_stats Binary64.norm_ppf (-1) 2 1 0 0.95%float
     = Raise (ValueError "math domain error").
Proof.
  intros Hsum Hprod. split; [| vm_compute; reflexivity].
  unfold calculate_diagnostic_stats.
  destruct (Z.eqb_spec (tp + fp + tn + fn) 0%Z) as [Hz | _]; [contradiction |].
  destruct (ratio_exact tp (tp + fn)) as (v1 & -> & _). cbn [bind].
  destruct (ratio_exact tn (tn + fp)) as (v2 & -> & _). cbn [bind].
  destruct (ratio_exact tp (tp + fp)) as (v3 & -> & _). cbn [bind].
  destruct (ratio_exact tn (tn + fn)) as (v4 & -> & _). cbn [bind].
  rewrite !(int_div_exact _ (tp + fp + tn + fn)) by exact Hsum. cbn [bind].
  destruct (ratio_exact fp (fp + tn)) as (v5 & -> & _). cbn [bind].
  destruct (ratio_exact fn (fn + tp)) as (v6 & -> & _). cbn [bind].
  destruct (guarded_div_total (Fin v1) (Fin v5) finf) as (lrp & ->). cbn [bind].
  destruct (guarded_div_total (Fin v6) (Fin v2) finf) as (lrn & ->). cbn [bind].
  destruct (guarded_div_total lrp lrn finf) as (dor & ->). cbn [bind].
  destruct (guarded_div_total (fmul (fint 2) (fmul (Fin v3) (Fin v1)))
              (fadd (Fin v3) (Fin v1)) (fint 0)) as (f1 & ->). cbn [bind].
  unfold math_sqrt. xnorm. rewrite xlt_Fin_true by (apply IZR_lt; exact Hprod).
  reflexivity.
Qed.

End DerivedMetrics.

Lemma negative_product_math_domain_error_witness :
  calculate_diagnostic_stats critical_95 (-1) 2 1 0 (fdec 95 100)
    = Raise (ValueError "math domain error")
  /\ calculate_diagnostic_stats Binary64.norm_ppf (-1) 2 1 0 0.95%float
     = Raise (ValueError "math domain error").
Proof.
  apply (negative_product_math_domain_error critical_95 (-1) 2 1 0 (fdec 95 100)); lia.
Defined.

Lemma ratio_value (a b : Z) (v : xreal) :
  (0 <= a <= b)%Z ->
  (if (0 <? b)%Z then int_div a b else Ok (fint 0)) = Ok v ->
  exists w, v = Fin w /\ 0 <= w <= 1 /\ (0 < w <-> (0 < a)%Z)
            /\ ((0 < b)%Z -> w = IZR a / IZR b).
Proof.
  intros Hab Hv. destruct (ratio_exact a b) as (w & Hw & Hbound & Hpos & Hzero).
  rewrite Hw in Hv. injection Hv as <-. exists w.
  split; [reflexivity |]. split; [auto |]. split; [| exact Hpos].
  destruct (Z_lt_le_dec 0 b) as [Hb | Hb].
  - rewrite (Hpos Hb). assert (Hb' : 0 < IZR b) by (apply IZR_lt; exact Hb). split.
    + intros Hw0. destruct (Z_lt_le_dec 0 a) as [Ha | Ha]; [exact Ha |].
      assert (a = 0%Z) by lia. subst a. unfold Rdiv in Hw0. rewrite Rmult_0_l in Hw0. lra.
    + intros Ha. apply Rmult_lt_0_compat; [apply IZR_lt; exact Ha |].
      apply Rinv_0_lt_compat. exact Hb'.
  - rewrite (Hzero Hb). split; [lra | lia].
Qed.

Lemma guarded_div_Fin (x y : R) (d : xreal) :
  (if flt (fint 0) (Fin y) then py_div (Fin x) (Fin y) else Ok d)
  = Ok (if Rlt_dec 0 y then Fin (x / y) else d).
Proof.
  xnorm. destruct (Rlt_dec 0 y) as [Hy | Hy].
  - rewrite (xlt_Fin_true 0 y Hy). unfold py_div. xnorm.
    destruct (xeq (Fin y) (Fin 0)) eqn:Heq; [apply xeq_Fin_spec in Heq; lra |].
    rewrite xdiv_Fin by lra. reflexivity.
  - rewrite xlt_Fin_false by lra. reflexivity.
Qed.

Section ClosedForms.

Variable norm_ppf : xreal -> xreal.

(** X8: in exact arithmetic, for four non-negative counts with a positive
    sum, the F1 score returned by [calculate_diagnostic_stats] is 0 when
    tp = 0 and 2*tp / (2*tp + fp + fn) otherwise, so it lies in [0,1]. *)
Theorem f1_score_closed_form (tp fp tn fn : Z) (c : xreal) :
  (0 <= tp)%Z -> (0 <= fp)%Z -> (0 <= tn)%Z -> (0 <= fn)%Z ->
  (0 < tp + fp + tn + fn)%Z ->
  exists r, calculate_diagnostic_stats norm_ppf tp fp tn fn c = Ok r
    /\ (tp = 0%Z -> f1_score r = Fin 0)
    /\ ((0 < tp)%Z -> f1_score r = Fin (IZR (2 * tp) / IZR (2 * tp + fp + fn)))
    /\ between 0 1 (f1_score r).
Proof.
  intros Htp Hfp Htn Hfn Hsum.
  destruct (calculate_diagnostic_stats_total norm_ppf tp fp tn fn c
              Htp Hfp Htn Hfn Hsum) as (r & Hr).
  exists r. split; [exact Hr |].
  destruct (calculate_diagnostic_stats_Ok_inv _ _ _ _ _ _ _ Hr)
    as (_ & Hsens & _ & Hppv & _).
  destruct (calculate_diagnostic_stats_Ok_inv_ratios _ _ _ _ _ _ _ Hr)
    as (fpr & fnr & _ & _ & _ & _ & _ & Hf1).
  destruct (ratio_value tp (tp + fn) _ ltac:(lia) Hsens) as (s & Es & Bs & Ps & Vs).
  destruct (ratio_value tp (tp + fp) _ ltac:(lia) Hppv) as (p & Ep & Bp & Pp & Vp).
  rewrite Es, Ep in Hf1. xnorm. rewrite !xmul_Fin, xadd_Fin in Hf1.
  change (Fin (IZR 0)) with (fint (F := xreal) 0) in Hf1.
  change (Fin (IZR 2 * (p * s))) with (Fin (2 * (p * s))) in Hf1.
  rewrite guarded_div_Fin in Hf1. injection Hf1 as Hf1.
  destruct (Z_lt_le_dec 0 tp) as [Hpos | Hzero].
  - assert (Hs : 0 < s) by (apply Ps; exact Hpos).
    assert (Hp : 0 < p) by (apply Pp; exact Hpos).
    destruct (Rlt_dec 0 (p + s)) as [_ | Hn]; [| lra].
    assert (Hval : 2 * (p * s) / (p + s) = IZR (2 * tp) / IZR (2 * tp + fp + fn)).
    { rewrite (Vs ltac:(lia)), (Vp ltac:(lia)).
      rewrite !plus_IZR, !mult_IZR.
      assert (0 < IZR tp) by (apply IZR_lt; exact Hpos).
      assert (0 <= IZR fp) by (apply IZR_le; exact Hfp).
      assert (0 <= IZR fn) by (apply IZR_le; exact Hfn).
      field. repeat split; try lra; apply Rgt_not_eq; nra. }
    split; [intros Hc; exfalso; lia |].
    split; [intros _; rewrite <- Hf1, Hval; reflexivity |].
    exists (2 * (p * s) / (p + s)). split; [symmetry; exact Hf1 |]. split.
    + apply Rmult_le_pos; [nra | left; apply Rinv_0_lt_compat; lra].
    + apply Rmult_le_reg_r with (p + s); [lra |].
      unfold Rdiv. rewrite Rmult_assoc, Rinv_l by lra. nra.
  - assert (tp = 0%Z) by lia. subst tp.
    assert (Hs : ~ 0 < s) by (rewrite Ps; lia).
    assert (Hp : ~ 0 < p) by (rewrite Pp; lia).
    destruct (Rlt_dec 0 (p + s)) as [Hc | _]; [lra |].
    cbn in Hf1. split; [intros _; symmetry; exact Hf1 |].
    split; [intros Hc; exfalso; lia |].
    exists 0. split; [symmetry; exact Hf1 | lra].
Qed.

End ClosedForms.

Lemma f1_score_closed_form_witness :
  exists r, calculate_diagnostic_stats critical_95 85 3 92 5 (fdec 95 100) = Ok r
    /\ (85%Z = 0%Z -> f1_score r = Fin 0)
    /\ ((0 < 85)%Z -> f1_score r = Fin (IZR (2 * 85) / IZR (2 * 85 + 3 + 5)))
    /\ between 0 1 (f1_score r).
Proof.
  apply (f1_score_closed_form critical_95 85 3 92 5 (fdec 95 100)); lia.
Defined.

Ltac settle_cases :=
  repeat split; try discriminate; try reflexivity;
  try (intros; first [assumption | reflexivity | lia | exfalso; lia]).

Section LikelihoodRatios.

Variable norm_ppf : xreal -> xreal.

(** X9: in exact arithmetic, for four non-negative counts with a positive
    sum: lr_positive is +inf exactly when fp = 0 and lr_negative is +inf
    exactly when tn = 0; the diagnostic odds ratio is nan exactly when
    fp = 0 and tn = 0, it is tp*tn / (fp*fn) when fp, fn and tn are positive,
    0 when tn = 0 < fp, and +inf when tn is positive and fp or fn is 0. *)
Theorem likelihood_ratio_edge_cases (tp fp tn fn : Z) (c : xreal) :
  (0 <= tp)%Z -> (0 <= fp)%Z -> (0 <= tn)%Z -> (0 <= fn)%Z ->
  (0 < tp + fp + tn + fn)%Z ->
  exists r, calculate_diagnostic_stats norm_ppf tp fp tn fn c = Ok r
    /\ (lr_positive r = Inf false <-> fp = 0%Z)
    /\ (lr_negative r = Inf false <-> tn = 0%Z)
    /\ (diagnostic_odds_ratio r = NaN <-> fp = 0%Z /\ tn = 0%Z)
    /\ ((0 < fp)%Z -> (0 < fn)%Z -> (0 < tn)%Z ->
          diagnostic_odds_ratio r = Fin (IZR (tp * tn) / IZR (fp * fn)))
    /\ (tn = 0%Z -> (0 < fp)%Z -> diagnostic_odds_ratio r = Fin 0)
    /\ ((0 < tn)%Z -> fp = 0%Z \/ fn = 0%Z -> diagnostic_odds_ratio r = Inf false).
Proof.
  intros Htp Hfp Htn Hfn Hsum.
  destruct (calculate_diagnostic_stats_total norm_ppf tp fp tn fn c
              Htp Hfp Htn Hfn Hsum) as (r & Hr).
  exists r. split; [exact Hr |].
  destruct (calculate_diagnostic_stats_Ok_inv _ _ _ _ _ _ _ Hr)
    as (_ & Hsens & Hspec & _).
  destruct (calculate_diagnostic_stats_Ok_inv_ratios _ _ _ _ _ _ _ Hr)
    as (fpr & fnr & Hfpr & Hfnr & Hlrp & Hlrn & Hdor & _).
  destruct (ratio_value tp (tp + fn) _ ltac:(lia) Hsens) as (s & Es & Bs & Ps & Vs).
  destruct (ratio_value tn (tn + fp) _ ltac:(lia) Hspec) as (sp & Esp & Bsp & Psp & Vsp).
  destruct (ratio_value fp (fp + tn) _ ltac:(lia) Hfpr) as (x & -> & Bx & Px & Vx).
  destruct (ratio_value fn (fn + tp) _ ltac:(lia) Hfnr) as (y & -> & By & Py & Vy).
  rewrite Es in Hlrp. rewrite Esp in Hlrn.
  rewrite guarded_div_Fin in Hlrp, Hlrn.
  injection Hlrp as Hlrp. injection Hlrn as Hlrn.
  rewrite <- Hlrp, <- Hlrn in Hdor. rewrite <- Hlrp, <- Hlrn. clear Hlrp Hlrn.
  destruct (Rlt_dec 0 x) as [Hx | Hx]; destruct (Rlt_dec 0 sp) as [Hsp | Hsp].
  - (* fp > 0, tn > 0 *)
    assert (Hfp' : (0 < fp)%Z) by (apply Px; exact Hx).
    assert (Htn' : (0 < tn)%Z) by (apply Psp; exact Hsp).
    rewrite guarded_div_Fin in Hdor. injection Hdor as Hdor. rewrite <- Hdor.
    destruct (Rlt_dec 0 (y / sp)) as [Hy | Hy].
    + assert (Hfn' : (0 < fn)%Z).
      { apply Py. destruct (Rlt_dec 0 y) as [H0 | H0]; [exact H0 |].
        assert (y = 0) by lra. subst y. unfold Rdiv in Hy. rewrite Rmult_0_l in Hy. lra. }
      assert (Hy' : 0 < y) by (apply Py; exact Hfn').
      settle_cases.
      intros _ _ _. f_equal.
      assert (Hprod : IZR (fp * fn) <> 0) by (apply not_0_IZR; nia).
      destruct (Z_lt_le_dec 0 tp) as [Htp' | Htp'].
      * rewrite (Vs ltac:(lia)), (Vx ltac:(lia)), (Vy ltac:(lia)), (Vsp ltac:(lia)).
        rewrite !plus_IZR, !mult_IZR. rewrite mult_IZR in Hprod.
        assert (0 < IZR tp) by (apply IZR_lt; exact Htp').
        assert (0 < IZR fp) by (apply IZR_lt; exact Hfp').
        assert (0 < IZR tn) by (apply IZR_lt; exact Htn').
        assert (0 < IZR fn) by (apply IZR_lt; exact Hfn').
        field. repeat split; try lra; apply Rgt_not_eq; nra.
      * assert (tp = 0%Z) by lia. subst tp.
        assert (Hs0 : s = 0).
        { destruct (Rlt_dec 0 s) as [Hc | Hc]; [apply Ps in Hc; lia | lra]. }
        rewrite Hs0. cbn [Z.mul]. unfold Rdiv. rewrite !Rmult_0_l. reflexivity.
    + assert (Hfn' : fn = 0%Z).
      { destruct (Z_lt_le_dec 0 fn) as [Hc | Hc]; [| lia].
        exfalso. apply Hy. apply Rmult_lt_0_compat; [apply Py; exact Hc |].
        apply Rinv_0_lt_compat. exact Hsp. }
      cbn [finf exact].
      settle_cases.
  - (* fp > 0, tn = 0 *)
    assert (Hfp' : (0 < fp)%Z) by (apply Px; exact Hx).
    assert (Htn' : tn = 0%Z).
    { destruct (Z_lt_le_dec 0 tn) as [Hc | Hc]; [apply Psp in Hc; contradiction | lia]. }
    cbn [finf exact] in Hdor |- *. cbn in Hdor. injection Hdor as Hdor. rewrite <- Hdor.
    settle_cases.
  - (* fp = 0, tn > 0 *)
    assert (Hfp' : fp = 0%Z).
    { destruct (Z_lt_le_dec 0 fp) as [Hc | Hc]; [apply Px in Hc; contradiction | lia]. }
    assert (Htn' : (0 < tn)%Z) by (apply Psp; exact Hsp).
    xnorm.
    assert (Hdor' : diagnostic_odds_ratio r = Inf false).
    { destruct (Rlt_dec 0 (y / sp)) as [Hy | Hy].
      - rewrite (xlt_Fin_true 0 (y / sp) Hy) in Hdor. unfold py_div in Hdor. xnorm.
        destruct (xeq (Fin (y / sp)) (Fin 0)) eqn:Heq;
          [apply xeq_Fin_spec in Heq; lra |].
        injection Hdor as <-. cbn [xdiv xorb].
        unfold Rneg. destruct (Rlt_dec (y / sp) 0); [lra | reflexivity].
      - rewrite xlt_Fin_false in Hdor by lra. injection Hdor as <-. reflexivity. }
    rewrite Hdor'.
    settle_cases.
  - (* fp = 0, tn = 0 *)
    assert (Hfp' : fp = 0%Z).
    { destruct (Z_lt_le_dec 0 fp) as [Hc | Hc]; [apply Px in Hc; contradiction | lia]. }
    assert (Htn' : tn = 0%Z).
    { destruct (Z_lt_le_dec 0 tn) as [Hc | Hc]; [apply Psp in Hc; contradiction | lia]. }
    cbn [finf exact] in Hdor |- *. cbn in Hdor. injection Hdor as Hdor. rewrite <- Hdor.
    settle_cases.
Qed.

End LikelihoodRatios.

Lemma likelihood_ratio_edge_cases_witness :
  exists r, calculate_diagnostic_stats critical_95 12 0 0 3 (fdec 95 100) = Ok r
    /\ (lr_positive r = Inf false <-> 0%Z = 0%Z)
    /\ (lr_negative r = Inf false <-> 0%Z = 0%Z)
    /\ (diagnostic_odds_ratio r = NaN <-> 0%Z = 0%Z /\ 0%Z = 0%Z)
    /\ ((0 < 0)%Z -> (0 < 3)%Z -> (0 < 0)%Z ->
          diagnostic_odds_ratio r = Fin (IZR (12 * 0) / IZR (0 * 3)))
    /\ (0%Z = 0%Z -> (0 < 0)%Z -> diagnostic_odds_ratio r = Fin 0)
    /\ ((0 < 0)%Z -> 0%Z = 0%Z \/ 3%Z = 0%Z -> diagnostic_odds_ratio r = Inf false).
Proof.
  apply (likelihood_ratio_edge_cases critical_95 12 0 0 3 (fdec 95 100)); lia.
Defined.

Section WilsonEndpoints.

Variable norm_ppf : xreal -> xreal.

(** X10: in exact arithmetic, for a finite non-negative critical value and
    0 <= x <= n with n positive, the inner function [wilson_ci] returns two
    finite bounds with 0 <= lower <= x/n <= upper <= 1; the lower bound is
    exactly 0 when x = 0 and the upper bound is exactly 1 when x = n. *)
Theorem wilson_ci_endpoints (c : xreal) (z : R) (x n : Z) :
  z_critical norm_ppf c = Fin z -> 0 <= z -> (0 <= x <= n)%Z -> (0 < n)%Z ->
  exists lo hi,
    wilson_ci norm_ppf c x n = Ok (Fin lo, Fin hi)
    /\ 0 <= lo /\ lo <= IZR x / IZR n /\ IZR x / IZR n <= hi /\ hi <= 1
    /\ (x = 0%Z -> lo = 0)
    /\ (x = n -> hi = 1).
Proof.
  intros Hz Hz0 Hx Hn.
  rewrite (wilson_ci_Fin norm_ppf c z x n Hz Hx Hn), py_max_Fin, py_min_Fin.
  assert (Hn' : 0 < IZR n) by (apply IZR_lt; exact Hn).
  assert (Hp : 0 <= IZR x / IZR n <= 1).
  { destruct (ratio_exact x n) as (w & _ & Hb & Hw & _).
    rewrite <- (Hw Hn). apply Hb. exact Hx. }
  pose proof (wilson_interval_contains z (IZR x / IZR n) (IZR n) Hn' Hp Hz0) as Hc.
  cbv zeta in Hc. rewrite <- !mult_IZR in Hc.
  fold (wilson_center z x n) in Hc. fold (wilson_margin z x n) in Hc.
  do 2 eexists. split; [reflexivity |].
  split; [apply Rmax_l |].
  split; [apply Rmax_lub; lra |].
  split; [apply Rmin_glb; lra |].
  split; [apply Rmin_l |].
  assert (Hroot : R_sqrt.sqrt (z * z / IZR (4 * n) / IZR n) = z / IZR (2 * n)).
  { apply sqrt_lem_1.
    - apply Rmult_le_pos; [| left; apply Rinv_0_lt_compat; exact Hn'].
      apply Rmult_le_pos; [nra |]. left. apply Rinv_0_lt_compat, IZR_lt. lia.
    - apply Rmult_le_pos; [exact Hz0 |]. left. apply Rinv_0_lt_compat, IZR_lt. lia.
    - rewrite !mult_IZR. field. lra. }
  pose proof (wilson_denominator_pos z n Hn) as HD.
  split.
  - intros ->. unfold wilson_center, wilson_margin.
    replace (IZR 0 / IZR n * (1 - IZR 0 / IZR n) + z * z / IZR (4 * n))
      with (z * z / IZR (4 * n)) by (unfold Rdiv; ring).
    rewrite Hroot.
    replace ((IZR 0 / IZR n + z * z / IZR (2 * n)) / (1 + z * z / IZR n)
             - z * (z / IZR (2 * n)) / (1 + z * z / IZR n)) with 0.
    + apply Rmax_left. lra.
    + rewrite mult_IZR. field. assert (0 <= z * z) by nra. split; lra.
  - intros ->. unfold wilson_center, wilson_margin.
    replace (IZR n / IZR n * (1 - IZR n / IZR n) + z * z / IZR (4 * n))
      with (z * z / IZR (4 * n)) by (rewrite mult_IZR; field; lra).
    rewrite Hroot.
    replace ((IZR n / IZR n + z * z / IZR (2 * n)) / (1 + z * z / IZR n)
             + z * (z / IZR (2 * n)) / (1 + z * z / IZR n)) with 1.
    + apply Rmin_left. lra.
    + rewrite mult_IZR. field. assert (0 <= z * z) by nra. split; lra.
Qed.

End WilsonEndpoints.

Lemma wilson_ci_endpoints_witness :
  exists lo hi,
    wilson_ci critical_95 (fdec 95 100) 0 20 = Ok (Fin lo, Fin hi)
    /\ 0 <= lo /\ lo <= IZR 0 / IZR 20 /\ IZR 0 / IZR 20 <= hi /\ hi <= 1
    /\ (0%Z = 0%Z -> lo = 0)
    /\ (0%Z = 20%Z -> hi = 1).
Proof.
  apply (wilson_ci_endpoints critical_95 (fdec 95 100)
           (1959963984540054 / 1000000000000000) 0 20);
    [reflexivity | lra | lia | lia].
Defined.

Lemma interpret_kappa_calculated {F : Type} `{FloatOps F} (k : F) :
  interpret_kappa k <> "Not calculated".
Proof.
  unfold interpret_kappa.
  repeat match goal with
         | |- context [if ?b then _ else _] => destruct b
         end; discriminate.
Qed.

(** When the expected agreement of the kappa proxy is 1: every sample is a
    true positive, or every sample is a true negative. *)
Lemma expected_agreement_one (tp fp tn fn : Z) :
  (0 <= tp)%Z -> (0 <= fp)%Z -> (0 <= tn)%Z -> (0 <= fn)%Z ->
  (0 < tp + fp + tn + fn)%Z ->
  ((tp + fn) * (tp + fp) + (tn + fp) * (tn + fn)
   < (tp + fp + tn + fn) * (tp + fp + tn + fn))%Z
  <-> ~ (fp = 0%Z /\ fn = 0%Z /\ (tp = 0%Z \/ tn = 0%Z)).
Proof.
  intros Htp Hfp Htn Hfn Hsum. split.
  - intros Hlt (-> & -> & [-> | ->]); lia.
  - intros Hne.
    destruct (Z.eq_dec fp 0%Z) as [-> | Hfp0];
      [destruct (Z.eq_dec fn 0%Z) as [-> | Hfn0] |].
    + assert (0 < tp)%Z by lia. assert (0 < tn)%Z by lia. nia.
    + assert (0 < fn)%Z by lia. nia.
    + assert (0 < fp)%Z by lia. nia.
Qed.

Lemma kappa_proxy_bound (tp fp tn fn : Z) :
  (0 <= tp)%Z -> (0 <= fp)%Z -> (0 <= tn)%Z -> (0 <= fn)%Z ->
  (2 * ((tp + fn) * (tp + fp) + (tn + fp) * (tn + fn))
   <= (tp + tn) * (tp + fp + tn + fn)
      + (tp + fp + tn + fn) * (tp + fp + tn + fn))%Z.
Proof.
  intros Htp Hfp Htn Hfn.
  assert (H1 : (0 <= (fp - fn) * (fp - fn))%Z) by apply Z.square_nonneg.
  assert (H2 : (0 <= tp * tn)%Z) by (apply Z.mul_nonneg_nonneg; lia).
  assert (H3 : (0 <= (tp + tn) * (fp + fn))%Z) by (apply Z.mul_nonneg_nonneg; lia).
  replace ((tp + tn) * (tp + fp + tn + fn)
           + (tp + fp + tn + fn) * (tp + fp + tn + fn))%Z
    with (2 * ((tp + fn) * (tp + fp) + (tn + fp) * (tn + fn))
          + (4 * (tp * tn) + (tp + tn) * (fp + fn) + (fp - fn) * (fp - fn)))%Z by ring.
  lia.
Qed.

Section KappaProxy.

Variable norm_ppf : xreal -> xreal.

(** X11: in exact arithmetic, for four non-negative counts with a positive
    sum, the kappa proxy in the result of [calculate_diagnostic_stats] is
    'Not calculated', with value 0 and interval (0, 0), exactly when every
    sample is a true positive or every sample is a true negative; otherwise
    its value is (p_o - p_e) / (1 - p_e), a real number in [-1, 1], and it is
    1 when fp = fn = 0. *)
Theorem kappa_proxy_cases (tp fp tn fn : Z) (c : xreal) :
  (0 <= tp)%Z -> (0 <= fp)%Z -> (0 <= tn)%Z -> (0 <= fn)%Z ->
  (0 < tp + fp + tn + fn)%Z ->
  let degenerate := fp = 0%Z /\ fn = 0%Z /\ (tp = 0%Z \/ tn = 0%Z) in
  let p_o := IZR (tp + tn) / IZR (tp + fp + tn + fn) in
  let p_e := IZR ((tp + fn) * (tp + fp) + (tn + fp) * (tn + fn))
             / IZR ((tp + fp + tn + fn) * (tp + fp + tn + fn)) in
  exists r, calculate_diagnostic_stats norm_ppf tp fp tn fn c = Ok r
    /\ (kappa_interpretation (cohens_kappa r) = "Not calculated" <-> degenerate)
    /\ (degenerate ->
          kappa_value (cohens_kappa r) = Fin 0
          /\ kappa_ci_lower (cohens_kappa r) = Fin 0
          /\ kappa_ci_upper (cohens_kappa r) = Fin 0)
    /\ (~ degenerate ->
          kappa_value (cohens_kappa r) = Fin ((p_o - p_e) / (1 - p_e))
          /\ -1 <= (p_o - p_e) / (1 - p_e) <= 1
          /\ (fp = 0%Z -> fn = 0%Z -> (p_o - p_e) / (1 - p_e) = 1)).
Proof.
  intros Htp Hfp Htn Hfn Hsum degenerate p_o p_e.
  destruct (calculate_diagnostic_stats_total norm_ppf tp fp tn fn c
              Htp Hfp Htn Hfn Hsum) as (r & Hr).
  exists r. split; [exact Hr |].
  destruct (calculate_diagnostic_stats_Ok_inv _ _ _ _ _ _ _ Hr)
    as (_ & _ & _ & _ & _ & _ & _ & _ & _ & _ & _ & _ & _ & Hk).
  pose proof (expected_agreement_one tp fp tn fn Htp Hfp Htn Hfn Hsum) as Hone.
  fold degenerate in Hone.
  pose proof (expected_agreement_bounds tp fp tn fn Htp Hfp Htn Hfn Hsum) as He.
  fold p_e in He.
  assert (HN : 0 < IZR (tp + fp + tn + fn)) by (apply IZR_lt; exact Hsum).
  assert (HNN : 0 < IZR ((tp + fp + tn + fn) * (tp + fp + tn + fn)))
    by (apply IZR_lt; nia).
  assert (Hlt : p_e < 1 <-> ~ degenerate).
  { rewrite <- Hone. unfold p_e. split.
    - intros H1. apply lt_IZR. apply Rmult_lt_reg_r with (/ IZR ((tp + fp + tn + fn) * (tp + fp + tn + fn)));
        [apply Rinv_0_lt_compat; exact HNN |].
      rewrite Rinv_r by lra. exact H1.
    - intros H1. apply IZR_lt in H1.
      apply Rmult_lt_reg_r with (IZR ((tp + fp + tn + fn) * (tp + fp + tn + fn)));
        [exact HNN |].
      unfold Rdiv. rewrite Rmult_assoc, Rinv_l by lra. lra. }
  unfold kappa_self_consistency in Hk.
  destruct (Z.ltb_spec 0%Z (tp + fp + tn + fn)) as [_ | Hle]; [| lia].
  rewrite !int_div_exact in Hk by nia. cbn [bind] in Hk.
  fold p_o in Hk. fold p_e in Hk. xnorm.
  destruct (Rlt_dec p_e 1) as [H1 | H1].
  - assert (Hnd : ~ degenerate) by (apply Hlt; exact H1).
    rewrite (xlt_Fin_true p_e 1 H1) in Hk.
    rewrite !xsub_Fin, !xmul_Fin in Hk.
    rewrite (py_div_exact (p_o - p_e) (1 - p_e)) in Hk by lra. cbn [bind] in Hk.
    assert (Hden : 0 < IZR (tp + fp + tn + fn) * ((1 - p_e) * (1 - p_e))).
    { repeat apply Rmult_lt_0_compat; lra. }
    rewrite (py_div_exact p_e _) in Hk by lra. cbn [bind] in Hk.
    assert (Hq : 0 <= p_e / (IZR (tp + fp + tn + fn) * ((1 - p_e) * (1 - p_e)))).
    { apply Rmult_le_pos; [exact He | left; apply Rinv_0_lt_compat; exact Hden]. }
    rewrite (math_sqrt_exact _ Hq) in Hk. cbn [bind] in Hk.
    injection Hk as Hk. rewrite <- Hk. cbn [kappa_interpretation kappa_value].
    split; [| split].
    + split; [intros Hc; exfalso; exact (interpret_kappa_calculated _ Hc) |].
      intros Hc. contradiction.
    + intros Hc. contradiction.
    + intros _. split; [reflexivity |].
      pose proof (kappa_proxy_bound tp fp tn fn Htp Hfp Htn Hfn) as Hb.
      apply IZR_le in Hb. rewrite plus_IZR, !mult_IZR in Hb.
      assert (Ho : p_o * IZR (tp + fp + tn + fn) = IZR (tp + tn)).
      { unfold p_o, Rdiv. rewrite Rmult_assoc, Rinv_l by lra. ring. }
      assert (Hpe : p_e * (IZR (tp + fp + tn + fn) * IZR (tp + fp + tn + fn))
                    = IZR ((tp + fn) * (tp + fp) + (tn + fp) * (tn + fn))).
      { unfold p_e, Rdiv. rewrite mult_IZR, Rmult_assoc, Rinv_l by nra. ring. }
      assert (Ho1 : p_o <= 1).
      { apply Rmult_le_reg_r with (IZR (tp + fp + tn + fn)); [exact HN |].
        rewrite Ho, Rmult_1_l. apply IZR_le. lia. }
      assert (Hlow : 2 * p_e <= p_o + 1).
      { apply Rmult_le_reg_r with (IZR (tp + fp + tn + fn) * IZR (tp + fp + tn + fn));
          [nra |].
        rewrite <- Hpe, <- Ho in Hb. nra. }
      split; [split |].
      * apply Rmult_le_reg_r with (1 - p_e); [lra |].
        unfold Rdiv. rewrite Rmult_assoc, Rinv_l by lra. lra.
      * apply Rmult_le_reg_r with (1 - p_e); [lra |].
        unfold Rdiv. rewrite Rmult_assoc, Rinv_l by lra. lra.
      * intros -> ->.
        assert (Hp1 : p_o = 1).
        { unfold p_o. replace (tp + 0 + tn + 0)%Z with (tp + tn)%Z by lia.
          apply Rinv_r. replace (tp + 0 + tn + 0)%Z with (tp + tn)%Z in HN by lia. lra. }
        rewrite Hp1. apply Rinv_r. lra.
  - assert (Hd : degenerate).
    { unfold degenerate.
      destruct (Z.eq_dec fp 0%Z) as [Hfp0 | Hfp0];
        [destruct (Z.eq_dec fn 0%Z) as [Hfn0 | Hfn0];
         [destruct (Z.eq_dec tp 0%Z) as [Htp0 | Htp0];
          [| destruct (Z.eq_dec tn 0%Z) as [Htn0 | Htn0]] |] |];
        try (repeat split; solve [assumption | left; assumption | right; assumption]);
        exfalso; apply H1, Hlt; intros (? & ? & [? | ?]); contradiction. }
    rewrite xlt_Fin_false in Hk by lra. injection Hk as Hk. rewrite <- Hk.
    cbn [kappa_interpretation kappa_value kappa_ci_lower kappa_ci_upper].
    split; [split; [intros _; exact Hd | reflexivity] |].
    split; [intros _; repeat split | intros Hc; contradiction].
Qed.

End KappaProxy.

Lemma kappa_proxy_cases_witness :
  exists r, calculate_diagnostic_stats critical_95 85 3 92 5 (fdec 95 100) = Ok r
    /\ (kappa_interpretation (cohens_kappa r) = "Not calculated"
        <-> 3%Z = 0%Z /\ 5%Z = 0%Z /\ (85%Z = 0%Z \/ 92%Z = 0%Z))
    /\ (3%Z = 0%Z /\ 5%Z = 0%Z /\ (85%Z = 0%Z \/ 92%Z = 0%Z) ->
          kappa_value (cohens_kappa r) = Fin 0
          /\ kappa_ci_lower (cohens_kappa r) = Fin 0
          /\ kappa_ci_upper (cohens_kappa r) = Fin 0)
    /\ (~ (3%Z = 0%Z /\ 5%Z = 0%Z /\ (85%Z = 0%Z \/ 92%Z = 0%Z)) ->
          kappa_value (cohens_kappa r)
          = Fin ((IZR (85 + 92) / IZR (85 + 3 + 92 + 5)
                  - IZR ((85 + 5) * (85 + 3) + (92 + 3) * (92 + 5))
                    / IZR ((85 + 3 + 92 + 5) * (85 + 3 + 92 + 5)))
                 / (1 - IZR ((85 + 5) * (85 + 3) + (92 + 3) * (92 + 5))
                        / IZR ((85 + 3 + 92 + 5) * (85 + 3 + 92 + 5))))
          /\ -1 <= (IZR (85 + 92) / IZR (85 + 3 + 92 + 5)
                    - IZR ((85 + 5) * (85 + 3) + (92 + 3) * (92 + 5))
                      / IZR ((85 + 3 + 92 + 5) * (85 + 3 + 92 + 5)))
                   / (1 - IZR ((85 + 5) * (85 + 3) + (92 + 3) * (92 + 5))
                          / IZR ((85 + 3 + 92 + 5) * (85 + 3 + 92 + 5))) <= 1
          /\ (3%Z = 0%Z -> 5%Z = 0%Z ->
              (IZR (85 + 92) / IZR (85 + 3 + 92 + 5)
               - IZR ((85 + 5) * (85 + 3) + (92 + 3) * (92 + 5))
                 / IZR ((85 + 3 + 92 + 5) * (85 + 3 + 92 + 5)))
              / (1 - IZR ((85 + 5) * (85 + 3) + (92 + 3) * (92 + 5))
                     / IZR ((85 + 3 + 92 + 5) * (85 + 3 + 92 + 5))) = 1)).
Proof.
  apply (kappa_proxy_cases critical_95 85 3 92 5 (fdec 95 100)); lia.
Defined.

(** ** More on the pairwise comparison *)

Section ComparisonShape.

Context {F : Type} `{FloatOps F}.
Variable norm_ppf : F -> F.

Lemma compare_pair_second_total (exp1 exp2 exp2' : experiment)
    (kappa_results : gmap string kappa_entry) :
  name exp2 = name exp2' -> experiment_total exp2 = experiment_total exp2' ->
  compare_pair norm_ppf exp1 exp2 kappa_results
  = compare_pair norm_ppf exp1 exp2' kappa_results.
Proof.
  intros Hname Htotal. unfold compare_pair, synthesize, comparison_key.
  rewrite Hname, Htotal. reflexivity.
Qed.

Lemma compare_with_rest_last (exp1 exp2 exp2' : experiment) (rest : list experiment)
    (kappa_results : gmap string kappa_entry) :
  name exp2 = name exp2' -> experiment_total exp2 = experiment_total exp2' ->
  compare_with_rest norm_ppf exp1 (rest ++ [exp2]) kappa_results
  = compare_with_rest norm_ppf exp1 (rest ++ [exp2']) kappa_results.
Proof.
  intros Hname Htotal. revert kappa_results.
  induction rest as [| e rest IH]; intros kappa_results; cbn [app compare_with_rest].
  - rewrite (compare_pair_second_total exp1 exp2 exp2' _ Hname Htotal). reflexivity.
  - destruct (compare_pair norm_ppf exp1 e kappa_results) as [m |]; cbn [bind];
      [apply IH | reflexivity].
Qed.

Lemma compare_all_last (exp2 exp2' : experiment) (experiments : list experiment)
    (kappa_results : gmap string kappa_entry) :
  name exp2 = name exp2' -> experiment_total exp2 = experiment_total exp2' ->
  compare_all norm_ppf (experiments ++ [exp2]) kappa_results
  = compare_all norm_ppf (experiments ++ [exp2']) kappa_results.
Proof.
  intros Hname Htotal. revert kappa_results.
  induction experiments as [| e rest IH]; intros kappa_results;
    cbn [app compare_all compare_with_rest bind]; [reflexivity |].
  rewrite (compare_with_rest_last e exp2 exp2' rest _ Hname Htotal).
  destruct (compare_with_rest norm_ppf e (rest ++ [exp2']) kappa_results) as [m |];
    cbn [bind]; [apply IH | reflexivity].
Qed.

(** X12: the answer of [compare_techniques] does not depend on the confusion
    matrix of the last selected experiment beyond its sum: replacing that
    experiment by one with the same name and the same total of the four
    counts gives the same answer (the rater sequences of a pair are built
    from the first experiment's proportions only). *)
Theorem last_experiment_counts_unused (experiment_ids : list Z)
    (experiments : list experiment) (exp2 exp2' : experiment) :
  name exp2 = name exp2' -> experiment_total exp2 = experiment_total exp2' ->
  compare_techniques norm_ppf experiment_ids (experiments ++ [exp2])
  = compare_techniques norm_ppf experiment_ids (experiments ++ [exp2']).
Proof.
  intros Hname Htotal. unfold compare_techniques.
  rewrite (compare_all_last exp2 exp2' experiments ∅ Hname Htotal).
  rewrite !length_app. reflexivity.
Qed.

Lemma compare_pair_Ok_inv (exp1 exp2 : experiment)
    (kappa_results kappa_results' : gmap string kappa_entry) :
  compare_pair norm_ppf exp1 exp2 kappa_results = Ok kappa_results' ->
  exists entry, kappa_results' = <[comparison_key exp1 exp2 := entry]> kappa_results.
Proof.
  unfold compare_pair. intros Hp. bind_inv Hp. injection Hp as <-. eauto.
Qed.

(** The keys a run of the loops can add: "name_i vs name_j" for an
    experiment i that comes before the experiment j. *)
Lemma compare_with_rest_keys (exp1 : experiment) (rest : list experiment)
    (kappa_results kappa_results' : gmap string kappa_entry) :
  compare_with_rest norm_ppf exp1 rest kappa_results = Ok kappa_results' ->
  (size kappa_results' <= size kappa_results + length rest)%nat
  /\ forall key, is_Some (kappa_results' !! key) ->
       is_Some (kappa_results !! key)
       \/ exists exp2, In exp2 rest /\ key = comparison_key exp1 exp2.
Proof.
  revert kappa_results. induction rest as [| exp2 rest IH]; intros kappa_results Hr;
    cbn [compare_with_rest] in Hr.
  - injection Hr as <-. split; [cbn; lia | auto].
  - destruct (compare_pair norm_ppf exp1 exp2 kappa_results) as [m |] eqn:Hp;
      cbn [bind] in Hr; [| discriminate Hr].
    destruct (compare_pair_Ok_inv _ _ _ _ Hp) as (entry & ->).
    destruct (IH _ Hr) as [Hsize Hkeys]. split.
    + pose proof (map_size_insert (comparison_key exp1 exp2) entry kappa_results) as Hs.
      destruct (kappa_results !! comparison_key exp1 exp2); cbn in Hs; cbn [length]; lia.
    + intros key Hkey. destruct (Hkeys key Hkey) as [Hin | (e & He & ->)].
      * destruct (decide (key = comparison_key exp1 exp2)) as [-> | Hne].
        -- right. exists exp2. split; [left; reflexivity | reflexivity].
        -- left. rewrite lookup_insert_ne in Hin by congruence. exact Hin.
      * right. exists e. split; [right; exact He | reflexivity].
Qed.

Lemma pairs_step (n : nat) : (S n * (S n - 1) / 2 = n + n * (n - 1) / 2)%nat.
Proof.
  replace (S n * (S n - 1))%nat with (n * (n - 1) + n * 2)%nat.
  - rewrite Nat.div_add by lia. lia.
  - destruct n as [| n]; [reflexivity |]. cbn [Nat.sub]. rewrite !Nat.sub_0_r. lia.
Qed.

Lemma compare_all_keys (experiments : list experiment)
    (kappa_results kappa_results' : gmap string kappa_entry) :
  compare_all norm_ppf experiments kappa_results = Ok kappa_results' ->
  (size kappa_results'
   <= size kappa_results + length experiments * (length experiments - 1) / 2)%nat
  /\ forall key, is_Some (kappa_results' !! key) ->
       is_Some (kappa_results !! key)
       \/ exists before exp1 after exp2,
            experiments = before ++ exp1 :: after /\ In exp2 after
            /\ key = comparison_key exp1 exp2.
Proof.
  revert kappa_results. induction experiments as [| exp1 rest IH];
    intros kappa_results Hr; cbn [compare_all] in Hr.
  - injection Hr as <-. split; [cbn; lia | auto].
  - destruct (compare_with_rest norm_ppf exp1 rest kappa_results) as [m |] eqn:Hw;
      cbn [bind] in Hr; [| discriminate Hr].
    destruct (compare_with_rest_keys _ _ _ _ Hw) as [Hsize1 Hkeys1].
    destruct (IH _ Hr) as [Hsize2 Hkeys2]. split.
    + cbn [length]. rewrite pairs_step. lia.
    + intros key Hkey.
      destruct (Hkeys2 key Hkey) as [Hin | (before & e1 & after & e2 & -> & He2 & ->)].
      * destruct (Hkeys1 key Hin) as [Hin' | (e2 & He2 & ->)]; [left; exact Hin' |].
        right. exists [], exp1, rest, e2. repeat split. exact He2.
      * right. exists (exp1 :: before), e1, after, e2. repeat split. exact He2.
Qed.

(** X13: when [compare_techniques] renders a kappa table for n experiments,
    at least two identifiers were submitted and n >= 2, the table has at most
    n(n-1)/2 entries, and every key of the table is "name_i vs name_j" for an
    experiment i that comes before experiment j in the list; in every other
    case the answer is a redirection with one of the three messages. *)
Theorem kappa_table_bound (experiment_ids : list Z) (experiments : list experiment) :
  match compare_techniques norm_ppf experiment_ids experiments with
  | Rendered kappa_results =>
      (2 <= length experiment_ids)%nat /\ (2 <= length experiments)%nat
      /\ (size kappa_results <= length experiments * (length experiments - 1) / 2)%nat
      /\ forall key, is_Some (kappa_results !! key) ->
           exists before exp1 after exp2,
             experiments = before ++ exp1 :: after /\ In exp2 after
             /\ key = comparison_key exp1 exp2
  | Redirected flash =>
      flash = "Please select at least 2 experiments to compare"
      \/ flash = "Selected experiments not found"
      \/ flash = "Error performing technique comparison"
  end.
Proof.
  unfold compare_techniques.
  destruct (Nat.ltb_spec (length experiment_ids) 2) as [Hids | Hids]; [auto |].
  destruct (Nat.ltb_spec (length experiments) 2) as [Hexp | Hexp]; [auto |].
  destruct (compare_all norm_ppf experiments ∅) as [m |] eqn:Hall; [| auto].
  destruct (compare_all_keys _ _ _ Hall) as [Hsize Hkeys].
  rewrite map_size_empty in Hsize. repeat split; try assumption.
  intros key Hkey. destruct (Hkeys key Hkey) as [Hin | Hpair]; [| exact Hpair].
  rewrite lookup_empty in Hin. destruct Hin as [? Hin]. discriminate Hin.
Qed.

End ComparisonShape.

Lemma last_experiment_counts_unused_witness :
  compare_techniques Binary64.norm_ppf [1; 2]%Z
    ([make_experiment "A" 85 3 92 5] ++ [make_experiment "B" 40 2 50 8])
  = compare_techniques Binary64.norm_ppf [1; 2]%Z
      ([make_experiment "A" 85 3 92 5] ++ [make_experiment "B" 0 100 0 0]).
Proof.
  apply (last_experiment_counts_unused Binary64.norm_ppf [1; 2]%Z
           [make_experiment "A" 85 3 92 5]
           (make_experiment "B" 40 2 50 8) (make_experiment "B" 0 100 0 0));
    reflexivity.
Defined.

Lemma stratum_bound (count total1 min_total : Z) :
  (0 <= count)%Z -> (0 < total1)%Z -> (0 <= min_total)%Z ->
  exists k, stratum (F := xreal) count total1 min_total = Ok k
    /\ IZR (Z.of_nat k) <= IZR count / IZR total1 * IZR min_total.
Proof.
  intros Hc Ht Hm. unfold stratum. rewrite int_div_exact by lia. cbn [bind]. xnorm.
  rewrite xmul_Fin. cbn [xtrunc bind]. eexists. split; [reflexivity |].
  assert (Hv : 0 <= IZR count / IZR total1 * IZR min_total).
  { apply Rmult_le_pos; [| apply IZR_le; exact Hm].
    apply Rmult_le_pos; [apply IZR_le; exact Hc |].
    left. apply Rinv_0_lt_compat, IZR_lt. exact Ht. }
  rewrite Rneg_false by exact Hv.
  pose proof (Zfloor_bound (IZR count / IZR total1 * IZR min_total)) as [Hlo _].
  pose proof (Zfloor_lub 0 _ Hv) as H0.
  rewrite Z2Nat.id by exact H0. exact Hlo.
Qed.

Section PairOutcome.

Variable norm_ppf : xreal -> xreal.

(** X14: in exact arithmetic, for a first experiment with non-negative
    counts and two positive totals, the two synthetic rater sequences of a
    pair have the same length, at most min(total1, total2), and hold only the
    labels 0 and 1; the pair fails exactly when they are empty, with the
    error 'Rater arrays cannot be empty', and otherwise adds one entry under
    the key of the pair. *)
Theorem pair_comparison_outcome (exp1 exp2 : experiment)
    (kappa_results : gmap string kappa_entry) :
  (0 <= true_positive exp1)%Z -> (0 <= false_positive exp1)%Z ->
  (0 <= true_negative exp1)%Z -> (0 <= false_negative exp1)%Z ->
  (0 < experiment_total exp1)%Z -> (0 < experiment_total exp2)%Z ->
  exists rater1 rater2,
    synthesize (F := xreal) exp1 exp2 = Ok (rater1, rater2)
    /\ length rater1 = length rater2
    /\ (length rater1
        <= Z.to_nat (Z.min (experiment_total exp1) (experiment_total exp2)))%nat
    /\ Forall (fun label => label = 0%Z \/ label = 1%Z) (rater1 ++ rater2)
    /\ (rater1 = [] ->
        compare_pair norm_ppf exp1 exp2 kappa_results
        = Raise (ValueError "Rater arrays cannot be empty"))
    /\ (rater1 <> [] ->
        exists entry,
          compare_pair norm_ppf exp1 exp2 kappa_results
          = Ok (<[comparison_key exp1 exp2 := entry]> kappa_results)).
Proof.
  intros Htp Hfp Htn Hfn Ht1 Ht2. unfold compare_pair, synthesize.
  set (T := experiment_total exp1) in *.
  set (m := Z.min T (experiment_total exp2)).
  assert (Hm : (0 <= m)%Z) by (unfold m; lia).
  destruct (stratum_bound (true_positive exp1) T m Htp Ht1 Hm) as (n11 & -> & H11).
  destruct (stratum_bound (false_positive exp1) T m Hfp Ht1 Hm) as (n10 & -> & H10).
  destruct (stratum_bound (false_negative exp1) T m Hfn Ht1 Hm) as (n01 & -> & H01).
  destruct (stratum_bound (true_negative exp1) T m Htn Ht1 Hm) as (n00 & -> & H00).
  cbn [bind fst snd].
  set (rater1 := repeat 1%Z n11 ++ repeat 1%Z n10 ++ repeat 0%Z n01 ++ repeat 0%Z n00).
  set (rater2 := repeat 1%Z n11 ++ repeat 0%Z n10 ++ repeat 1%Z n01 ++ repeat 0%Z n00).
  assert (Hlen : length rater1 = length rater2).
  { unfold rater1, rater2. rewrite !length_app, !repeat_length. reflexivity. }
  exists rater1, rater2. split; [reflexivity |]. split; [exact Hlen |].
  split; [| split; [| split]].
  - unfold rater1. rewrite !length_app, !repeat_length.
    assert (HT : 0 < IZR T) by (apply IZR_lt; exact Ht1).
    assert (Hsum : IZR (Z.of_nat (n11 + (n10 + (n01 + n00)))) <= IZR m).
    { rewrite !Nat2Z.inj_add, !plus_IZR.
      replace (IZR m) with
        (IZR (true_positive exp1) / IZR T * IZR m
         + (IZR (false_positive exp1) / IZR T * IZR m
            + (IZR (false_negative exp1) / IZR T * IZR m
               + IZR (true_negative exp1) / IZR T * IZR m))); [lra |].
      replace (IZR T) with
        (IZR (true_positive exp1) + IZR (false_positive exp1)
         + IZR (true_negative exp1) + IZR (false_negative exp1)) in *
        by (unfold T, experiment_total; rewrite !plus_IZR; reflexivity).
      field. lra. }
    apply le_IZR in Hsum. lia.
  - unfold rater1, rater2. rewrite !Forall_app.
    repeat split; apply List.Forall_forall; intros x Hx; apply repeat_spec in Hx; auto.
  - intros Hnil. unfold calculate_cohens_kappa.
    rewrite <- Hlen, Nat.eqb_refl, Hnil. reflexivity.
  - intros Hne.
    destruct (calculate_cohens_kappa_total norm_ppf rater1 rater2 (fdec 95 100)
                Hlen Hne) as (r & ->).
    cbn [bind]. eexists. reflexivity.
Qed.

End PairOutcome.

Lemma pair_comparison_outcome_witness :
  exists rater1 rater2,
    synthesize (F := xreal) (make_experiment "A" 85 3 92 5) (make_experiment "B" 40 2 50 8)
      = Ok (rater1, rater2)
    /\ length rater1 = length rater2
    /\ (length rater1
        <= Z.to_nat (Z.min (experiment_total (make_experiment "A" 85 3 92 5))
                           (experiment_total (make_experiment "B" 40 2 50 8))))%nat
    /\ Forall (fun label => label = 0%Z \/ label = 1%Z) (rater1 ++ rater2)
    /\ (rater1 = [] ->
        compare_pair critical_95 (make_experiment "A" 85 3 92 5)
          (make_experiment "B" 40 2 50 8) ∅
        = Raise (ValueError "Rater arrays cannot be empty"))
    /\ (rater1 <> [] ->
        exists entry,
          compare_pair critical_95 (make_experiment "A" 85 3 92 5)
            (make_experiment "B" 40 2 50 8) ∅
          = Ok (<[comparison_key (make_experiment "A" 85 3 92 5)
                    (make_experiment "B" 40 2 50 8) := entry]> ∅)).
Proof.
  apply (pair_comparison_outcome critical_95 (make_experiment "A" 85 3 92 5)
           (make_experiment "B" 40 2 50 8) ∅);
    unfold experiment_total, make_experiment; cbn; lia.
Defined.

(** ** The cost model *)

Lemma dict_get_None {V : Type} (key : string) (d : list (string * V)) :
  dict_get key d = None <-> ~ In key (map fst d).
Proof.
  induction d as [| [k v] rest IH]; cbn [dict_get map fst In]; [tauto |].
  destruct (String.eqb_spec key k) as [-> | Hne].
  - split; [discriminate | intros Hn; exfalso; apply Hn; left; reflexivity].
  - rewrite IH. split; [intros Hn [Hk | Hin]; [congruence | tauto] | tauto].
Qed.

Lemma technique_known_iff {F : Type} `{FloatOps F} (technique : string) :
  is_Some (dict_get technique (TECHNIQUE_COSTS (F := F)))
  <-> In technique ["PCR"; "qPCR"; "LAMP"; "RPA"; "NASBA"; "TMA"; "HDA"; "SDA"; "NEAR"].
Proof.
  pose proof (dict_get_None technique (TECHNIQUE_COSTS (F := F))) as Hnone.
  change (map fst TECHNIQUE_COSTS)
    with ["PCR"; "qPCR"; "LAMP"; "RPA"; "NASBA"; "TMA"; "HDA"; "SDA"; "NEAR"] in Hnone.
  destruct (In_dec string_dec technique
              ["PCR"; "qPCR"; "LAMP"; "RPA"; "NASBA"; "TMA"; "HDA"; "SDA"; "NEAR"])
    as [Hin | Hout].
  - split; [intros _; exact Hin | intros _].
    destruct (dict_get technique TECHNIQUE_COSTS) as [c |]; [eauto |].
    exfalso. apply (proj1 Hnone eq_refl). exact Hin.
  - apply Hnone in Hout. rewrite Hout. split; [intros [? Hc]; discriminate Hc |].
    intros Hin. exfalso. apply (proj1 (dict_get_None technique (TECHNIQUE_COSTS (F := F))) Hout).
    exact Hin.
Qed.

Section CostErrors.

Context {F : Type} `{FloatOps F} `{RoundOps F}.


End CostErrors.

(** Rounding to the nearest integer, ties to even. *)
Lemma Rround_half_even_cases (y : R) :
  Rround_half_even y = Zfloor y \/ Rround_half_even y = (Zfloor y + 1)%Z.
Proof.
  unfold Rround_half_even.
  destruct (Rlt_dec _ _); [left; reflexivity |].
  destruct (Rlt_dec _ _); [right; reflexivity |].
  destruct (Z.even _); [left | right]; reflexivity.
Qed.

Lemma Rround_half_even_bound (y : R) :
  - (1 / 2) <= IZR (Rround_half_even y) - y <= 1 / 2.
Proof.
  pose proof (Zfloor_bound y) as [Hlo Hhi]. unfold Rround_half_even.
  destruct (Rlt_dec (y - IZR (Zfloor y)) (1 / 2)) as [H1 | H1]; [lra |].
  destruct (Rlt_dec (1 / 2) (y - IZR (Zfloor y))) as [H2 | H2];
    [rewrite plus_IZR; lra |].
  destruct (Z.even (Zfloor y)); [lra | rewrite plus_IZR; lra].
Qed.

Lemma Rround_half_even_mono (y y' : R) :
  y <= y' -> (Rround_half_even y <= Rround_half_even y')%Z.
Proof.
  intros Hle. pose proof (Zfloor_le y y' Hle) as Hf.
  destruct (Z.eq_dec (Zfloor y) (Zfloor y')) as [Heq | Hne].
  - unfold Rround_half_even. rewrite <- Heq.
    destruct (Rlt_dec (y - IZR (Zfloor y)) (1 / 2)) as [H1 | H1];
      destruct (Rlt_dec (y' - IZR (Zfloor y)) (1 / 2)) as [H1' | H1'];
      destruct (Rlt_dec (1 / 2) (y - IZR (Zfloor y))) as [H2 | H2];
      destruct (Rlt_dec (1 / 2) (y' - IZR (Zfloor y))) as [H2' | H2'];
      destruct (Z.even (Zfloor y)); try lia; lra.
  - destruct (Rround_half_even_cases y) as [-> | ->];
      destruct (Rround_half_even_cases y') as [-> | ->]; lia.
Qed.

Lemma Rround_half_even_integer (k : Z) : Rround_half_even (IZR k) = k.
Proof.
  unfold Rround_half_even. rewrite ZfloorZ.
  destruct (Rlt_dec (IZR k - IZR k) (1 / 2)) as [_ | Hn]; [reflexivity | lra].
Qed.

Lemma exact_round2_spec (a : R) :
  exists k : Z,
    fround2 (Fin a) = Fin (IZR k / 100)
    /\ - (1 / 200) <= IZR k / 100 - a <= 1 / 200
    /\ (0 <= a -> (0 <= k)%Z).
Proof.
  exists (Rround_half_even (100 * a)). split; [reflexivity |].
  pose proof (Rround_half_even_bound (100 * a)) as Hb. split; [lra |].
  intros Ha. rewrite <- (Rround_half_even_integer 0).
  apply Rround_half_even_mono. lra.
Qed.

Lemma exact_round2_mono (a b : R) :
  a <= b ->
  exists v w, fround2 (Fin a) = Fin v /\ fround2 (Fin b) = Fin w /\ v <= w
              /\ (a + 1 / 100 < b -> v < w).
Proof.
  intros Hab. do 2 eexists. split; [reflexivity |]. split; [reflexivity |].
  pose proof (Rround_half_even_mono (100 * a) (100 * b) ltac:(lra)) as Hm.
  apply IZR_le in Hm. split; [lra |].
  intros Hgap.
  pose proof (Rround_half_even_bound (100 * a)) as Ha.
  pose proof (Rround_half_even_bound (100 * b)) as Hb. lra.
Qed.

(** The sum of the four cost components before it is rounded. *)
Lemma technique_costs_table (technique : string) (cost_data : technique_costs) :
  dict_get technique (TECHNIQUE_COSTS (F := xreal)) = Some cost_data ->
  exists r, reagent_cost_per_test cost_data = Fin r /\ 4 <= r
    /\ (0 < equipment_cost cost_data)%Z /\ (0 < maintenance_cost_annual cost_data)%Z
    /\ (0 < power_consumption_watts cost_data)%Z
    /\ (0 < time_per_test_minutes cost_data)%Z.
Proof.
  unfold TECHNIQUE_COSTS. cbn [dict_get].
  repeat match goal with
         | |- (if String.eqb ?a ?b then _ else _) = _ -> _ =>
             destruct (String.eqb a b);
             [intros Hc; injection Hc as <-; cbn; eexists;
              split; [reflexivity |]; split; [lra | repeat split; lia] |]
         end.
  discriminate.
Qed.

Lemma calculate_total_cost_exact (technique : string) (cost_data : technique_costs)
    (r : R) (sample_count : Z) (d : R) :
  dict_get technique (TECHNIQUE_COSTS (F := xreal)) = Some cost_data ->
  reagent_cost_per_test cost_data = Fin r ->
  calculate_total_cost technique sample_count (Fin d)
  = Ok (fround2 (Fin (IZR (equipment_cost cost_data) / 5 * d
                      + r * IZR sample_count
                      + IZR (maintenance_cost_annual cost_data) * d
                      + IZR (power_consumption_watts cost_data) / 1000
                        * (IZR (time_per_test_minutes cost_data) / 60)
                        * IZR sample_count * (42 / 10)))).
Proof.
  intros Hget Hr. unfold calculate_total_cost, get_technique_costs. rewrite Hget.
  cbn [bind]. unfold cost_parts. cbn [equipment reagents maintenance power].
  rewrite Hr. unfold fdec. xnorm. rewrite !xmul_Fin, !xadd_Fin. reflexivity.
Qed.

Lemma known_technique_costs (technique : string) :
  In technique ["PCR"; "qPCR"; "LAMP"; "RPA"; "NASBA"; "TMA"; "HDA"; "SDA"; "NEAR"] ->
  exists cost_data, dict_get technique (TECHNIQUE_COSTS (F := xreal)) = Some cost_data.
Proof.
  intros Hin. destruct (dict_get technique TECHNIQUE_COSTS) as [c |] eqn:Hget; [eauto |].
  apply dict_get_None in Hget. contradiction.
Qed.

(** X16: in exact arithmetic, for each of the nine techniques, any sample
    count and any finite duration, [calculate_total_cost] returns a multiple
    of 0.01 that differs by at most 0.005 from the sum of its four parts,
    equipment/5 * years + reagent * samples + maintenance * years
    + watts/1000 * minutes/60 * samples * 4.2; the result is not negative
    when the sample count and the duration are not negative.  In binary64
    the call on ('LAMP', 185, 1.0) returns 45704.14. *)
Theorem total_cost_rounding (technique : string) (sample_count : Z) (d : R) :
  In technique ["PCR"; "qPCR"; "LAMP"; "RPA"; "NASBA"; "TMA"; "HDA"; "SDA"; "NEAR"] ->
  exists cost_data r v,
    get_technique_costs technique = Ok cost_data
    /\ reagent_cost_per_test cost_data = Fin r
    /\ calculate_total_cost technique sample_count (Fin d) = Ok (Fin v)
    /\ (exists k : Z, v = IZR k / 100)
    /\ - (1 / 200)
       <= v - (IZR (equipment_cost cost_data) / 5 * d
               + r * IZR sample_count
               + IZR (maintenance_cost_annual cost_data) * d
               + IZR (power_consumption_watts cost_data) / 1000
                 * (IZR (time_per_test_minutes cost_data) / 60)
                 * IZR sample_count * (42 / 10))
       <= 1 / 200
    /\ ((0 <= sample_count)%Z -> 0 <= d -> 0 <= v)
    /\ calculate_total_cost (F := float) "LAMP" 185 1%float = Ok 45704.14%float.
Proof.
  intros Hin. destruct (known_technique_costs technique Hin) as (cost_data & Hget).
  destruct (technique_costs_table technique cost_data Hget)
    as (r & Hr & Hr4 & HE & HM & HW & HT).
  exists cost_data, r.
  pose proof (calculate_total_cost_exact technique cost_data r sample_count d Hget Hr)
    as Hcalc.
  set (unrounded := IZR (equipment_cost cost_data) / 5 * d + r * IZR sample_count
                    + IZR (maintenance_cost_annual cost_data) * d
                    + IZR (power_consumption_watts cost_data) / 1000
                      * (IZR (time_per_test_minutes cost_data) / 60)
                      * IZR sample_count * (42 / 10)) in *.
  destruct (exact_round2_spec unrounded) as (k & Hk & Hbound & Hpos).
  exists (IZR k / 100). rewrite Hk in Hcalc.
  split; [unfold get_technique_costs; rewrite Hget; reflexivity |].
  split; [exact Hr |]. split; [exact Hcalc |]. split; [eauto |]. split; [exact Hbound |].
  split; [| vm_compute; reflexivity].
  intros Hn Hd.
  assert (Hu : 0 <= unrounded).
  { unfold unrounded. apply IZR_le in Hn. apply IZR_lt in HE, HM, HW, HT.
    repeat apply Rplus_le_le_0_compat; repeat apply Rmult_le_pos; lra. }
  specialize (Hpos Hu). apply IZR_le in Hpos. lra.
Qed.

(** X17: in exact arithmetic, for each of the nine techniques and any finite
    duration, the total cost strictly increases with the sample count. *)
Theorem total_cost_increases_with_samples (technique : string)
    (sample_count sample_count' : Z) (d : R) :
  In technique ["PCR"; "qPCR"; "LAMP"; "RPA"; "NASBA"; "TMA"; "HDA"; "SDA"; "NEAR"] ->
  (sample_count < sample_count')%Z ->
  exists v v',
    calculate_total_cost technique sample_count (Fin d) = Ok (Fin v)
    /\ calculate_total_cost technique sample_count' (Fin d) = Ok (Fin v')
    /\ v < v'.
Proof.
  intros Hin Hlt. destruct (known_technique_costs technique Hin) as (cost_data & Hget).
  destruct (technique_costs_table technique cost_data Hget)
    as (r & Hr & Hr4 & HE & HM & HW & HT).
  rewrite (calculate_total_cost_exact technique cost_data r sample_count d Hget Hr).
  rewrite (calculate_total_cost_exact technique cost_data r sample_count' d Hget Hr).
  match goal with
  | |- exists v v', Ok (fround2 (Fin ?a)) = _ /\ Ok (fround2 (Fin ?b)) = _ /\ _ =>
      assert (Hgap : a + 1 / 100 < b)
  end.
  { assert (Hn : IZR sample_count + 1 <= IZR sample_count').
    { rewrite <- plus_IZR. apply IZR_le. lia. }
    apply IZR_lt in HW, HT.
    assert (Hp : 0 <= IZR (power_consumption_watts cost_data) / 1000
                      * (IZR (time_per_test_minutes cost_data) / 60)).
    { apply Rmult_le_pos; lra. }
    nra. }
  match type of Hgap with
  | ?a + _ < ?b => destruct (exact_round2_mono a b ltac:(lra)) as (v & w & -> & -> & _ & Hs)
  end.
  exists v, w. repeat split. apply Hs. exact Hgap.
Qed.

Lemma total_cost_rounding_witness :
  exists cost_data r v,
    get_technique_costs "LAMP" = Ok cost_data
    /\ reagent_cost_per_test cost_data = Fin r
    /\ calculate_total_cost "LAMP" 185 (Fin 1) = Ok (Fin v)
    /\ (exists k : Z, v = IZR k / 100)
    /\ - (1 / 200)
       <= v - (IZR (equipment_cost cost_data) / 5 * 1
               + r * IZR 185
               + IZR (maintenance_cost_annual cost_data) * 1
               + IZR (power_consumption_watts cost_data) / 1000
                 * (IZR (time_per_test_minutes cost_data) / 60)
                 * IZR 185 * (42 / 10))
       <= 1 / 200
    /\ ((0 <= 185)%Z -> 0 <= 1 -> 0 <= v)
    /\ calculate_total_cost (F := float) "LAMP" 185 1%float = Ok 45704.14%float.
Proof.
  apply (total_cost_rounding "LAMP" 185 1). cbn. tauto.
Defined.

Lemma total_cost_increases_with_samples_witness :
  exists v v',
    calculate_total_cost "RPA" 7 (Fin 1) = Ok (Fin v)
    /\ calculate_total_cost "RPA" 8 (Fin 1) = Ok (Fin v')
    /\ v < v'.
Proof.
  apply (total_cost_increases_with_samples "RPA" 7 8 1); [cbn; tauto | lia].
Defined.

Section CostComparison.

Variables (sample_count : Z) (d : R).

(** What [compare_technique_costs] stores for a technique. *)
Let entry_for (technique : string) (entry : technique_comparison) : Prop :=
  exists v,
    calculate_total_cost technique sample_count (Fin d) = Ok (Fin v)
    /\ total_cost entry = Fin v
    /\ ((sample_count <= 0)%Z -> cost_per_sample entry = Fin 0)
    /\ ((0 < sample_count)%Z -> cost_per_sample entry = Fin (v / IZR sample_count)).

Lemma compare_technique_costs_step_exact (technique : string)
    (comparison : gmap string technique_comparison) :
  (dict_get technique (TECHNIQUE_COSTS (F := xreal)) = None
   /\ compare_technique_costs_step sample_count (Fin d) comparison technique
      = Ok comparison)
  \/ (is_Some (dict_get technique (TECHNIQUE_COSTS (F := xreal)))
      /\ exists entry,
           compare_technique_costs_step sample_count (Fin d) comparison technique
           = Ok (<[technique := entry]> comparison)
           /\ entry_for technique entry).
Proof.
  unfold compare_technique_costs_step.
  destruct (dict_get technique TECHNIQUE_COSTS) as [cost_data |] eqn:Hget;
    [right | left; split; reflexivity].
  split; [eauto |].
  destruct (technique_costs_table technique cost_data Hget) as (r & Hr & _).
  pose proof (calculate_total_cost_exact technique cost_data r sample_count d Hget Hr)
    as Hcalc.
  match type of Hcalc with
  | _ = Ok (fround2 (Fin ?a)) => destruct (exact_round2_spec a) as (k & Hk & _)
  end.
  rewrite Hk in Hcalc. unfold get_technique_costs at 1. rewrite Hget. cbn [bind].
  rewrite Hcalc. cbn [bind].
  destruct (Z.ltb_spec 0%Z sample_count) as [Hpos | Hneg].
  - change (fint sample_count) with (Fin (IZR sample_count)).
    rewrite py_div_exact by (apply not_0_IZR; lia). cbn [bind].
    eexists. split; [reflexivity |]. exists (IZR k / 100).
    cbn [total_cost cost_per_sample]. split; [exact Hcalc |]. split; [reflexivity |].
    split; [intros Hc; lia | intros _; reflexivity].
  - cbn [bind]. eexists. split; [reflexivity |]. exists (IZR k / 100).
    cbn [total_cost cost_per_sample]. split; [exact Hcalc |]. split; [reflexivity |].
    split; [intros _; reflexivity | intros Hc; lia].
Qed.

Lemma compare_technique_costs_loop_exact (techniques : list string)
    (comparison : gmap string technique_comparison) :
  exists comparison',
    compare_technique_costs_loop techniques sample_count (Fin d) comparison
    = Ok comparison'
    /\ (forall technique,
          is_Some (comparison' !! technique)
          <-> is_Some (comparison !! technique)
              \/ (In technique techniques
                  /\ is_Some (dict_get technique (TECHNIQUE_COSTS (F := xreal)))))
    /\ (forall technique entry,
          comparison' !! technique = Some entry ->
          comparison !! technique = Some entry \/ entry_for technique entry).
Proof.
  revert comparison. induction techniques as [| t rest IH]; intros comparison;
    cbn [compare_technique_costs_loop].
  - exists comparison. split; [reflexivity |]. split.
    + intros technique. cbn [In]. tauto.
    + auto.
  - destruct (compare_technique_costs_step_exact t comparison)
      as [[Hnone ->] | [Hsome (entry & -> & Hentry)]]; cbn [bind].
    + destruct (IH comparison) as (m & -> & Hdom & Hval).
      exists m. split; [reflexivity |]. split; [| exact Hval].
      intros technique. rewrite Hdom. cbn [In]. split.
      * intros [Hin | [Hin Hk]]; [left; exact Hin | right; split; [right |]; assumption].
      * intros [Hin | [[-> | Hin] Hk]]; [left; exact Hin | | right; split; assumption].
        rewrite Hnone in Hk. destruct Hk as [? Hk]. discriminate Hk.
    + destruct (IH (<[t := entry]> comparison)) as (m & -> & Hdom & Hval).
      exists m. split; [reflexivity |]. split.
      * intros technique. rewrite Hdom. cbn [In].
        destruct (decide (technique = t)) as [-> | Hne].
        -- rewrite lookup_insert_eq. split; [intros _ | intros _; left; eauto].
           right. split; [left; reflexivity | exact Hsome].
        -- rewrite lookup_insert_ne by congruence. split.
           ++ intros [Hin | [Hin Hk]]; [left; exact Hin |].
              right. split; [right |]; assumption.
           ++ intros [Hin | [[Heq | Hin] Hk]]; [left; exact Hin | congruence |].
              right. split; assumption.
      * intros technique e He. destruct (Hval technique e He) as [Hin | Hnew];
          [| right; exact Hnew].
        destruct (decide (technique = t)) as [-> | Hne].
        -- rewrite lookup_insert_eq in Hin. injection Hin as <-. right. exact Hentry.
        -- rewrite lookup_insert_ne in Hin by congruence. left. exact Hin.
Qed.

(** X18: in exact arithmetic, for any list of names, any sample count and any
    finite duration, [compare_technique_costs] returns a dictionary whose
    keys are exactly the listed names that are keys of [TECHNIQUE_COSTS]
    (unknown names are skipped without an error); the entry of a technique
    holds the total of [calculate_total_cost], and its cost per sample is that
    total divided by the sample count, or 0 when the count is not positive. *)
Theorem compare_technique_costs_entries (techniques : list string) :
  exists comparison,
    compare_technique_costs techniques sample_count (Fin d) = Ok comparison
    /\ (forall technique,
          is_Some (comparison !! technique)
          <-> In technique techniques
              /\ In technique
                   ["PCR"; "qPCR"; "LAMP"; "RPA"; "NASBA"; "TMA"; "HDA"; "SDA"; "NEAR"])
    /\ (forall technique entry,
          comparison !! technique = Some entry ->
          exists v,
            calculate_total_cost technique sample_count (Fin d) = Ok (Fin v)
            /\ total_cost entry = Fin v
            /\ ((sample_count <= 0)%Z -> cost_per_sample entry = Fin 0)
            /\ ((0 < sample_count)%Z ->
                cost_per_sample entry = Fin (v / IZR sample_count))).
Proof.
  unfold compare_technique_costs.
  destruct (compare_technique_costs_loop_exact techniques ∅) as (m & Hm & Hdom & Hval).
  exists m. split; [exact Hm |]. split.
  - intros technique. rewrite Hdom, lookup_empty.
    pose proof (technique_known_iff (F := xreal) technique) as Hknown.
    rewrite Hknown. split; [| tauto].
    intros [[? Hc] | Hin]; [discriminate Hc | exact Hin].
  - intros technique entry He. destruct (Hval technique entry He) as [Hc | Hnew].
    + rewrite lookup_empty in Hc. discriminate Hc.
    + exact Hnew.
Qed.

End CostComparison.

(** ** The other handlers *)

Section Grouping.

Context {F : Type} `{FloatOps F}.

Lemma group_step_lookup (techniques : gmap string (list (@experiment_row F)))
    (exp : experiment_row) (technique : string) :
  group_step techniques exp !! technique
  = if String.eqb (row_technique exp) technique
    then Some (default [] (techniques !! technique) ++ [exp])
    else techniques !! technique.
Proof.
  unfold group_step. destruct (String.eqb_spec (row_technique exp) technique) as [<- | Hne].
  - rewrite lookup_insert_eq.
    destruct (techniques !! row_technique exp) as [group |] eqn:Hg.
    + rewrite Hg. reflexivity.
    + rewrite lookup_insert_eq. reflexivity.
  - rewrite lookup_insert_ne by exact Hne.
    destruct (techniques !! row_technique exp); [reflexivity |].
    rewrite lookup_insert_ne by exact Hne. reflexivity.
Qed.

Lemma fold_group_step_lookup (experiments : list (@experiment_row F))
    (techniques : gmap string (list experiment_row)) (technique : string) :
  fold_left group_step experiments techniques !! technique
  = match List.filter (fun exp => String.eqb (row_technique exp) technique) experiments with
    | [] => techniques !! technique
    | group => Some (default [] (techniques !! technique) ++ group)
    end.
Proof.
  revert techniques. induction experiments as [| exp rest IH]; intros techniques;
    cbn [fold_left List.filter]; [reflexivity |].
  rewrite IH, group_step_lookup.
  destruct (String.eqb (row_technique exp) technique);
    destruct (List.filter _ rest); cbn [default from_option Datatypes.id];
    rewrite <- ?app_assoc; reflexivity.
Qed.

(** X19: the grouping loop of [analysis] and [cost_comparison] maps each
    technique that occurs among the experiments to the list of exactly the
    experiments of that technique, in the order of the input, and has no key
    for a technique that does not occur; so no group is empty and every
    experiment is in the group of its technique and in no other. *)
Theorem group_by_technique_lookup (experiments : list (@experiment_row F))
    (technique : string) :
  group_by_technique experiments !! technique
  = match List.filter (fun exp => String.eqb (row_technique exp) technique) experiments with
    | [] => None
    | group => Some group
    end.
Proof.
  unfold group_by_technique. rewrite fold_group_step_lookup, lookup_empty.
  reflexivity.
Qed.

End Grouping.

Lemma is_Some_insert_rev {V : Type} (k j : string) (v : V) (m : gmap string V)
    (keys : list string) :
  (is_Some (m !! j) <-> In j (rev keys)) ->
  (is_Some (<[k := v]> m !! j) <-> In j (rev (k :: keys))).
Proof.
  intros Hm. cbn [rev]. rewrite in_app_iff. cbn [In].
  destruct (decide (k = j)) as [-> | Hne].
  - rewrite lookup_insert_eq. split; [intros _; right; left; reflexivity | eauto].
  - rewrite lookup_insert_ne by exact Hne. rewrite Hm. tauto.
Qed.

Section CostComparisonPage.

Context {F : Type} `{FloatOps F} `{RoundOps F}.

(** X20: [cost_comparison] never fails: each of its nine hard-coded names
    is a key of [TECHNIQUE_COSTS]; it returns the cost data under exactly
    these nine keys, each with the value of [get_technique_costs], together
    with the experiments grouped by technique. *)
Theorem cost_comparison_total (experiments : list (@experiment_row F)) :
  exists cost_data,
    cost_comparison experiments = Ok (cost_data, group_by_technique experiments)
    /\ (forall technique,
          is_Some (cost_data !! technique)
          <-> In technique
                ["PCR"; "qPCR"; "LAMP"; "RPA"; "NASBA"; "TMA"; "HDA"; "SDA"; "NEAR"])
    /\ (forall technique costs,
          cost_data !! technique = Some costs ->
          get_technique_costs technique = Ok costs).
Proof.
  unfold cost_comparison. cbn [fold_left bind].
  repeat match goal with
         | |- context [bind (get_technique_costs ?t) _] =>
             let Hk := fresh "Hk" in
             assert (Hk : is_Some (dict_get t (TECHNIQUE_COSTS (F := F))))
               by (apply technique_known_iff; cbn [In]; tauto);
             let costs := fresh "costs" in
             let E := fresh "E" in
             destruct (get_technique_costs t) as [costs |] eqn:E;
             [clear Hk
             | exfalso; unfold get_technique_costs in E; destruct Hk as [? Hk];
               rewrite Hk in E; discriminate E];
             cbn [bind]
         end.
  eexists. split; [reflexivity |]. split.
  - intros technique.
    change ["PCR"; "qPCR"; "LAMP"; "RPA"; "NASBA"; "TMA"; "HDA"; "SDA"; "NEAR"]
      with (rev ["NEAR"; "SDA"; "HDA"; "TMA"; "NASBA"; "RPA"; "LAMP"; "qPCR"; "PCR"]).
    repeat apply is_Some_insert_rev. rewrite lookup_empty.
    split; [intros [? Hc]; discriminate Hc | intros []].
  - intros technique costs'.
    repeat match goal with
           | |- <[?k := _]> _ !! technique = Some _ -> _ =>
               destruct (decide (k = technique)) as [<- | Hne];
               [rewrite lookup_insert_eq; intros Hc; injection Hc as <-; assumption
               | rewrite lookup_insert_ne by exact Hne; clear Hne]
           end.
    rewrite lookup_empty. discriminate.
Qed.

End CostComparisonPage.

Section Submission.

Context {F : Type} `{FloatOps F} `{RoundOps F}.
Variable norm_ppf : F -> F.
Variable py_int : string -> pyresult Z.
Variable py_float : string -> pyresult F.

Lemma falsy_false (field : option string) :
  falsy field = false -> exists text, field = Some text /\ text <> "".
Proof.
  destruct field as [text |]; cbn [falsy]; [| discriminate].
  destruct (String.eqb_spec text ""); [discriminate |]. eauto.
Qed.

(** X21: [submit_experiment] either leaves the table of experiments as it
    is and redirects to the input page with an error message, or appends
    exactly one row and redirects to the page of the new experiment; a row is
    appended only with the submitted non-empty name, a technique that is a
    key of [TECHNIQUE_COSTS], counts whose sum is not zero, the statistics
    that [calculate_diagnostic_stats] returns for these counts, and the total
    cost of [calculate_total_cost] for their sum. *)
Theorem submit_experiment_outcome (form : gmap string string)
    (rows : list (@experiment_row F)) :
  let answer := fst (submit_experiment norm_ppf py_int py_float form rows) in
  let rows' := snd (submit_experiment norm_ppf py_int py_float form rows) in
  (rows' = rows /\ flash_category answer = "error"
   /\ target answer = endpoint_data_input)
  \/ (exists row,
        rows' = rows ++ [row]
        /\ flash_category answer = "success"
        /\ target answer = endpoint_view_experiment
        /\ form !! "name" = Some (row_name row) /\ row_name row <> ""
        /\ form !! "technique" = Some (row_technique row)
        /\ In (row_technique row)
             ["PCR"; "qPCR"; "LAMP"; "RPA"; "NASBA"; "TMA"; "HDA"; "SDA"; "NEAR"]
        /\ form_int py_int form "true_positive" = Ok (row_true_positive row)
        /\ form_int py_int form "false_positive" = Ok (row_false_positive row)
        /\ form_int py_int form "true_negative" = Ok (row_true_negative row)
        /\ form_int py_int form "false_negative" = Ok (row_false_negative row)
        /\ (row_true_positive row + row_false_positive row
            + row_true_negative row + row_false_negative row <> 0)%Z
        /\ calculate_diagnostic_stats norm_ppf (row_true_positive row)
             (row_false_positive row) (row_true_negative row)
             (row_false_negative row) (row_confidence_level row)
           = Ok (row_statistics row)
        /\ calculate_total_cost (row_technique row)
             (row_true_positive row + row_false_positive row
              + row_true_negative row + row_false_negative row) (fint 1)
           = Ok (row_total_cost row)).
Proof.
  unfold submit_experiment, submit_experiment_body.
  destruct (form_float py_float form "confidence_level" (fdec 95 100)) as [c |];
    cbn [bind]; [| left; repeat split].
  destruct (form_int py_int form "true_positive") as [tp |]; cbn [bind];
    [| left; repeat split].
  destruct (form_int py_int form "false_positive") as [fp |]; cbn [bind];
    [| left; repeat split].
  destruct (form_int py_int form "true_negative") as [tn |]; cbn [bind];
    [| left; repeat split].
  destruct (form_int py_int form "false_negative") as [fn |]; cbn [bind];
    [| left; repeat split].
  destruct (falsy (form !! "name")) eqn:Hname; cbn [orb]; [left; repeat split |].
  destruct (falsy (form !! "technique")) eqn:Htech; [left; repeat split |].
  destruct (Z.eqb_spec (tp + fp + tn + fn) 0) as [Hz | Hz]; [left; repeat split |].
  destruct (falsy_false _ Hname) as (name & -> & Hne).
  destruct (falsy_false _ Htech) as (technique & -> & _).
  cbn [default from_option Datatypes.id].
  destruct (calculate_diagnostic_stats norm_ppf tp fp tn fn c) as [stats |] eqn:Hstats;
    cbn [bind]; [| left; repeat split].
  destruct (get_technique_costs technique) as [cost_data |] eqn:Hcost; cbn [bind];
    [| left; repeat split].
  destruct (calculate_total_cost technique (tp + fp + tn + fn) (fint 1))
    as [total |] eqn:Htotal; cbn [bind]; [| left; repeat split].
  right. eexists. cbn [fst snd]. split; [reflexivity |].
  cbn [flash_category target row_name row_technique row_true_positive
       row_false_positive row_true_negative row_false_negative row_confidence_level
       row_statistics row_total_cost].
  repeat split; try assumption.
  apply technique_known_iff. unfold get_technique_costs in Hcost.
  destruct (dict_get technique TECHNIQUE_COSTS); [eauto | discriminate Hcost].
Qed.

End Submission.

Section ExactSubmission.

Variable norm_ppf : xreal -> xreal.
Variable py_int : string -> pyresult Z.
Variable py_float : string -> pyresult xreal.


End ExactSubmission.


Section Upload.

Context {F : Type} `{FloatOps F} `{RoundOps F}.
Variable norm_ppf : F -> F.

(** The rows that the loop of [upload_file] makes. *)
Let created (experiments_data : list experiment_data) : list (@experiment_row F) :=
  flat_map (fun exp_data =>
              match experiment_from_data norm_ppf exp_data with
              | Ok experiment => [experiment]
              | Raise _ => []
              end) experiments_data.

Lemma create_experiments_spec (experiments_data : list experiment_data)
    (created_count : nat) (rows : list (@experiment_row F)) :
  create_experiments norm_ppf experiments_data created_count rows
  = ((created_count + length (created experiments_data))%nat,
     rows ++ created experiments_data).
Proof.
  revert created_count rows.
  induction experiments_data as [| exp_data rest IH]; intros created_count rows;
    cbn [create_experiments created flat_map].
  - rewrite Nat.add_0_r, app_nil_r. reflexivity.
  - fold (created rest).
    destruct (experiment_from_data norm_ppf exp_data) as [experiment |]; rewrite IH.
    + rewrite length_app, <- app_assoc. cbn [length app]. f_equal. lia.
    + reflexivity.
Qed.

Lemma created_length (experiments_data : list experiment_data) :
  (length (created experiments_data) <= length experiments_data)%nat.
Proof.
  induction experiments_data as [| exp_data rest IH]; cbn [created flat_map length];
    [lia |].
  fold (created rest). rewrite length_app.
  destruct (experiment_from_data norm_ppf exp_data); cbn [length]; lia.
Qed.

(** X23: [upload_file] either leaves the table as it is and redirects to
    the input page with an error message, or, for a non-empty list of
    dictionaries from [process_uploaded_file], appends in order the rows of
    the dictionaries for which the statistics and the costs can be computed,
    skips the others, and reports as the number of created experiments
    exactly the number of rows it appended, which can be 0. *)
Theorem upload_file_outcome (filename : option string)
    (processed : pyresult (list experiment_data)) (rows : list (@experiment_row F)) :
  let answer := fst (upload_file norm_ppf filename processed rows) in
  let rows' := snd (upload_file norm_ppf filename processed rows) in
  (rows' = rows /\ flash_category answer = "error"
   /\ target answer = endpoint_data_input)
  \/ (exists experiments_data new_rows,
        processed = Ok experiments_data /\ experiments_data <> []
        /\ new_rows
           = flat_map (fun exp_data =>
                         match experiment_from_data norm_ppf exp_data with
                         | Ok experiment => [experiment]
                         | Raise _ => []
                         end) experiments_data
        /\ rows' = rows ++ new_rows
        /\ (length new_rows <= length experiments_data)%nat
        /\ flash_message answer
           = ("Successfully created " ++ pretty (length new_rows)
              ++ " experiments from file")%string
        /\ flash_category answer = "success"
        /\ target answer = endpoint_analysis).
Proof.
  unfold upload_file.
  destruct filename as [text |]; [| left; repeat split].
  destruct (String.eqb text ""); [left; repeat split |].
  destruct processed as [[| exp_data rest] | e]; [left; repeat split | | left; repeat split].
  rewrite create_experiments_spec. cbn [fst snd flash_message flash_category target].
  right. exists (exp_data :: rest), (created (exp_data :: rest)).
  split; [reflexivity |]. split; [discriminate |]. split; [reflexivity |].
  split; [reflexivity |]. split; [apply created_length |]. repeat split.
Qed.

End Upload.

Section ExactUpload.

Variable norm_ppf : xreal -> xreal.

Lemma experiment_from_data_exact (exp_data : experiment_data) :
  (0 <= data_tp exp_data)%Z -> (0 <= data_fp exp_data)%Z ->
  (0 <= data_tn exp_data)%Z -> (0 <= data_fn exp_data)%Z ->
  (0 < data_tp exp_data + data_fp exp_data + data_tn exp_data + data_fn exp_data)%Z ->
  In (data_technique exp_data)
     ["PCR"; "qPCR"; "LAMP"; "RPA"; "NASBA"; "TMA"; "HDA"; "SDA"; "NEAR"] ->
  exists experiment,
    experiment_from_data norm_ppf exp_data = Ok experiment
    /\ row_name experiment = data_name exp_data
    /\ row_technique experiment = data_technique exp_data
    /\ row_true_positive experiment = data_tp exp_data
    /\ row_false_positive experiment = data_fp exp_data
    /\ row_true_negative experiment = data_tn exp_data
    /\ row_false_negative experiment = data_fn exp_data.
Proof.
  intros Htp Hfp Htn Hfn Hsum Hknown. unfold experiment_from_data.
  destruct (calculate_diagnostic_stats_total norm_ppf _ _ _ _ (fdec 95 100)
              Htp Hfp Htn Hfn Hsum) as (stats & ->).
  cbn [bind].
  destruct (known_technique_costs _ Hknown) as (cost_data & Hget).
  destruct (technique_costs_table _ cost_data Hget) as (r & Hr & _).
  rewrite (calculate_total_cost_exact _ cost_data r _ 1 Hget Hr).
  unfold get_technique_costs. rewrite Hget. cbn [bind].
  eexists. split; [reflexivity |]. repeat split.
Qed.


End ExactUpload.


(** ** Validation of confusion matrices *)

Section ValidationGeneric.

Context {F : Type} `{FloatOps F}.
Variable format_1f : F -> string.

Lemma any_negative_iff (tp fp tn fn : Z) :
  existsb (fun val => (val <? 0)%Z) [tp; fp; tn; fn] = false
  <-> (0 <= tp)%Z /\ (0 <= fp)%Z /\ (0 <= tn)%Z /\ (0 <= fn)%Z.
Proof.
  cbn [existsb]. rewrite !orb_false_iff, !Z.ltb_ge. tauto.
Qed.

Lemma validation_errors_spec (tp fp tn fn : Z) :
  let validation := validate_confusion_matrix_data format_1f tp fp tn fn in
  (is_valid validation = true
   <-> ((0 <= tp)%Z /\ (0 <= fp)%Z /\ (0 <= tn)%Z /\ (0 <= fn)%Z)
       /\ (0 < tp + fp + tn + fn)%Z)
  /\ (is_valid validation = true <-> errors validation = []).
Proof.
  intros validation.
  pose proof (any_negative_iff tp fp tn fn) as Hneg.
  unfold validation, validate_confusion_matrix_data. cbn [errors is_valid].
  destruct (existsb (fun val => (val <? 0)%Z) [tp; fp; tn; fn]) eqn:Hany;
    destruct (Z.eqb_spec (tp + fp + tn + fn) 0) as [Hz | Hz];
    cbn [app length Nat.eqb].
  - repeat split; try discriminate.
    intros [Hc _]. apply Hneg in Hc. discriminate Hc.
  - repeat split; try discriminate.
    intros [Hc _]. apply Hneg in Hc. discriminate Hc.
  - repeat split; try discriminate. intros [_ Hc]. lia.
  - assert (Hnn : (0 <= tp)%Z /\ (0 <= fp)%Z /\ (0 <= tn)%Z /\ (0 <= fn)%Z)
      by (apply Hneg; reflexivity).
    repeat split; try reflexivity; try (apply Hnn). lia.
Qed.


End ValidationGeneric.

Section ValidationWarnings.

Context {F : Type} `{FloatOps F}.
Variable format_1f : F -> string.

(** The warnings, one block per check. *)
Lemma warnings_decomposition (tp fp tn fn : Z) :
  warnings (validate_confusion_matrix_data format_1f tp fp tn fn)
  = if (0 <? tp + fp + tn + fn)%Z then
      (if (tp + fp + tn + fn <? 10)%Z
       then [("Small sample size (n=" ++ pretty (tp + fp + tn + fn)%Z
              ++ ") may lead to unreliable statistical estimates")%string]
       else [])
      ++ (if (tp + fn =? 0)%Z then ["No positive cases in the dataset"]
          else if (fp + tn =? 0)%Z then ["No negative cases in the dataset"]
          else [])
      ++ (if (0 <? tp + fn)%Z && (0 <? fp + tn)%Z then
            if flt (fint 10)
                   (int_truediv (Z.max (tp + fn) (fp + tn)) (Z.min (tp + fn) (fp + tn)))
            then [("Highly imbalanced dataset (ratio: "
                   ++ format_1f (int_truediv (Z.max (tp + fn) (fp + tn))
                                             (Z.min (tp + fn) (fp + tn)))
                   ++ ":1)")%string]
            else []
          else [])
      ++ (if (fp =? 0)%Z && (fn =? 0)%Z
          then ["Perfect classification detected - verify data accuracy"] else [])
      ++ (if (tp =? 0)%Z && (tn =? 0)%Z
          then ["No correct classifications detected - verify data accuracy"]
          else [])
    else [].
Proof.
  unfold validate_confusion_matrix_data. cbn [warnings].
  destruct (0 <? tp + fp + tn + fn)%Z; [| reflexivity].
  destruct (tp + fp + tn + fn <? 10)%Z;
    destruct (tp + fn =? 0)%Z; destruct (fp + tn =? 0)%Z;
    destruct ((0 <? tp + fn)%Z && (0 <? fp + tn)%Z);
    try match goal with |- context [flt ?a ?b] => destruct (flt a b) end;
    destruct ((fp =? 0)%Z && (fn =? 0)%Z); destruct ((tp =? 0)%Z && (tn =? 0)%Z);
    reflexivity.
Qed.

End ValidationWarnings.

Section ExactValidation.

Variable norm_ppf : xreal -> xreal.
Variable format_1f : xreal -> string.

Lemma imbalance_exact (positive_count negative_count : Z) :
  (0 < positive_count)%Z -> (0 < negative_count)%Z ->
  flt (fint 10)
      (int_truediv (F := xreal) (Z.max positive_count negative_count)
                   (Z.min positive_count negative_count)) = true
  <-> (10 * Z.min positive_count negative_count
       < Z.max positive_count negative_count)%Z.
Proof.
  intros Hp Hn. xnorm.
  assert (Hmin : 0 < IZR (Z.min positive_count negative_count)) by (apply IZR_lt; lia).
  rewrite xlt_Fin_spec. split.
  - intros Hlt. apply lt_IZR. rewrite mult_IZR.
    apply (Rmult_lt_compat_r _ _ _ Hmin) in Hlt.
    unfold Rdiv in Hlt. rewrite Rmult_assoc, Rinv_l in Hlt by lra. lra.
  - intros Hlt. apply IZR_lt in Hlt. rewrite mult_IZR in Hlt.
    apply Rmult_lt_reg_r with (IZR (Z.min positive_count negative_count)); [exact Hmin |].
    unfold Rdiv. rewrite Rmult_assoc, Rinv_l by lra. lra.
Qed.

(** X26: in exact arithmetic, [validate_confusion_matrix_data] returns
    neither an error nor a warning exactly when the four counts are
    non-negative, their sum is at least 10, there are positive and negative
    cases, the larger of the two classes is at most ten times the smaller,
    and neither the two error cells nor the two correct cells are both
    zero. *)
Theorem validation_clean_iff (tp fp tn fn : Z) :
  let validation := validate_confusion_matrix_data format_1f tp fp tn fn in
  errors validation = [] /\ warnings validation = []
  <-> (0 <= tp)%Z /\ (0 <= fp)%Z /\ (0 <= tn)%Z /\ (0 <= fn)%Z
      /\ (10 <= tp + fp + tn + fn)%Z
      /\ (0 < tp + fn)%Z /\ (0 < fp + tn)%Z
      /\ (Z.max (tp + fn) (fp + tn) <= 10 * Z.min (tp + fn) (fp + tn))%Z
      /\ ~ (fp = 0%Z /\ fn = 0%Z) /\ ~ (tp = 0%Z /\ tn = 0%Z).
Proof.
  intros validation.
  destruct (validation_errors_spec format_1f tp fp tn fn) as (Hvalid & Herr).
  fold validation in Hvalid, Herr. rewrite <- Herr, Hvalid.
  unfold validation. rewrite warnings_decomposition.
  split.
  - intros [((Htp & Hfp & Htn & Hfn) & Hsum) Hw].
    destruct (Z.ltb_spec 0 (tp + fp + tn + fn)) as [_ | ?]; [| lia].
    apply app_eq_nil in Hw. destruct Hw as [H1 Hw].
    apply app_eq_nil in Hw. destruct Hw as [H2 Hw].
    apply app_eq_nil in Hw. destruct Hw as [H3 Hw].
    apply app_eq_nil in Hw. destruct Hw as [H4 H5].
    destruct (Z.ltb_spec (tp + fp + tn + fn) 10); [discriminate H1 |].
    destruct (Z.eqb_spec (tp + fn) 0); [discriminate H2 |].
    destruct (Z.eqb_spec (fp + tn) 0); [discriminate H2 |].
    assert (Hpos : (0 < tp + fn)%Z) by lia.
    assert (Hneg : (0 < fp + tn)%Z) by lia.
    destruct (Z.ltb_spec 0 (tp + fn)); [| lia].
    destruct (Z.ltb_spec 0 (fp + tn)); [| lia].
    cbn [andb] in H3.
    destruct (flt (fint 10) _) eqn:Hratio; [discriminate H3 |].
    assert (Hbal : ~ (10 * Z.min (tp + fn) (fp + tn) < Z.max (tp + fn) (fp + tn))%Z).
    { intros Hc. apply (imbalance_exact _ _ Hpos Hneg) in Hc.
      rewrite Hc in Hratio. discriminate Hratio. }
    repeat split; try assumption; try lia.
    + intros [-> ->]. discriminate H4.
    + intros [-> ->]. discriminate H5.
  - intros (Htp & Hfp & Htn & Hfn & Hsum & Hpos & Hneg & Hbal & Herrs & Hcorrect).
    split; [repeat split; try assumption; lia |].
    destruct (Z.ltb_spec 0 (tp + fp + tn + fn)) as [_ | ?]; [| lia].
    destruct (Z.ltb_spec (tp + fp + tn + fn) 10); [lia |].
    destruct (Z.eqb_spec (tp + fn) 0); [lia |].
    destruct (Z.eqb_spec (fp + tn) 0); [lia |].
    destruct (Z.ltb_spec 0 (tp + fn)); [| lia].
    destruct (Z.ltb_spec 0 (fp + tn)); [| lia].
    cbn [andb].
    destruct (flt (fint 10) _) eqn:Hratio.
    { apply (imbalance_exact _ _ Hpos Hneg) in Hratio. lia. }
    destruct (Z.eqb_spec fp 0); destruct (Z.eqb_spec fn 0);
      destruct (Z.eqb_spec tp 0); destruct (Z.eqb_spec tn 0); cbn [andb app];
      try reflexivity; exfalso; tauto.
Qed.

(** X27: in exact arithmetic, whatever [validate_confusion_matrix_data]
    reports as valid is accepted by [calculate_diagnostic_stats], at any
    confidence level.  The converse fails: (-1, 1, 1, 1) is reported as
    invalid, yet [calculate_diagnostic_stats] returns statistics for it
    (evaluated in binary64). *)
Theorem validated_input_is_accepted (tp fp tn fn : Z) (c : xreal) :
  is_valid (validate_confusion_matrix_data format_1f tp fp tn fn) = true ->
  (exists r, calculate_diagnostic_stats norm_ppf tp fp tn fn c = Ok r)
  /\ (forall format : float -> string,
        is_valid (validate_confusion_matrix_data format (-1) 1 1 1) = false
        /\ is_ok (calculate_diagnostic_stats Binary64.norm_ppf (-1) 1 1 1 0.95%float)
           = true).
Proof.
  intros Hvalid.
  destruct (validation_errors_spec format_1f tp fp tn fn) as (Hiff & _).
  apply Hiff in Hvalid. destruct Hvalid as ((Htp & Hfp & Htn & Hfn) & Hsum).
  split.
  - apply calculate_diagnostic_stats_total; assumption.
  - intros format. split; [reflexivity | vm_compute; reflexivity].
Qed.

End ExactValidation.

Lemma validated_input_is_accepted_witness :
  (exists r, calculate_diagnostic_stats critical_95 85 3 92 5 (fdec 95 100) = Ok r)
  /\ (forall format : float -> string,
        is_valid (validate_confusion_matrix_data format (-1) 1 1 1) = false
        /\ is_ok (calculate_diagnostic_stats Binary64.norm_ppf (-1) 1 1 1 0.95%float)
           = true).
Proof.
  apply (validated_input_is_accepted critical_95 (fun _ => ""%string) 85 3 92 5
           (fdec 95 100)).
  reflexivity.
Defined.

Lemma filter_partition_length {A : Type} (keep : A -> bool) (l : list A) :
  (length (List.filter keep l) + length (List.filter (fun a => negb (keep a)) l)
   = length l)%nat.
Proof.
  induction l as [| a t IH]; cbn [List.filter length]; [reflexivity |].
  destruct (keep a); cbn [negb length]; lia.
Qed.

Section BatchValidation.

Context {F : Type} `{FloatOps F}.
Variable format_1f : F -> string.

Let valid (exp_data : experiment_data) : bool :=
  is_valid (validate_confusion_matrix_data format_1f (data_tp exp_data)
              (data_fp exp_data) (data_tn exp_data) (data_fn exp_data)).

Let rejected (exp_data : experiment_data) : invalid_experiment :=
  {| invalid_data := exp_data;
     invalid_errors :=
       errors (validate_confusion_matrix_data format_1f (data_tp exp_data)
                 (data_fp exp_data) (data_tn exp_data) (data_fn exp_data)) |}.

Lemma batch_validate_loop_spec (i : nat) (experiments_data : list experiment_data)
    (valid_experiments : list experiment_data)
    (invalid_experiments : list invalid_experiment) (warnings_summary : list string) :
  exists more_warnings,
    batch_validate_loop format_1f i experiments_data valid_experiments
      invalid_experiments warnings_summary
    = (valid_experiments ++ List.filter valid experiments_data,
       invalid_experiments
       ++ map rejected (List.filter (fun exp_data => negb (valid exp_data))
                                    experiments_data),
       warnings_summary ++ more_warnings).
Proof.
  revert i valid_experiments invalid_experiments warnings_summary.
  induction experiments_data as [| exp_data rest IH];
    intros i valid_experiments invalid_experiments warnings_summary;
    cbn [batch_validate_loop List.filter].
  - exists []. rewrite !app_nil_r. reflexivity.
  - fold (valid exp_data). destruct (valid exp_data) eqn:Hv; cbn [negb map].
    + destruct (IH (S i) (valid_experiments ++ [exp_data]) invalid_experiments
                  (warnings_summary
                   ++ map (fun w => ("Experiment " ++ pretty (i + 1)%nat ++ ": " ++ w)%string)
                          (warnings
                             (validate_confusion_matrix_data format_1f
                                (data_tp exp_data) (data_fp exp_data)
                                (data_tn exp_data) (data_fn exp_data)))))
        as (more & ->).
      eexists. rewrite <- !app_assoc. reflexivity.
    + destruct (IH (S i) valid_experiments
                  (invalid_experiments ++ [rejected exp_data]) warnings_summary)
        as (more & Hmore).
      exists more. unfold rejected in Hmore at 1. rewrite Hmore.
      rewrite <- !app_assoc. reflexivity.
Qed.


End BatchValidation.
